(** * Karonga village bank: the dual-store data layer of [Village.py]

    A shallow embedding of the synchronisation manager
    ([DatabaseSyncManager]) and of the connection arbiter
    ([DatabaseManager]) of [src/Village.py], with the properties the
    specification states about them.

    Conventions of the embedding.
    - A row fetched with [dict(zip(columns, row))] is a finite map from
      column names to values; the values are the JSON-representable
      scalars [None], [bool], [int] and [str] (floating point is left
      out).  On such rows [json.dumps] does not raise; a row with a
      value it cannot write - a [datetime], a [Decimal] - is outside
      the embedding, and with it the [TypeError] that hashing or storing
      such a row raises.
    - A Python [str] is a [string] whose characters are the code points
      below 256.
    - A database is a finite map from table names to lists of rows; a
      statement on a table the database lacks raises, as the driver does.
    - Columns whose text is [json.dumps] of a value hold that value.
    - Time is a logical clock in the state; [datetime.now()] and SQL's
      [CURRENT_TIMESTAMP] read it.  ISO-8601 texts of naive datetimes
      compare as the instants do, so timestamps are integers.  Within
      one call the clock stands still: two readings that the code takes
      one after the other, and the time the server stamps on the row,
      are one value here.
    - The tables are schema-less: a row is stored with the columns it is
      given, and the server converts no value on the way in or out.
    - The texts of the messages of the database drivers are abridged.

    The session.  [synchronize_databases] fetches the pending changes
    and replays them in a loop.  As written, the fetch builds each
    record with [SyncStatus(row[5])], and ['pending'] is not the value
    of a member of [SyncStatus]: with a pending change in the table the
    fetch raises and the loop is not reached
    ([synchronize_databases_fetch_raises]).  The loop and the handlers
    are therefore embedded as functions of the list of records
    ([sync_loop], [sync_one]), and the properties of the replay are
    stated on them, for every list.  [synchronize_from] is the session
    with the fetch as a parameter; [synchronize_databases] is its
    instance with [_get_pending_sync_records].

    Runs.  The monitor thread and the thread a health check starts call
    into the same manager.  A run ([run]) is a sequence of whole calls,
    with time passing and the data changing between them; calls do not
    interleave below that.

    The environment.  What the server and the file system answer is an
    argument of the function that asks: whether a test connection
    succeeds, what the server does with a request for a connection,
    whether the SQLite file opens. *)

From Stdlib Require Import ZArith List String Ascii Bool Lia Permutation Sorted.
From stdpp Require Import gmap strings list fin_maps pretty.

Local Open Scope Z_scope.
Local Open Scope string_scope.

(** ** MD5 (RFC 1321), as [hashlib.md5(...).hexdigest()] computes it *)

Module MD5.

Definition mask32 (x : Z) : Z := Z.land x 0xffffffff.

Definition add32 (x y : Z) : Z := mask32 (x + y).

Definition not32 (x : Z) : Z := Z.lxor x 0xffffffff.

Definition rotl32 (x : Z) (c : Z) : Z :=
  mask32 (Z.lor (Z.shiftl x c) (Z.shiftr x (32 - c))).

Definition K : list Z :=
  [ 0xd76aa478; 0xe8c7b756; 0x242070db; 0xc1bdceee; 0xf57c0faf; 0x4787c62a;
    0xa8304613; 0xfd469501; 0x698098d8; 0x8b44f7af; 0xffff5bb1; 0x895cd7be;
    0x6b901122; 0xfd987193; 0xa679438e; 0x49b40821; 0xf61e2562; 0xc040b340;
    0x265e5a51; 0xe9b6c7aa; 0xd62f105d; 0x02441453; 0xd8a1e681; 0xe7d3fbc8;
    0x21e1cde6; 0xc33707d6; 0xf4d50d87; 0x455a14ed; 0xa9e3e905; 0xfcefa3f8;
    0x676f02d9; 0x8d2a4c8a; 0xfffa3942; 0x8771f681; 0x6d9d6122; 0xfde5380c;
    0xa4beea44; 0x4bdecfa9; 0xf6bb4b60; 0xbebfbc70; 0x289b7ec6; 0xeaa127fa;
    0xd4ef3085; 0x04881d05; 0xd9d4d039; 0xe6db99e5; 0x1fa27cf8; 0xc4ac5665;
    0xf4292244; 0x432aff97; 0xab9423a7; 0xfc93a039; 0x655b59c3; 0x8f0ccc92;
    0xffeff47d; 0x85845dd1; 0x6fa87e4f; 0xfe2ce6e0; 0xa3014314; 0x4e0811a1;
    0xf7537e82; 0xbd3af235; 0x2ad7d2bb; 0xeb86d391 ].

Definition shifts : list Z :=
  [ 7; 12; 17; 22; 7; 12; 17; 22; 7; 12; 17; 22; 7; 12; 17; 22;
    5; 9; 14; 20; 5; 9; 14; 20; 5; 9; 14; 20; 5; 9; 14; 20;
    4; 11; 16; 23; 4; 11; 16; 23; 4; 11; 16; 23; 4; 11; 16; 23;
    6; 10; 15; 21; 6; 10; 15; 21; 6; 10; 15; 21; 6; 10; 15; 21 ].

(** The padded message: one [0x80], zeros up to 56 modulo 64, and the
    length in bits as a 64-bit little-endian integer. *)
Definition le_bytes (n : nat) (x : Z) : list Z :=
  map (fun i => Z.land (Z.shiftr x (8 * Z.of_nat i)) 0xff) (seq 0 n).

Definition pad (msg : list Z) : list Z :=
  let len := Z.of_nat (length msg) in
  let zeros := Z.to_nat ((55 - len) mod 64) in
  msg ++ 0x80 :: repeat 0 zeros ++ le_bytes 8 (Z.land (8 * len) 0xffffffffffffffff).

Fixpoint word_le (bs : list Z) : Z :=
  match bs with
  | [] => 0
  | b :: rest => Z.lor b (Z.shiftl (word_le rest) 8)
  end.

(** The sixteen little-endian words of the block that starts at byte
    [64 * k]. *)
Definition block_words (bytes : list Z) (k : nat) : list Z :=
  map (fun j => word_le (firstn 4 (skipn (64 * k + 4 * j) bytes))) (seq 0 16).

Definition round_fg (i : nat) (B C D : Z) : Z * nat :=
  if (i <? 16)%nat then
    (Z.lor (Z.land B C) (Z.land (not32 B) D), i)
  else if (i <? 32)%nat then
    (Z.lor (Z.land D B) (Z.land (not32 D) C), ((5 * i + 1) mod 16)%nat)
  else if (i <? 48)%nat then
    (Z.lxor (Z.lxor B C) D, ((3 * i + 5) mod 16)%nat)
  else
    (Z.lxor C (Z.lor B (not32 D)), ((7 * i) mod 16)%nat).

Definition step (M : list Z) (st : Z * Z * Z * Z) (i : nat) : Z * Z * Z * Z :=
  let '(A, B, C, D) := st in
  let '(F, g) := round_fg i B C D in
  let F' := add32 (add32 (add32 F A) (nth i K 0)) (nth g M 0) in
  (D, add32 B (rotl32 F' (nth i shifts 0)), B, C).

Definition compress (h : Z * Z * Z * Z) (M : list Z) : Z * Z * Z * Z :=
  let '(a0, b0, c0, d0) := h in
  let '(A, B, C, D) := fold_left (step M) (seq 0 64) h in
  (add32 a0 A, add32 b0 B, add32 c0 C, add32 d0 D).

Definition init : Z * Z * Z * Z :=
  (0x67452301, 0xefcdab89, 0x98badcfe, 0x10325476).

Definition digest (msg : list Z) : list Z :=
  let bytes := pad msg in
  let nblocks := Nat.div (length bytes) 64 in
  let '(a, b, c, d) :=
    fold_left (fun h k => compress h (block_words bytes k)) (seq 0 nblocks) init in
  le_bytes 4 a ++ le_bytes 4 b ++ le_bytes 4 c ++ le_bytes 4 d.

Definition hex_digit (n : Z) : ascii :=
  nth (Z.to_nat n)
      (list_ascii_of_string "0123456789abcdef") "0"%char.

Fixpoint hex_of_bytes (bs : list Z) : string :=
  match bs with
  | [] => ""
  | b :: rest =>
      String (hex_digit (Z.shiftr b 4))
        (String (hex_digit (Z.land b 0xf)) (hex_of_bytes rest))
  end.

Definition bytes_of_string (s : string) : list Z :=
  map (fun c => Z.of_N (N_of_ascii c)) (list_ascii_of_string s).

Definition hexdigest (s : string) : string :=
  hex_of_bytes (digest (bytes_of_string s)).

End MD5.

(** ** Rows and [json.dumps] *)

(** The scalars a row holds. *)
Inductive value : Type :=
| VNone
| VBool (b : bool)
| VInt (z : Z)
| VStr (s : string).

#[global] Instance value_eq_dec : EqDecision value.
Proof. solve_decision. Defined.

(** A [dict] with string keys.  Two dicts are equal when they map the
    same keys to the same values, whatever the order of insertion. *)
Abbreviation Row := (gmap string value).

Module Json.

Definition dquote : string := String (ascii_of_nat 34) "".

Definition hex4 (n : Z) : string :=
  String (MD5.hex_digit (Z.land (Z.shiftr n 12) 0xf))
    (String (MD5.hex_digit (Z.land (Z.shiftr n 8) 0xf))
       (String (MD5.hex_digit (Z.land (Z.shiftr n 4) 0xf))
          (String (MD5.hex_digit (Z.land n 0xf)) ""))).

(** One character under [ensure_ascii=True]: the short escapes, then
    a [u]-escape of four hexadecimal digits for everything outside
    [' '..'~']. *)
Definition escape_char (c : ascii) : string :=
  let n := Z.of_N (N_of_ascii c) in
  if Z.eqb n 34 then "\" ++ dquote else
  if Z.eqb n 92 then "\\" else
  if Z.eqb n 10 then "\n" else
  if Z.eqb n 13 then "\r" else
  if Z.eqb n 9 then "\t" else
  if Z.eqb n 8 then "\b" else
  if Z.eqb n 12 then "\f" else
  if Z.ltb n 32 || Z.ltb 126 n then "\u" ++ hex4 n
  else String c "".

Fixpoint escape (s : string) : string :=
  match s with
  | EmptyString => ""
  | String c rest => escape_char c ++ escape rest
  end.

Definition quote (s : string) : string := dquote ++ escape s ++ dquote.

Definition dumps_value (v : value) : string :=
  match v with
  | VNone => "null"
  | VBool true => "true"
  | VBool false => "false"
  | VInt z => pretty z
  | VStr s => quote s
  end.

Definition dumps_item (kv : string * value) : string :=
  quote (fst kv) ++ ": " ++ dumps_value (snd kv).

Fixpoint join (sep : string) (l : list string) : string :=
  match l with
  | [] => ""
  | [x] => x
  | x :: rest => x ++ sep ++ join sep rest
  end.

(** [sorted(d.items())]: keys are distinct, so the order is the order
    of the keys by code point. *)
Fixpoint insert_item (kv : string * value) (l : list (string * value))
  : list (string * value) :=
  match l with
  | [] => [kv]
  | kv' :: rest =>
      if String.leb (fst kv) (fst kv') then kv :: l
      else kv' :: insert_item kv rest
  end.

Definition sort_items (d : Row) : list (string * value) :=
  fold_right insert_item [] (map_to_list d).

(** [json.dumps(data, sort_keys=True)] for a dict or [None]. *)
Definition dumps (data : option Row) : string :=
  match data with
  | None => "null"
  | Some d => "{" ++ join ", " (map dumps_item (sort_items d)) ++ "}"
  end.

End Json.

(** ** The enumerations and data classes of the synchronisation code *)

Inductive SyncStatus : Type := IDLE | SYNCING | CONFLICT | ERROR | COMPLETED.

#[global] Instance SyncStatus_eq_dec : EqDecision SyncStatus.
Proof. solve_decision. Defined.

Definition SyncStatus_value (s : SyncStatus) : string :=
  match s with
  | IDLE => "idle"
  | SYNCING => "syncing"
  | CONFLICT => "conflict"
  | ERROR => "error"
  | COMPLETED => "completed"
  end.

(** [SyncStatus(text)]: the member with that value; [None] stands for the
    [ValueError] the enumeration raises on any other text. *)
Definition SyncStatus_of_value (v : string) : option SyncStatus :=
  List.find (fun s => String.eqb (SyncStatus_value s) v)
            [IDLE; SYNCING; CONFLICT; ERROR; COMPLETED].

Inductive ConflictResolution : Type :=
  MYSQL_WINS | SQLITE_WINS | MANUAL | LATEST_TIMESTAMP.

#[global] Instance ConflictResolution_eq_dec : EqDecision ConflictResolution.
Proof. solve_decision. Defined.

Definition ConflictResolution_value (r : ConflictResolution) : string :=
  match r with
  | MYSQL_WINS => "mysql_wins"
  | SQLITE_WINS => "sqlite_wins"
  | MANUAL => "manual"
  | LATEST_TIMESTAMP => "latest_timestamp"
  end.

Module SyncRecord.
Record t : Type := mk {
  table_name : string;
  record_id : Z;
  operation : string;
  timestamp : Z;
  data_hash : string;
  sync_status : SyncStatus;
  conflict_data : option Row
}.
End SyncRecord.

Module ConflictRecord.
Record t : Type := mk {
  table_name : string;
  record_id : Z;
  sqlite_data : option Row;
  mysql_data : option Row;
  sqlite_timestamp : Z;
  mysql_timestamp : Z;
  resolution_strategy : ConflictResolution;
  resolved : bool
}.
End ConflictRecord.

(** ** The three bookkeeping tables of the SQLite file *)

Module SyncTracking.
Record row : Type := mk {
  sync_id : Z;
  table_name : string;
  record_id : Z;
  operation : string;
  timestamp : Z;
  data_hash : string;
  sync_status : string;
  conflict_data : option Row;
  created_at : Z;
  synced_at : option Z
}.
End SyncTracking.

Module ConflictRow.
Record row : Type := mk {
  conflict_id : Z;
  table_name : string;
  record_id : Z;
  sqlite_data : option Row;
  mysql_data : option Row;
  sqlite_timestamp : Z;
  mysql_timestamp : Z;
  resolution_strategy : string;
  resolved : Z;
  resolved_at : option Z;
  created_at : Z
}.
End ConflictRow.

Module SyncLog.
Record row : Type := mk {
  log_id : Z;
  sync_session_id : Z;
  message : string;
  level : string;
  timestamp : Z
}.
End SyncLog.

(** ** The state the synchronisation manager works on *)

Record State : Type := mkState {
  (** the data tables of the SQLite file and of the MySQL server *)
  sqlite : gmap string (list Row);
  mysql : gmap string (list Row);
  (** [MYSQL_AVAILABLE]: the connector module could be imported *)
  MYSQL_AVAILABLE : bool;
  (** whether [mysql.connector.connect] succeeds *)
  mysql_up : bool;
  tbl_SyncTracking : list SyncTracking.row;
  tbl_ConflictResolution : list ConflictRow.row;
  tbl_SyncLog : list SyncLog.row;
  (** [self.sync_status] and [self.conflicts] *)
  sync_status : SyncStatus;
  conflicts : list ConflictRecord.t;
  clock : Z
}.

Definition set_mysql (db : gmap string (list Row)) (st : State) : State :=
  mkState (sqlite st) db (MYSQL_AVAILABLE st) (mysql_up st) (tbl_SyncTracking st)
          (tbl_ConflictResolution st) (tbl_SyncLog st) (sync_status st)
          (conflicts st) (clock st).

Definition set_SyncTracking (rows : list SyncTracking.row) (st : State) : State :=
  mkState (sqlite st) (mysql st) (MYSQL_AVAILABLE st) (mysql_up st) rows
          (tbl_ConflictResolution st) (tbl_SyncLog st) (sync_status st)
          (conflicts st) (clock st).

Definition set_ConflictResolution (rows : list ConflictRow.row) (st : State) : State :=
  mkState (sqlite st) (mysql st) (MYSQL_AVAILABLE st) (mysql_up st) (tbl_SyncTracking st)
          rows (tbl_SyncLog st) (sync_status st) (conflicts st) (clock st).

Definition set_SyncLog (rows : list SyncLog.row) (st : State) : State :=
  mkState (sqlite st) (mysql st) (MYSQL_AVAILABLE st) (mysql_up st) (tbl_SyncTracking st)
          (tbl_ConflictResolution st) rows (sync_status st) (conflicts st) (clock st).

Definition set_sync_status (s : SyncStatus) (st : State) : State :=
  mkState (sqlite st) (mysql st) (MYSQL_AVAILABLE st) (mysql_up st) (tbl_SyncTracking st)
          (tbl_ConflictResolution st) (tbl_SyncLog st) s (conflicts st) (clock st).

Definition set_conflicts (cs : list ConflictRecord.t) (st : State) : State :=
  mkState (sqlite st) (mysql st) (MYSQL_AVAILABLE st) (mysql_up st) (tbl_SyncTracking st)
          (tbl_ConflictResolution st) (tbl_SyncLog st) (sync_status st) cs (clock st).

(** Time passing between two calls. *)
Definition advance (d : Z) (st : State) : State :=
  mkState (sqlite st) (mysql st) (MYSQL_AVAILABLE st) (mysql_up st) (tbl_SyncTracking st)
          (tbl_ConflictResolution st) (tbl_SyncLog st) (sync_status st)
          (conflicts st) (clock st + d).

(** ** Exceptions, and computations that may raise *)

Inductive exn : Type :=
| ValueError (msg : string)
| AttributeError (msg : string)
| DatabaseError (msg : string).

Definition exn_str (e : exn) : string :=
  match e with
  | ValueError m | AttributeError m | DatabaseError m => m
  end.

(** A method body: it ends with a value or with an exception, and the
    writes it made before raising stay. *)
Definition M (A : Type) : Type := State -> (exn + A) * State.

Definition ret {A} (a : A) : M A := fun st => (inr a, st).

Definition raise {A} (e : exn) : M A := fun st => (inl e, st).

Definition bind {A B} (m : M A) (k : A -> M B) : M B :=
  fun st =>
    match m st with
    | (inl e, st') => (inl e, st')
    | (inr a, st') => k a st'
    end.

Definition try_except {A} (body : M A) (handler : exn -> M A) : M A :=
  fun st =>
    match body st with
    | (inl e, st') => handler e st'
    | (inr a, st') => (inr a, st')
    end.

Definition modify (f : State -> State) : M unit := fun st => (inr tt, f st).

Definition gets {A} (f : State -> A) : M A := fun st => (inr (f st), st).

Declare Scope sync_scope.
Delimit Scope sync_scope with sync.
Notation "x <- m ;; k" := (bind m (fun x => k))
  (at level 100, m at next level, right associativity) : sync_scope.
Notation "m ;; k" := (bind m (fun _ => k))
  (at level 100, right associativity) : sync_scope.
Local Open Scope sync_scope.

(** ** Statements on the data tables *)

Inductive Conn : Type := sqlite_conn | mysql_conn.

Definition db_of (conn : Conn) (st : State) : gmap string (list Row) :=
  match conn with
  | sqlite_conn => sqlite st
  | mysql_conn => mysql st
  end.

Definition _get_primary_key_column (table_name : string) : string :=
  if String.eqb table_name "Members" then "member_id"
  else if String.eqb table_name "Contributions" then "contribution_id"
  else if String.eqb table_name "Loans" then "loan_id"
  else if String.eqb table_name "Repayments" then "repayment_id"
  else if String.eqb table_name "Users" then "username"
  else if String.eqb table_name "Settings" then "setting_name"
  else "id".

(** The [WHERE pk_column = record_id] of the three statements. *)
Definition pk_matches (table_name : string) (record_id : Z) (r : Row) : bool :=
  bool_decide (r !! _get_primary_key_column table_name = Some (VInt record_id)).

Definition no_such_table (table_name : string) : exn :=
  DatabaseError ("no such table: " ++ table_name).

(** [SELECT * FROM table WHERE pk = record_id], [fetchone()], and the
    row as a dict, or [None]. *)
Definition _get_record_data (conn : Conn) (table_name : string) (record_id : Z)
  : M (option Row) :=
  fun st =>
    match db_of conn st !! table_name with
    | None => (inl (no_such_table table_name), st)
    | Some rows => (inr (List.find (pk_matches table_name record_id) rows), st)
    end.

Definition NoneType_has_no_keys : exn :=
  AttributeError "'NoneType' object has no attribute 'keys'".

(** Whether the table holds a row with the key of [data]. *)
Definition duplicate_key (table_name : string) (data : Row) (rows : list Row) : bool :=
  match data !! _get_primary_key_column table_name with
  | Some VNone | None => false
  | Some v =>
      existsb (fun r => bool_decide (r !! _get_primary_key_column table_name = Some v)) rows
  end.

(** [INSERT INTO table (columns) VALUES (values)]; a row is stored with
    the columns it was given. *)
Definition _insert_record_to_mysql (table_name : string) (data : option Row) : M unit :=
  fun st =>
    match data with
    | None => (inl NoneType_has_no_keys, st)
    | Some d =>
        match mysql st !! table_name with
        | None => (inl (no_such_table table_name), st)
        | Some rows =>
            if duplicate_key table_name d rows
            then (inl (DatabaseError ("Duplicate entry for key 'PRIMARY' in " ++ table_name)), st)
            else (inr tt, set_mysql (<[table_name := app rows [d]]> (mysql st)) st)
        end
    end.

(** The [SET] list: every column of [data] but the key. *)
Definition set_clause (table_name : string) (data : Row) : Row :=
  delete (_get_primary_key_column table_name) data.

(** A row after [SET]: the listed columns take the new values. *)
Definition apply_set (sets : Row) (r : Row) : Row := sets ∪ r.

(** [UPDATE table SET col = value, ... WHERE pk = record_id]; an empty
    [SET] list is a syntax error. *)
Definition _update_record_in_mysql (table_name : string) (record_id : Z)
    (data : option Row) : M unit :=
  fun st =>
    match data with
    | None => (inl NoneType_has_no_keys, st)
    | Some d =>
        if bool_decide (set_clause table_name d = ∅)
        then (inl (DatabaseError "You have an error in your SQL syntax"), st)
        else
          match mysql st !! table_name with
          | None => (inl (no_such_table table_name), st)
          | Some rows =>
              let rows' :=
                map (fun r => if pk_matches table_name record_id r
                              then apply_set (set_clause table_name d) r else r) rows in
              (inr tt, set_mysql (<[table_name := rows']> (mysql st)) st)
          end
    end.

(** [DELETE FROM table WHERE pk = record_id]. *)
Definition _delete_record_from_mysql (table_name : string) (record_id : Z) : M unit :=
  fun st =>
    match mysql st !! table_name with
    | None => (inl (no_such_table table_name), st)
    | Some rows =>
        let rows' := List.filter (fun r => negb (pk_matches table_name record_id r)) rows in
        (inr tt, set_mysql (<[table_name := rows']> (mysql st)) st)
    end.

(** ** Hashing, logging and the bookkeeping statements *)

Definition _calculate_data_hash (data : option Row) : string :=
  MD5.hexdigest (Json.dumps data).

(** The value an [AUTOINCREMENT] key takes; rows are never deleted. *)
Definition next_id (ids : list Z) : Z := 1 + fold_right Z.max 0 ids.

Definition _log_sync_message (session_id : Z) (message : string) (level : string)
  : M unit :=
  modify (fun st =>
    let rows := tbl_SyncLog st in
    set_SyncLog
      (app rows [SyncLog.mk (next_id (map SyncLog.log_id rows)) session_id message level
                           (clock st)]) st).

Definition _store_conflict_record (conflict : ConflictRecord.t) : M unit :=
  modify (fun st =>
    let rows := tbl_ConflictResolution st in
    set_ConflictResolution
      (app rows [ConflictRow.mk
                  (next_id (map ConflictRow.conflict_id rows))
                  (ConflictRecord.table_name conflict)
                  (ConflictRecord.record_id conflict)
                  (ConflictRecord.sqlite_data conflict)
                  (ConflictRecord.mysql_data conflict)
                  (ConflictRecord.sqlite_timestamp conflict)
                  (ConflictRecord.mysql_timestamp conflict)
                  (ConflictResolution_value (ConflictRecord.resolution_strategy conflict))
                  0 None (clock st)]) st).

Definition _create_conflict_record (table_name : string) (record_id : Z)
    (sqlite_data mysql_data : option Row) : M ConflictRecord.t :=
  now1 <- gets clock ;;
  now2 <- gets clock ;;
  let conflict :=
    ConflictRecord.mk table_name record_id sqlite_data mysql_data now1 now2 MANUAL false in
  _store_conflict_record conflict ;;
  ret conflict.

Definition same_change (table_name : string) (record_id : Z) (operation : string)
    (row : SyncTracking.row) : bool :=
  String.eqb (SyncTracking.table_name row) table_name
  && Z.eqb (SyncTracking.record_id row) record_id
  && String.eqb (SyncTracking.operation row) operation.

Definition mark_synced (now : Z) (row : SyncTracking.row) : SyncTracking.row :=
  SyncTracking.mk (SyncTracking.sync_id row) (SyncTracking.table_name row)
    (SyncTracking.record_id row) (SyncTracking.operation row)
    (SyncTracking.timestamp row) (SyncTracking.data_hash row)
    "synced" (SyncTracking.conflict_data row) (SyncTracking.created_at row) (Some now).

(** [UPDATE SyncTracking SET sync_status = 'synced', synced_at = ...
    WHERE table_name = ? AND record_id = ? AND operation = ?]. *)
Definition _mark_record_synced (table_name : string) (record_id : Z) (operation : string)
  : M unit :=
  modify (fun st =>
    set_SyncTracking
      (map (fun row => if same_change table_name record_id operation row
                       then mark_synced (clock st) row else row)
           (tbl_SyncTracking st)) st).

Definition sync_tables : list string :=
  ["Members"; "Contributions"; "Loans"; "Repayments"; "Users"; "Settings"].

Definition track_record_change (table_name : string) (record_id : Z) (operation : string)
    (data : option Row) : M unit :=
  if negb (bool_decide (table_name ∈ sync_tables)) then ret tt
  else
    let data_hash := _calculate_data_hash data in
    modify (fun st =>
      let rows := tbl_SyncTracking st in
      set_SyncTracking
        (app rows [SyncTracking.mk (next_id (map SyncTracking.sync_id rows))
                    table_name record_id operation (clock st) data_hash
                    "pending" None (clock st) None]) st).

(** [UPDATE ConflictResolution SET resolved = 1, resolved_at = ...,
    resolution_strategy = ? WHERE conflict_id = ?]; the result is
    [cursor.rowcount > 0]. *)
Definition resolve_row (now : Z) (resolution : ConflictResolution) (row : ConflictRow.row)
  : ConflictRow.row :=
  ConflictRow.mk (ConflictRow.conflict_id row) (ConflictRow.table_name row)
    (ConflictRow.record_id row) (ConflictRow.sqlite_data row) (ConflictRow.mysql_data row)
    (ConflictRow.sqlite_timestamp row) (ConflictRow.mysql_timestamp row)
    (ConflictResolution_value resolution) 1 (Some now) (ConflictRow.created_at row).

Definition resolve_conflict (conflict_id : Z) (resolution : ConflictResolution) : M bool :=
  fun st =>
    let hit := fun row => Z.eqb (ConflictRow.conflict_id row) conflict_id in
    let rows := tbl_ConflictResolution st in
    let rows' := map (fun row => if hit row then resolve_row (clock st) resolution row
                                 else row) rows in
    (inr (Nat.ltb 0 (length (List.filter hit rows))), set_ConflictResolution rows' st).

(** ** Replaying one tracked change *)

Definition change_label (record : SyncRecord.t) : string :=
  SyncRecord.table_name record ++ ":" ++ pretty (SyncRecord.record_id record).

Definition _handle_insert_sync (record : SyncRecord.t)
    (sqlite_data mysql_data : option Row) (session_id : Z)
  : M (option ConflictRecord.t) :=
  match mysql_data with
  | None =>
      _insert_record_to_mysql (SyncRecord.table_name record) sqlite_data ;;
      _log_sync_message session_id
        ("Inserted " ++ change_label record ++ " to MySQL") "INFO" ;;
      ret None
  | Some _ =>
      c <- _create_conflict_record (SyncRecord.table_name record)
             (SyncRecord.record_id record) sqlite_data mysql_data ;;
      ret (Some c)
  end.

Definition _handle_update_sync (record : SyncRecord.t)
    (sqlite_data mysql_data : option Row) (session_id : Z)
  : M (option ConflictRecord.t) :=
  match mysql_data with
  | None =>
      _insert_record_to_mysql (SyncRecord.table_name record) sqlite_data ;;
      _log_sync_message session_id
        ("Inserted " ++ change_label record ++ " to MySQL (was update)") "INFO" ;;
      ret None
  | Some _ =>
      let mysql_hash := _calculate_data_hash mysql_data in
      if negb (String.eqb mysql_hash (SyncRecord.data_hash record)) then
        c <- _create_conflict_record (SyncRecord.table_name record)
               (SyncRecord.record_id record) sqlite_data mysql_data ;;
        ret (Some c)
      else
        _update_record_in_mysql (SyncRecord.table_name record)
          (SyncRecord.record_id record) sqlite_data ;;
        _log_sync_message session_id
          ("Updated " ++ change_label record ++ " in MySQL") "INFO" ;;
        ret None
  end.

Definition _handle_delete_sync (record : SyncRecord.t) (mysql_data : option Row)
    (session_id : Z) : M (option ConflictRecord.t) :=
  match mysql_data with
  | Some _ =>
      _delete_record_from_mysql (SyncRecord.table_name record)
        (SyncRecord.record_id record) ;;
      _log_sync_message session_id
        ("Deleted " ++ change_label record ++ " from MySQL") "INFO" ;;
      ret None
  | None =>
      _log_sync_message session_id
        ("Record " ++ change_label record ++ " already deleted from MySQL") "INFO" ;;
      ret None
  end.

(** The handler of [_sync_record] only reports and raises again. *)
Definition _sync_record (record : SyncRecord.t) (session_id : Z)
  : M (option ConflictRecord.t) :=
  sqlite_data <- _get_record_data sqlite_conn (SyncRecord.table_name record)
                   (SyncRecord.record_id record) ;;
  mysql_data <- _get_record_data mysql_conn (SyncRecord.table_name record)
                  (SyncRecord.record_id record) ;;
  if String.eqb (SyncRecord.operation record) "INSERT" then
    _handle_insert_sync record sqlite_data mysql_data session_id
  else if String.eqb (SyncRecord.operation record) "UPDATE" then
    _handle_update_sync record sqlite_data mysql_data session_id
  else if String.eqb (SyncRecord.operation record) "DELETE" then
    _handle_delete_sync record mysql_data session_id
  else ret None.

(** ** The pending changes *)

Definition is_pending (row : SyncTracking.row) : bool :=
  String.eqb (SyncTracking.sync_status row) "pending".

(** What [SELECT ... WHERE sync_status = 'pending' ORDER BY timestamp ASC]
    may answer: the pending rows, ascending by timestamp.  The statement
    names no second key, and SQLite leaves the order of rows with equal
    keys undefined. *)
Definition pending_answer (rows answer : list SyncTracking.row) : Prop :=
  Permutation answer (List.filter is_pending rows)
  /\ Sorted (fun a b => (SyncTracking.timestamp a <= SyncTracking.timestamp b)%Z) answer.

(** One answer: the rows in scan order, sorted by a stable insertion. *)
Fixpoint insert_by_timestamp (row : SyncTracking.row) (l : list SyncTracking.row)
  : list SyncTracking.row :=
  match l with
  | [] => [row]
  | x :: rest =>
      if Z.leb (SyncTracking.timestamp row) (SyncTracking.timestamp x) then row :: l
      else x :: insert_by_timestamp row rest
  end.

Definition pending_scan (rows : list SyncTracking.row) : list SyncTracking.row :=
  fold_right insert_by_timestamp [] (List.filter is_pending rows).

(** The [SyncRecord(...)] built from one fetched row.  Its arguments are
    evaluated in order, and [SyncStatus(row[5])] raises on a text that is
    not the value of a member. *)
Definition SyncRecord_of_row (row : SyncTracking.row) : exn + SyncRecord.t :=
  match SyncStatus_of_value (SyncTracking.sync_status row) with
  | None =>
      inl (ValueError ("'" ++ SyncTracking.sync_status row ++ "' is not a valid SyncStatus"))
  | Some status =>
      inr (SyncRecord.mk (SyncTracking.table_name row) (SyncTracking.record_id row)
             (SyncTracking.operation row) (SyncTracking.timestamp row)
             (SyncTracking.data_hash row) status (SyncTracking.conflict_data row))
  end.

Fixpoint records_of_rows (rows : list SyncTracking.row) : exn + list SyncRecord.t :=
  match rows with
  | [] => inr []
  | row :: rest =>
      match SyncRecord_of_row row with
      | inl e => inl e
      | inr r =>
          match records_of_rows rest with
          | inl e => inl e
          | inr rs => inr (r :: rs)
          end
      end
  end.

Definition _get_pending_sync_records : M (list SyncRecord.t) :=
  fun st => (records_of_rows (pending_scan (tbl_SyncTracking st)), st).

(** The record that carries the fields of a fetched row.  No member of
    [SyncStatus] has the value of a pending row, so the member is given;
    the loop never reads it. *)
Definition as_record (status : SyncStatus) (row : SyncTracking.row) : SyncRecord.t :=
  SyncRecord.mk (SyncTracking.table_name row) (SyncTracking.record_id row)
    (SyncTracking.operation row) (SyncTracking.timestamp row)
    (SyncTracking.data_hash row) status (SyncTracking.conflict_data row).

(** ** The session *)

(** One turn of the [for record in pending_records] loop, on the
    counters [(conflicts_found, records_synced)]. *)
Definition sync_one (session_id : Z) (record : SyncRecord.t) (counters : nat * nat)
  : M (nat * nat) :=
  try_except
    (conflict <- _sync_record record session_id ;;
     match conflict with
     | Some c =>
         modify (fun st => set_conflicts (app (conflicts st) [c]) st) ;;
         ret (S (fst counters), snd counters)
     | None =>
         _mark_record_synced (SyncRecord.table_name record)
           (SyncRecord.record_id record) (SyncRecord.operation record) ;;
         ret (fst counters, S (snd counters))
     end)
    (fun e =>
       _log_sync_message session_id
         ("Failed to sync " ++ change_label record ++ ": " ++ exn_str e) "ERROR" ;;
       ret counters).

Fixpoint sync_loop (session_id : Z) (pending_records : list SyncRecord.t)
    (counters : nat * nat) : M (nat * nat) :=
  match pending_records with
  | [] => ret counters
  | record :: rest =>
      counters' <- sync_one session_id record counters ;;
      sync_loop session_id rest counters'
  end.

Definition mysql_connect : M unit :=
  fun st =>
    if mysql_up st then (inr tt, st)
    else (inl (DatabaseError "Can't connect to MySQL server"), st).

(** [synchronize_databases] from the two connections on: the loop over
    the list that was fetched, the status and the summary line. *)
Definition sync_pending_records (session_id : Z) (pending_records : list SyncRecord.t)
  : M bool :=
  mysql_connect ;;
  counters <- sync_loop session_id pending_records (0%nat, 0%nat) ;;
  let conflicts_found := fst counters in
  let records_synced := snd counters in
  (if Nat.ltb 0 conflicts_found then
     modify (set_sync_status CONFLICT) ;;
     _log_sync_message session_id
       ("Sync completed with " ++ pretty conflicts_found ++ " conflicts, "
          ++ pretty records_synced ++ " records synced") "WARNING"
   else
     modify (set_sync_status COMPLETED) ;;
     _log_sync_message session_id
       ("Sync completed successfully, " ++ pretty records_synced ++ " records synced")
       "INFO") ;;
  ret (Nat.eqb conflicts_found 0).

Definition synchronize_databases : M bool :=
  fun st =>
    if bool_decide (sync_status st = SYNCING) then (inr false, st)
    else if negb (MYSQL_AVAILABLE st) then (inr false, st)
    else
      let session_id := clock st in
      (modify (set_sync_status SYNCING) ;;
       try_except
         (_log_sync_message session_id "Starting database synchronization" "INFO" ;;
          pending_records <- _get_pending_sync_records ;;
          match pending_records with
          | [] =>
              _log_sync_message session_id "No pending records to sync" "INFO" ;;
              modify (set_sync_status COMPLETED) ;;
              ret true
          | _ => sync_pending_records session_id pending_records
          end)
         (fun e =>
            _log_sync_message session_id ("Synchronization failed: " ++ exn_str e) "ERROR" ;;
            modify (set_sync_status ERROR) ;;
            ret false)) st.

(** The session for any way of fetching: [synchronize_databases] is the
    instance with [_get_pending_sync_records]. *)
Definition synchronize_from (fetch : M (list SyncRecord.t)) : M bool :=
  fun st =>
    if bool_decide (sync_status st = SYNCING) then (inr false, st)
    else if negb (MYSQL_AVAILABLE st) then (inr false, st)
    else
      let session_id := clock st in
      (modify (set_sync_status SYNCING) ;;
       try_except
         (_log_sync_message session_id "Starting database synchronization" "INFO" ;;
          pending_records <- fetch ;;
          match pending_records with
          | [] =>
              _log_sync_message session_id "No pending records to sync" "INFO" ;;
              modify (set_sync_status COMPLETED) ;;
              ret true
          | _ => sync_pending_records session_id pending_records
          end)
         (fun e =>
            _log_sync_message session_id ("Synchronization failed: " ++ exn_str e) "ERROR" ;;
            modify (set_sync_status ERROR) ;;
            ret false)) st.

(** ** The monitor thread *)

Definition is_mysql_available : M bool :=
  fun st =>
    if negb (MYSQL_AVAILABLE st) then (inr false, st)
    else if mysql_up st then (inr true, st)
    else (inr false, st).

Definition sync_interval : Z := 30.

(** One turn of the [while not self.stop_sync] loop; the sleep is the
    time that passes. *)
Definition _sync_monitor_loop_turn : M unit :=
  try_except
    (available <- is_mysql_available ;;
     status <- gets sync_status ;;
     (if available && bool_decide (status = IDLE)
      then synchronize_databases ;; ret tt
      else ret tt) ;;
     modify (advance sync_interval))
    (fun _ => modify (advance sync_interval)).

(** ** Reading the bookkeeping back *)

(** [ConflictResolution(text)]; [None] stands for the [ValueError]. *)
Definition ConflictResolution_of_value (v : string) : option ConflictResolution :=
  List.find (fun r => String.eqb (ConflictResolution_value r) v)
            [MYSQL_WINS; SQLITE_WINS; MANUAL; LATEST_TIMESTAMP].

Definition is_synced (row : SyncTracking.row) : bool :=
  String.eqb (SyncTracking.sync_status row) "synced".

(** [MAX] of SQL: a [NULL] is skipped, and no value at all gives [NULL]. *)
Definition sql_max (v : option Z) (acc : option Z) : option Z :=
  match v, acc with
  | None, _ => acc
  | Some x, None => Some x
  | Some x, Some y => Some (Z.max x y)
  end.

(** [SELECT MAX(synced_at) FROM SyncTracking WHERE sync_status = 'synced']. *)
Definition _get_last_sync_time : M (option Z) :=
  fun st =>
    (inr (fold_right sql_max None
            (map SyncTracking.synced_at (List.filter is_synced (tbl_SyncTracking st)))),
     st).

Module SyncStatusReport.
Record t : Type := mk {
  status : string;
  mysql_available : bool;
  pending_records : nat;
  conflicts : nat;
  last_sync : option Z
}.
End SyncStatusReport.

(** The entries of the dict are evaluated in the order they are written. *)
Definition get_sync_status : M SyncStatusReport.t :=
  status <- gets (fun st => SyncStatus_value (sync_status st)) ;;
  available <- is_mysql_available ;;
  pending_records <- _get_pending_sync_records ;;
  n_conflicts <- gets (fun st => length (conflicts st)) ;;
  last_sync <- _get_last_sync_time ;;
  ret (SyncStatusReport.mk status available (length pending_records) n_conflicts last_sync).

Definition is_unresolved (row : ConflictRow.row) : bool :=
  Z.eqb (ConflictRow.resolved row) 0.

Fixpoint insert_by_created_at (row : ConflictRow.row) (l : list ConflictRow.row)
  : list ConflictRow.row :=
  match l with
  | [] => [row]
  | x :: rest =>
      if Z.leb (ConflictRow.created_at row) (ConflictRow.created_at x) then row :: l
      else x :: insert_by_created_at row rest
  end.

(** One answer to [SELECT ... WHERE resolved = 0 ORDER BY created_at ASC]:
    the rows in scan order, sorted by a stable insertion. *)
Definition unresolved_scan (rows : list ConflictRow.row) : list ConflictRow.row :=
  fold_right insert_by_created_at [] (List.filter is_unresolved rows).

(** The [ConflictRecord(...)] built from one row; [resolved] takes its
    default. *)
Definition ConflictRecord_of_row (row : ConflictRow.row) : exn + ConflictRecord.t :=
  match ConflictResolution_of_value (ConflictRow.resolution_strategy row) with
  | None =>
      inl (ValueError ("'" ++ ConflictRow.resolution_strategy row
                           ++ "' is not a valid ConflictResolution"))
  | Some strategy =>
      inr (ConflictRecord.mk (ConflictRow.table_name row) (ConflictRow.record_id row)
             (ConflictRow.sqlite_data row) (ConflictRow.mysql_data row)
             (ConflictRow.sqlite_timestamp row) (ConflictRow.mysql_timestamp row)
             strategy false)
  end.

Fixpoint conflicts_of_rows (rows : list ConflictRow.row) : exn + list ConflictRecord.t :=
  match rows with
  | [] => inr []
  | row :: rest =>
      match ConflictRecord_of_row row with
      | inl e => inl e
      | inr c =>
          match conflicts_of_rows rest with
          | inl e => inl e
          | inr cs => inr (c :: cs)
          end
      end
  end.

Definition get_conflicts : M (list ConflictRecord.t) :=
  fun st => (conflicts_of_rows (unresolved_scan (tbl_ConflictResolution st)), st).

Module LogEntry.
Record t : Type := mk {
  session_id : Z;
  message : string;
  level : string;
  timestamp : Z
}.
End LogEntry.

Fixpoint insert_by_timestamp_desc (row : SyncLog.row) (l : list SyncLog.row)
  : list SyncLog.row :=
  match l with
  | [] => [row]
  | x :: rest =>
      if Z.leb (SyncLog.timestamp x) (SyncLog.timestamp row) then row :: l
      else x :: insert_by_timestamp_desc row rest
  end.

(** [LIMIT n] of SQLite: a negative [n] is no limit. *)
Definition sql_limit {A : Type} (limit : Z) (l : list A) : list A :=
  if Z.ltb limit 0 then l else firstn (Z.to_nat limit) l.

Definition log_entry (row : SyncLog.row) : LogEntry.t :=
  LogEntry.mk (SyncLog.sync_session_id row) (SyncLog.message row) (SyncLog.level row)
    (SyncLog.timestamp row).

(** [session_id] is [None] for the default, and for the empty text that
    [if session_id:] treats alike. *)
Definition get_sync_log (session_id : option Z) (limit : Z) : M (list LogEntry.t) :=
  fun st =>
    let rows :=
      match session_id with
      | Some sid => List.filter (fun row => Z.eqb (SyncLog.sync_session_id row) sid)
                      (tbl_SyncLog st)
      | None => tbl_SyncLog st
      end in
    (inr (map log_entry (sql_limit limit (fold_right insert_by_timestamp_desc [] rows))), st).

(** ** The connection arbiter: [DatabaseManager] *)

Module DatabaseManager.

Record t : Type := mk {
  current_db_type : option string;
  mysql_available : bool;
  sqlite_fallback_active : bool;
  (** whether [self.sync_manager] was built *)
  sync_manager : bool;
  connection_retry_count : Z;
  max_retry_attempts : Z;
  mysql_check_interval : Z;
  last_mysql_check : Z
}.

(** The fields as [__init__] sets them, before its first check. *)
Definition fresh (sync_manager_built : bool) : t :=
  mk None false false sync_manager_built 0 3 30 0.

(** What one call of [_check_mysql_availability] did: whether it went
    past the rate limit, what it returned, and whether it started a
    synchronisation. *)
Record outcome : Type := mkOutcome {
  probed : bool;
  returned : bool;
  sync_triggered : bool
}.

(** [connector] is [MYSQL_AVAILABLE], [current_time] what [time.time()]
    gives, [connects] whether the test connection would succeed. *)
Definition _check_mysql_availability (connector : bool) (current_time : Z)
    (connects : bool) (self : t) : outcome * t :=
  if Z.ltb (current_time - last_mysql_check self) (mysql_check_interval self) then
    (mkOutcome false (mysql_available self) false, self)
  else
    let self1 :=
      mk (current_db_type self) (mysql_available self) (sqlite_fallback_active self)
         (sync_manager self) (connection_retry_count self) (max_retry_attempts self)
         (mysql_check_interval self) current_time in
    if negb connector then
      (mkOutcome true false false,
       mk (current_db_type self1) false (sqlite_fallback_active self1)
          (sync_manager self1) (connection_retry_count self1) (max_retry_attempts self1)
          (mysql_check_interval self1) (last_mysql_check self1))
    else if connects then
      (mkOutcome true true
         (sqlite_fallback_active self1 && negb (mysql_available self1)
            && sync_manager self1),
       mk (current_db_type self1) true false
          (sync_manager self1) 0 (max_retry_attempts self1)
          (mysql_check_interval self1) (last_mysql_check self1))
    else
      (mkOutcome true false false,
       mk (current_db_type self1) false
          (if mysql_available self1 then true else sqlite_fallback_active self1)
          (sync_manager self1) (connection_retry_count self1) (max_retry_attempts self1)
          (mysql_check_interval self1) (last_mysql_check self1)).

(** [__init__]: the fields, then the first check. *)
Definition init (sync_manager_built connector : bool) (current_time : Z)
    (connects : bool) : t :=
  snd (_check_mysql_availability connector current_time connects
         (fresh sync_manager_built)).

(** A run of checks, each with its time and with what the test
    connection would do. *)
Definition checks (connector : bool) (calls : list (Z * bool)) (self : t) : t :=
  fold_left (fun s c => snd (_check_mysql_availability connector (fst c) (snd c) s))
            calls self.

(** The results of the probes of a run, oldest first: [true] for a
    test connection that succeeded.  A call inside the rate limit
    probes nothing. *)
Fixpoint probes (connector : bool) (calls : list (Z * bool)) (self : t) : list bool :=
  match calls with
  | [] => []
  | c :: rest =>
      let r := _check_mysql_availability connector (fst c) (snd c) self in
      let tail := probes connector rest (snd r) in
      if probed (fst r) then (connector && snd c) :: tail else tail
  end.

(** [track_change]: only on the fallback store, and whatever the
    tracking raises is reported and dropped. *)
Definition track_change (self : t) (table_name : string) (record_id : Z)
    (operation : string) (data : option Row) (st : State) : State :=
  if sync_manager self && bool_decide (current_db_type self = Some "sqlite") then
    snd (try_except (track_record_change table_name record_id operation data)
                    (fun _ => ret tt) st)
  else st.

End DatabaseManager.

(** ** Handing out connections *)

Module Connection.

Import DatabaseManager.

Inductive connection : Type := MySQLConnection | SQLiteConnection.

Inductive error : Type := NameError | MySQLError | SQLiteError.

(** What the server does when [_get_mysql_connection] asks for a
    connection: it accepts, it does not know the database (and then
    creating it, and connecting again, succeed or not), or it refuses. *)
Inductive mysql_server : Type :=
| Accepts
| UnknownDatabase (creates reconnects : bool)
| Refuses.

Definition set_current_db_type (v : string) (self : t) : t :=
  mk (Some v) (mysql_available self) (sqlite_fallback_active self) (sync_manager self)
     (connection_retry_count self) (max_retry_attempts self) (mysql_check_interval self)
     (last_mysql_check self).

Definition set_sqlite_fallback_active (b : bool) (self : t) : t :=
  mk (current_db_type self) (mysql_available self) b (sync_manager self)
     (connection_retry_count self) (max_retry_attempts self) (mysql_check_interval self)
     (last_mysql_check self).

Definition set_last_mysql_check (v : Z) (self : t) : t :=
  mk (current_db_type self) (mysql_available self) (sqlite_fallback_active self)
     (sync_manager self) (connection_retry_count self) (max_retry_attempts self)
     (mysql_check_interval self) v.

Definition set_connection_retry_count (v : Z) (self : t) : t :=
  mk (current_db_type self) (mysql_available self) (sqlite_fallback_active self)
     (sync_manager self) v (max_retry_attempts self) (mysql_check_interval self)
     (last_mysql_check self).

(** Without the connector module the name [mysql.connector] is not
    bound. *)
Definition _get_mysql_connection (connector : bool) (server : mysql_server) (self : t)
  : (error + connection) * t :=
  if negb connector then (inl NameError, self)
  else
    match server with
    | Accepts =>
        (inr MySQLConnection,
         set_sqlite_fallback_active false (set_current_db_type "mysql" self))
    | UnknownDatabase creates reconnects =>
        if creates then
          if reconnects then
            (inr MySQLConnection,
             set_sqlite_fallback_active false (set_current_db_type "mysql" self))
          else (inl MySQLError, self)
        else (inl MySQLError, self)
    | Refuses => (inl MySQLError, self)
    end.

(** [opens]: whether [sqlite3.connect] and the two pragmas succeed. *)
Definition _get_sqlite_connection (connector : bool) (opens : bool) (self : t)
  : (error + connection) * t :=
  if opens then
    let self1 := set_current_db_type "sqlite" self in
    (inr SQLiteConnection,
     if connector && negb (sqlite_fallback_active self1)
     then set_sqlite_fallback_active true self1 else self1)
  else (inl SQLiteError, self).

(** [get_connection]: the check, the store the check points to, and
    SQLite once more on any exception.  [opens1] and [opens2] say what
    the first and the second attempt on the SQLite file would do. *)
Definition get_connection (connector : bool) (current_time : Z) (connects : bool)
    (server : mysql_server) (opens1 opens2 : bool) (self : t)
  : outcome * (error + connection) * t :=
  let checked := _check_mysql_availability connector current_time connects self in
  let self1 := snd checked in
  let first :=
    if mysql_available self1 then _get_mysql_connection connector server self1
    else _get_sqlite_connection connector opens1 self1 in
  match first with
  | (inr conn, self2) => (fst checked, inr conn, self2)
  | (inl _, self2) =>
      let second :=
        _get_sqlite_connection connector opens2 (set_sqlite_fallback_active true self2) in
      (fst checked, fst second, snd second)
  end.

Definition force_mysql_reconnect (connector : bool) (current_time : Z) (connects : bool)
    (self : t) : outcome * t :=
  _check_mysql_availability connector current_time connects
    (set_connection_retry_count 0 (set_last_mysql_check 0 self)).

Definition manual_sync (self : t) : M bool :=
  if sync_manager self && mysql_available self then
    try_except synchronize_databases (fun _ => ret false)
  else ret false.

Module DbStatus.
Record t : Type := mk {
  type : option string;
  mysql_available : bool;
  sqlite_fallback_active : bool;
  sync_status : option SyncStatusReport.t;
  last_mysql_check : Z;
  connection_retry_count : Z
}.
End DbStatus.

Definition get_db_status (self : t) : M DbStatus.t :=
  report <- (if sync_manager self
             then r <- get_sync_status ;; ret (Some r)
             else ret None) ;;
  ret (DbStatus.mk (current_db_type self) (mysql_available self)
         (sqlite_fallback_active self) report (last_mysql_check self)
         (connection_retry_count self)).

End Connection.

(** ** Rewriting a statement for MySQL *)

(** [s.replace(old, new)] for a pattern that is not empty: from left to
    right, and a match is passed over before the next one is looked
    for.  [skip] counts the characters of a match still to pass. *)
Fixpoint replace_skip (skip : nat) (old new s : string) : string :=
  match s with
  | EmptyString => EmptyString
  | String c rest =>
      match skip with
      | S k => replace_skip k old new rest
      | O =>
          if String.prefix old s
          then new ++ replace_skip (String.length old - 1) old new rest
          else String c (replace_skip 0 old new rest)
      end
  end.

(** With the empty pattern, [new] goes before every character and at
    the end. *)
Fixpoint replace_empty (new s : string) : string :=
  match s with
  | EmptyString => new
  | String c rest => new ++ String c (replace_empty new rest)
  end.

Definition str_replace (old new s : string) : string :=
  match old with
  | EmptyString => replace_empty new s
  | String _ _ => replace_skip 0 old new s
  end.

(** The replacements of [_convert_query_to_mysql], in the order they
    are made. *)
Definition mysql_replacements : list (string * string) :=
  [ ("INTEGER PRIMARY KEY AUTOINCREMENT", "INT AUTO_INCREMENT PRIMARY KEY");
    ("INTEGER PRIMARY KEY", "INT AUTO_INCREMENT PRIMARY KEY");
    ("TEXT NOT NULL", "VARCHAR(255) NOT NULL");
    ("TEXT DEFAULT", "VARCHAR(255) DEFAULT");
    ("TEXT,", "TEXT,");
    ("TEXT)", "TEXT)");
    ("REAL NOT NULL", "DECIMAL(15,2) NOT NULL");
    ("REAL DEFAULT", "DECIMAL(15,2) DEFAULT");
    ("REAL,", "DECIMAL(15,2),");
    ("REAL)", "DECIMAL(15,2))");
    ("INSERT OR IGNORE", "INSERT IGNORE");
    ("INSERT OR REPLACE", "REPLACE");
    ("CURRENT_TIMESTAMP", "NOW()");
    ("strftime('%Y', ", "YEAR(");
    ("strftime('%m', ", "MONTH(");
    ("strftime('%d', ", "DAY(") ].

Definition _convert_query_to_mysql (query : string) : string :=
  fold_left (fun q r => str_replace (fst r) (snd r) q) mysql_replacements query.

(** Whether [old] is a substring of [s]. *)
Fixpoint occurs (old s : string) : bool :=
  match s with
  | EmptyString => String.prefix old s
  | String _ rest => String.prefix old s || occurs old rest
  end.

(** What a run of checks keeps true: [h] is the list of probe results so
    far, oldest first. *)
Definition arbiter_inv (connector : bool) (self : DatabaseManager.t) (h : list bool) : Prop :=
  (DatabaseManager.sqlite_fallback_active self = true
   <-> exists before n, h = (before ++ true :: repeat false (S n))%list)
  /\ (DatabaseManager.mysql_available self = true
      <-> exists before, h = (before ++ [true])%list)
  /\ DatabaseManager.connection_retry_count self = 0
  /\ (connector = false -> Forall (fun r => r = false) h).

(** The number of failures a session has logged. *)
Definition logged_errors (st : State) : nat :=
  length (List.filter (fun l => String.eqb (SyncLog.level l) "ERROR") (tbl_SyncLog st)).

(** How a session may change a tracked change: not at all, or by marking
    it as synced. *)
Definition evolves (old new : SyncTracking.row) : Prop :=
  new = old \/ exists now : Z, new = mark_synced now old.

(** In a pass of the loop over [answer], started in [st], some record
    was synced that has the table, the record and the operation of
    [row]. *)
Definition synced_in_pass (session_id : Z) (status : SyncStatus) (st : State)
    (answer : list SyncTracking.row) (row : SyncTracking.row) : Prop :=
  exists (l1 l2 : list SyncTracking.row) (row' : SyncTracking.row)
         (counters_mid : nat * nat) (st_mid : State),
    answer = app l1 (row' :: l2)
    /\ sync_loop session_id (map (as_record status) l1) (0%nat, 0%nat) st
       = (inr counters_mid, st_mid)
    /\ fst (_sync_record (as_record status row') session_id st_mid) = inr None
    /\ same_change (SyncTracking.table_name row') (SyncTracking.record_id row')
         (SyncTracking.operation row') row = true.

(** A computation that neither reads nor writes the tracked changes. *)
Definition ignores_tracking {A : Type} (m : M A) : Prop :=
  forall (rows : list SyncTracking.row) (st : State),
    m (set_SyncTracking rows st) = (fst (m st), set_SyncTracking rows (snd (m st))).

(** ** Runs of the synchronisation manager *)

(** What can happen between two observations: the calls the rest of the
    program makes on the manager, a turn of the monitor thread, time
    passing, and the data tables and the server changing under the
    manager's feet.  [Replay] is the session on a list it is handed
    instead of fetching it. *)
Inductive call : Type :=
| Track (table_name : string) (record_id : Z) (operation : string) (data : option Row)
| Resolve (conflict_id : Z) (resolution : ConflictResolution)
| Synchronize
| Replay (pending_records : list SyncRecord.t)
| MonitorTurn
| Elapse (d : Z)
| Outside (sqlite' mysql' : gmap string (list Row)) (up : bool).

Definition outside (sqlite' mysql' : gmap string (list Row)) (up : bool) (st : State)
  : State :=
  mkState sqlite' mysql' (MYSQL_AVAILABLE st) up (tbl_SyncTracking st)
          (tbl_ConflictResolution st) (tbl_SyncLog st) (sync_status st)
          (conflicts st) (clock st).

Definition do_call (c : call) (st : State) : State :=
  match c with
  | Track table_name record_id operation data =>
      snd (track_record_change table_name record_id operation data st)
  | Resolve conflict_id resolution => snd (resolve_conflict conflict_id resolution st)
  | Synchronize => snd (synchronize_databases st)
  | Replay pending_records => snd (synchronize_from (ret pending_records) st)
  | MonitorTurn => snd (_sync_monitor_loop_turn st)
  | Elapse d => advance d st
  | Outside sqlite' mysql' up => outside sqlite' mysql' up st
  end.

Definition run (calls : list call) (st : State) : State :=
  fold_left (fun s c => do_call c s) calls st.

Definition is_replay (c : call) : bool :=
  match c with
  | Replay _ => true
  | _ => false
  end.

(** The sessions that got past the two guards, counted by the line each
    of them logs first. *)
Definition sessions_logged (st : State) : nat :=
  length (List.filter
            (fun l => String.eqb (SyncLog.message l) "Starting database synchronization")
            (tbl_SyncLog st)).

(** The turns of the monitor, in a run, that started a session. *)
Fixpoint monitor_sessions (calls : list call) (st : State) : nat :=
  match calls with
  | [] => 0
  | c :: rest =>
      ((match c with
        | MonitorTurn =>
            if Nat.ltb (sessions_logged st) (sessions_logged (do_call c st)) then 1 else 0
        | _ => 0
        end) + monitor_sessions rest (do_call c st))%nat
  end.

(** What the statements of the manager keep true of its tables. *)
Definition tracking_row_ok (row : SyncTracking.row) : Prop :=
  In (SyncTracking.table_name row) sync_tables
  /\ SyncTracking.conflict_data row = None
  /\ ((SyncTracking.sync_status row = "pending" /\ SyncTracking.synced_at row = None)
      \/ (SyncTracking.sync_status row = "synced"
          /\ exists now : Z, SyncTracking.synced_at row = Some now)).

Definition conflict_row_ok (row : ConflictRow.row) : Prop :=
  (ConflictRow.resolved row = 0
   /\ ConflictRow.resolution_strategy row = "manual"
   /\ ConflictRow.resolved_at row = None)
  \/ (ConflictRow.resolved row = 1
      /\ (exists r : ConflictResolution,
            ConflictRow.resolution_strategy row = ConflictResolution_value r)
      /\ exists now : Z, ConflictRow.resolved_at row = Some now).

Definition bookkeeping_ok (st : State) : Prop :=
  Forall tracking_row_ok (tbl_SyncTracking st)
  /\ Forall conflict_row_ok (tbl_ConflictResolution st)
  /\ StronglySorted Z.lt (map SyncTracking.sync_id (tbl_SyncTracking st))
  /\ StronglySorted Z.lt (map ConflictRow.conflict_id (tbl_ConflictResolution st))
  /\ StronglySorted Z.lt (map SyncLog.log_id (tbl_SyncLog st)).

(** The times at which a run of checks probed the server, oldest first. *)
Fixpoint probe_times (connector : bool) (calls : list (Z * bool)) (self : DatabaseManager.t)
  : list Z :=
  match calls with
  | [] => []
  | c :: rest =>
      let r := DatabaseManager._check_mysql_availability connector (fst c) (snd c) self in
      let tail := probe_times connector rest (snd r) in
      if DatabaseManager.probed (fst r) then fst c :: tail else tail
  end.

(** A conflict as the session keeps it in [self.conflicts], and the row
    of [ConflictResolution] it was stored as. *)
Definition stored_as (c : ConflictRecord.t) (row : ConflictRow.row) : Prop :=
  ConflictRecord_of_row row = inr c
  /\ ConflictRecord.resolution_strategy c = MANUAL
  /\ ConflictRow.resolved row = 0
  /\ ConflictRow.resolved_at row = None.

(** What the loop of a session may do to the state when it counts [n]
    conflicts: the log, the conflict table and [self.conflicts] only
    grow, the last two by the same [n] conflicts; a tracked change is
    left alone or marked as synced; the secondary store, the status, the
    clock and the server are not touched. *)
Definition loop_changes (n : nat) (st st' : State) : Prop :=
  sqlite st' = sqlite st
  /\ MYSQL_AVAILABLE st' = MYSQL_AVAILABLE st
  /\ mysql_up st' = mysql_up st
  /\ clock st' = clock st
  /\ sync_status st' = sync_status st
  /\ (exists new : list SyncLog.row, tbl_SyncLog st' = app (tbl_SyncLog st) new)
  /\ (exists (cs : list ConflictRecord.t) (rows : list ConflictRow.row),
        conflicts st' = app (conflicts st) cs
        /\ tbl_ConflictResolution st' = app (tbl_ConflictResolution st) rows
        /\ Forall2 stored_as cs rows
        /\ length cs = n)
  /\ Forall2 evolves (tbl_SyncTracking st) (tbl_SyncTracking st').

(** A computation that takes every state to one related to it by [R]. *)
Definition keeps (R : State -> State -> Prop) {A : Type} (m : M A) : Prop :=
  forall st : State, R st (snd (m st)).

(** A property that, once true, stays true. *)
Definition stable (P : State -> Prop) (st st' : State) : Prop := P st -> P st'.

Definition is_outside (c : call) : bool :=
  match c with
  | Outside _ _ _ => true
  | _ => false
  end.

(** ** Sample states *)

Definition row_secondary : Row := {[ "member_id" := VInt 7; "name" := VStr "Secondary" ]}.
Definition row_primary : Row := {[ "member_id" := VInt 7; "name" := VStr "Primary" ]}.

(** Both stores hold member 7, with different names; nothing is tracked. *)
Definition st_diverged : State :=
  mkState {[ "Members" := [row_secondary] ]} {[ "Members" := [row_primary] ]}
          true true [] [] [] IDLE [] 200.

(** The conflict on member 7, as [_store_conflict_record] left it at
    time 100, and the same conflict once resolved for the primary. *)
Definition open_conflict : ConflictRow.row :=
  ConflictRow.mk 1 "Members" 7 (Some row_secondary) (Some row_primary)
                 100 100 "manual" 0 None 100.

Definition closed_conflict : ConflictRow.row :=
  ConflictRow.mk 1 "Members" 7 (Some row_secondary) (Some row_primary)
                 100 100 "mysql_wins" 1 (Some 150) 100.

Definition st_open_conflict : State := set_ConflictResolution [open_conflict] st_diverged.
Definition st_closed_conflict : State := set_ConflictResolution [closed_conflict] st_diverged.

(** A manager that is working on the SQLite file. *)
Definition fallback_manager : DatabaseManager.t :=
  DatabaseManager.mk (Some "sqlite") false true true 0 3 30 1000.

(** A pending change of member 7, as [track_record_change] stores it. *)
Definition tracked (sync_id : Z) (operation : string) (timestamp : Z) (data_hash : string)
  : SyncTracking.row :=
  SyncTracking.mk sync_id "Members" 7 operation timestamp data_hash "pending" None
                  timestamp None.

Definition hash_secondary : string := Eval vm_compute in _calculate_data_hash (Some row_secondary).
Definition hash_primary : string := Eval vm_compute in _calculate_data_hash (Some row_primary).

(** What the secondary row of member 7 was between two updates. *)
Definition row_interim : Row := {[ "member_id" := VInt 7; "name" := VStr "Interim" ]}.
Definition hash_interim : string := Eval vm_compute in _calculate_data_hash (Some row_interim).

Definition insert_7 : SyncTracking.row := tracked 1 "INSERT" 100 hash_secondary.
Definition update_7 : SyncTracking.row := tracked 1 "UPDATE" 100 hash_secondary.
Definition update_7_in_step : SyncTracking.row := tracked 1 "UPDATE" 100 hash_primary.

(** The diverged stores with one pending change. *)
Definition st_tracked (row : SyncTracking.row) : State :=
  set_SyncTracking [row] st_diverged.

(** A pending insert of member 8, whom neither store holds. *)
Definition insert_8 : SyncTracking.row :=
  SyncTracking.mk 2 "Members" 8 "INSERT" 110 hash_secondary "pending" None 110 None.

Definition st_two_changes : State :=
  set_SyncTracking [update_7_in_step; insert_8] st_diverged.

(** Member 7 was updated twice on the fallback store, each time to the
    row the primary store holds. *)
Definition update_7_again : SyncTracking.row := tracked 2 "UPDATE" 120 hash_primary.

Definition st_twice_tracked : State :=
  set_SyncTracking [update_7_in_step; update_7_again] st_diverged.

(** Member 7 was deleted and created again on the fallback store within
    one reading of the clock. *)
Definition delete_7 : SyncTracking.row := tracked 1 "DELETE" 100 hash_primary.
Definition reinsert_7 : SyncTracking.row := tracked 2 "INSERT" 100 hash_secondary.

Definition st_delete_reinsert : State :=
  set_SyncTracking [delete_7; reinsert_7] st_diverged.

(** Member 7 was updated twice on the fallback store, while the primary
    store kept a third row. *)
Definition update_7_interim : SyncTracking.row := tracked 1 "UPDATE" 100 hash_interim.
Definition update_7_later : SyncTracking.row := tracked 2 "UPDATE" 120 hash_secondary.

Definition st_two_updates : State :=
  set_SyncTracking [update_7_interim; update_7_later] st_diverged.

(** Member 8 was created on the fallback store; the primary store does
    not hold the row. *)
Definition row_8 : Row := {[ "member_id" := VInt 8; "name" := VStr "New" ]}.
Definition hash_8 : string := Eval vm_compute in _calculate_data_hash (Some row_8).

Definition created_8 : SyncTracking.row :=
  SyncTracking.mk 1 "Members" 8 "INSERT" 110 hash_8 "pending" None 110 None.

Definition st_member_8 : State :=
  mkState {[ "Members" := [row_secondary; row_8] ]} {[ "Members" := [row_primary] ]}
          true true [created_8] [] [] IDLE [] 200.

(** Both stores hold the same row of member 7, and an insert of it is
    tracked. *)
Definition st_same_row : State :=
  mkState {[ "Members" := [row_secondary] ]} {[ "Members" := [row_secondary] ]}
          true true [reinsert_7] [] [] IDLE [] 200.

(** A change tracked under an operation in lower case. *)
Definition lowercase_update_7 : SyncTracking.row := tracked 1 "update" 100 hash_primary.

(** A second conflict, on member 8, still open beside the resolved one. *)
Definition second_conflict : ConflictRow.row :=
  ConflictRow.mk 2 "Members" 8 (Some row_8) (Some row_primary) 120 120 "manual" 0 None 120.

Definition st_one_of_two_resolved : State :=
  set_ConflictResolution [closed_conflict; second_conflict] st_diverged.

(** * Properties *)

(** ** The hash against known digests *)

Example md5_empty : MD5.hexdigest "" = "d41d8cd98f00b204e9800998ecf8427e".
Proof. vm_compute. reflexivity. Qed.

Example md5_abc : MD5.hexdigest "abc" = "900150983cd24fb0d6963f7d28e17f72".
Proof. vm_compute. reflexivity. Qed.

Example md5_two_blocks :
  MD5.hexdigest "aaaaaaaaaaaaaaaaaaaaaaaaaaaaaaaaaaaaaaaaaaaaaaaaaaaaaaaaaaaaaaaa"
  = "014842d480b571495a4a0363793f7367".
Proof. vm_compute. reflexivity. Qed.

Example dumps_sorted :
  Json.dumps (Some {[ "member_id" := VInt 7; "balance" := VInt (-3); "x" := VNone ]})
  = "{" ++ Json.dquote ++ "balance" ++ Json.dquote ++ ": -3, "
        ++ Json.dquote ++ "member_id" ++ Json.dquote ++ ": 7, "
        ++ Json.dquote ++ "x" ++ Json.dquote ++ ": null}".
Proof. vm_compute. reflexivity. Qed.

Example hash_of_sample_rows :
  _calculate_data_hash (Some row_secondary) = "ba5fbce061724c5142bfb6a6dd262dae"
  /\ _calculate_data_hash (Some row_primary) = "4edd47260b715c2312ce49ecf0647ee3"
  /\ _calculate_data_hash None = "37a6259cc0c1dae299a7866489dff0bd".
Proof. vm_compute. repeat split; reflexivity. Qed.

(** ** Resolving a conflict *)

Lemma resolve_conflict_found (conflict_id : Z) (rows : list ConflictRow.row)
    (row : ConflictRow.row) :
  In row rows -> ConflictRow.conflict_id row = conflict_id ->
  Nat.ltb 0 (length (List.filter
                       (fun r => Z.eqb (ConflictRow.conflict_id r) conflict_id) rows)) = true.
Proof.
  intros Hin Hid. apply Nat.ltb_lt.
  assert (Hf : In row (List.filter
                         (fun r => Z.eqb (ConflictRow.conflict_id r) conflict_id) rows)).
  { apply filter_In. split; [exact Hin|]. apply Z.eqb_eq. exact Hid. }
  destruct (List.filter _ rows); [destruct Hf | simpl; lia].
Qed.

Lemma resolve_conflict_row_in (conflict_id now : Z) (resolution : ConflictResolution)
    (rows : list ConflictRow.row) (row : ConflictRow.row) :
  In row rows -> ConflictRow.conflict_id row = conflict_id ->
  In (resolve_row now resolution row)
     (map (fun r => if Z.eqb (ConflictRow.conflict_id r) conflict_id
                    then resolve_row now resolution r else r) rows).
Proof.
  intros Hin Hid. apply in_map_iff. exists row. split; [|exact Hin].
  apply Z.eqb_eq in Hid. rewrite Hid. reflexivity.
Qed.

Lemma resolve_conflict_other_in (conflict_id now : Z) (resolution : ConflictResolution)
    (rows : list ConflictRow.row) (row : ConflictRow.row) :
  In row rows -> ConflictRow.conflict_id row <> conflict_id ->
  In row (map (fun r => if Z.eqb (ConflictRow.conflict_id r) conflict_id
                        then resolve_row now resolution r else r) rows).
Proof.
  intros Hin Hid. apply in_map_iff. exists row. split; [|exact Hin].
  apply Z.eqb_neq in Hid. rewrite Hid. reflexivity.
Qed.

(** C4, as the code has it: resolving an existing unresolved conflict
    with [SQLITE_WINS] returns true and turns the conflict's row into a
    resolved one that records ["sqlite_wins"]; no statement is sent to
    the primary store, so every row read from it afterwards is the row
    read before. *)
Theorem resolve_conflict_sqlite_wins_marks_only (conflict_id : Z) (st : State)
    (row : ConflictRow.row) :
  In row (tbl_ConflictResolution st) ->
  ConflictRow.conflict_id row = conflict_id ->
  ConflictRow.resolved row = 0 ->
  exists st',
    resolve_conflict conflict_id SQLITE_WINS st = (inr true, st')
    /\ In (resolve_row (clock st) SQLITE_WINS row) (tbl_ConflictResolution st')
    /\ ConflictRow.resolved (resolve_row (clock st) SQLITE_WINS row) = 1
    /\ ConflictRow.resolution_strategy (resolve_row (clock st) SQLITE_WINS row) = "sqlite_wins"
    /\ mysql st' = mysql st
    /\ sqlite st' = sqlite st
    /\ forall table_name record_id,
         fst (_get_record_data mysql_conn table_name record_id st')
         = fst (_get_record_data mysql_conn table_name record_id st).
Proof.
  intros Hin Hid Hres. eexists. unfold resolve_conflict.
  rewrite (resolve_conflict_found conflict_id _ row Hin Hid).
  split; [reflexivity|]. simpl.
  split; [apply resolve_conflict_row_in; assumption|].
  repeat split; try reflexivity.
  intros table_name record_id. unfold _get_record_data. simpl.
  destruct (mysql st !! table_name); reflexivity.
Qed.

Lemma resolve_conflict_sqlite_wins_marks_only_witness :
  exists st',
    resolve_conflict 1 SQLITE_WINS st_open_conflict = (inr true, st')
    /\ In (resolve_row (clock st_open_conflict) SQLITE_WINS open_conflict)
          (tbl_ConflictResolution st')
    /\ ConflictRow.resolved (resolve_row (clock st_open_conflict) SQLITE_WINS open_conflict) = 1
    /\ ConflictRow.resolution_strategy
         (resolve_row (clock st_open_conflict) SQLITE_WINS open_conflict) = "sqlite_wins"
    /\ mysql st' = mysql st_open_conflict
    /\ sqlite st' = sqlite st_open_conflict
    /\ forall table_name record_id,
         fst (_get_record_data mysql_conn table_name record_id st')
         = fst (_get_record_data mysql_conn table_name record_id st_open_conflict).
Proof.
  apply (resolve_conflict_sqlite_wins_marks_only 1 st_open_conflict open_conflict).
  - simpl. left. reflexivity.
  - reflexivity.
  - reflexivity.
Defined.

(** C4, as stated, fails: after [SQLITE_WINS] on the open conflict of
    member 7 the primary store still answers with its own row, which is
    not the secondary snapshot of the conflict. *)
Lemma resolve_conflict_sqlite_wins_primary_unchanged :
  let r := resolve_conflict 1 SQLITE_WINS st_open_conflict in
  fst r = inr true
  /\ ConflictRow.sqlite_data open_conflict = Some row_secondary
  /\ fst (_get_record_data mysql_conn "Members" 7 (snd r)) = inr (Some row_primary)
  /\ row_primary <> row_secondary.
Proof.
  repeat split; try (vm_compute; reflexivity).
  intros H. apply (f_equal (fun m : Row => m !! "name")) in H.
  vm_compute in H. discriminate H.
Qed.

(** C8, as the code has it: [resolve_conflict] has no test on
    [resolved].  On a conflict that is already resolved it returns true
    again, the row stays resolved, and the strategy and the resolution
    time it records are overwritten with those of this call; the call
    leaves the row as it was exactly when it brings the strategy and the
    time the row already had.  Rows of other conflicts, the tracked
    changes and both stores are untouched. *)
Theorem resolve_conflict_again_overwrites (conflict_id : Z)
    (resolution : ConflictResolution) (st : State) (row : ConflictRow.row) :
  In row (tbl_ConflictResolution st) ->
  ConflictRow.conflict_id row = conflict_id ->
  ConflictRow.resolved row = 1 ->
  exists st',
    resolve_conflict conflict_id resolution st = (inr true, st')
    /\ In (resolve_row (clock st) resolution row) (tbl_ConflictResolution st')
    /\ ConflictRow.resolved (resolve_row (clock st) resolution row) = 1
    /\ ConflictRow.resolution_strategy (resolve_row (clock st) resolution row)
       = ConflictResolution_value resolution
    /\ ConflictRow.resolved_at (resolve_row (clock st) resolution row) = Some (clock st)
    /\ ConflictRow.sqlite_data (resolve_row (clock st) resolution row)
       = ConflictRow.sqlite_data row
    /\ ConflictRow.mysql_data (resolve_row (clock st) resolution row)
       = ConflictRow.mysql_data row
    /\ (resolve_row (clock st) resolution row = row
        <-> ConflictRow.resolution_strategy row = ConflictResolution_value resolution
            /\ ConflictRow.resolved_at row = Some (clock st))
    /\ (forall other, In other (tbl_ConflictResolution st) ->
          ConflictRow.conflict_id other <> conflict_id ->
          In other (tbl_ConflictResolution st'))
    /\ length (tbl_ConflictResolution st') = length (tbl_ConflictResolution st)
    /\ tbl_SyncTracking st' = tbl_SyncTracking st
    /\ mysql st' = mysql st
    /\ sqlite st' = sqlite st.
Proof.
  intros Hin Hid Hres. eexists. unfold resolve_conflict.
  rewrite (resolve_conflict_found conflict_id _ row Hin Hid).
  split; [reflexivity|]. simpl.
  split; [apply resolve_conflict_row_in; assumption|].
  split; [reflexivity|]. split; [reflexivity|]. split; [reflexivity|].
  split; [reflexivity|]. split; [reflexivity|].
  split.
  { destruct row as [cid tn rid sd md sts mts strat res rat cat].
    unfold resolve_row. simpl in *. subst res. split.
    - intros H. injection H as H1 H2. split; [symmetry; exact H1 | symmetry; exact H2].
    - intros [H1 H2]. rewrite H1, H2. reflexivity. }
  split; [intros other Ho Hne; apply resolve_conflict_other_in; assumption|].
  split; [apply length_map|].
  repeat split; reflexivity.
Qed.

Lemma resolve_conflict_again_overwrites_witness :
  exists st',
    resolve_conflict 1 SQLITE_WINS st_closed_conflict = (inr true, st')
    /\ In (resolve_row 200 SQLITE_WINS closed_conflict) (tbl_ConflictResolution st')
    /\ ConflictRow.resolved (resolve_row 200 SQLITE_WINS closed_conflict) = 1
    /\ ConflictRow.resolution_strategy (resolve_row 200 SQLITE_WINS closed_conflict)
       = "sqlite_wins"
    /\ ConflictRow.resolved_at (resolve_row 200 SQLITE_WINS closed_conflict) = Some 200
    /\ ConflictRow.sqlite_data (resolve_row 200 SQLITE_WINS closed_conflict)
       = Some row_secondary
    /\ ConflictRow.mysql_data (resolve_row 200 SQLITE_WINS closed_conflict)
       = Some row_primary
    /\ (resolve_row 200 SQLITE_WINS closed_conflict = closed_conflict
        <-> ConflictRow.resolution_strategy closed_conflict = "sqlite_wins"
            /\ ConflictRow.resolved_at closed_conflict = Some 200)
    /\ (forall other, In other (tbl_ConflictResolution st_closed_conflict) ->
          ConflictRow.conflict_id other <> 1 ->
          In other (tbl_ConflictResolution st'))
    /\ length (tbl_ConflictResolution st') = length (tbl_ConflictResolution st_closed_conflict)
    /\ tbl_SyncTracking st' = tbl_SyncTracking st_closed_conflict
    /\ mysql st' = mysql st_closed_conflict
    /\ sqlite st' = sqlite st_closed_conflict.
Proof.
  apply (resolve_conflict_again_overwrites 1 SQLITE_WINS st_closed_conflict closed_conflict).
  - simpl. left. reflexivity.
  - reflexivity.
  - reflexivity.
Defined.

(** C8, as stated, fails: the conflict of member 7 was resolved with
    [MYSQL_WINS]; resolving it again with [SQLITE_WINS] returns true but
    rewrites the stored row, whose strategy is now ["sqlite_wins"]. *)
Lemma resolve_conflict_again_changes_strategy :
  let r := resolve_conflict 1 SQLITE_WINS st_closed_conflict in
  fst r = inr true
  /\ tbl_ConflictResolution st_closed_conflict = [closed_conflict]
  /\ ConflictRow.resolved closed_conflict = 1
  /\ tbl_ConflictResolution (snd r) <> tbl_ConflictResolution st_closed_conflict
  /\ map ConflictRow.resolution_strategy (tbl_ConflictResolution st_closed_conflict)
     = ["mysql_wins"]
  /\ map ConflictRow.resolution_strategy (tbl_ConflictResolution (snd r))
     = ["sqlite_wins"].
Proof.
  repeat split; try (vm_compute; reflexivity).
  intros H. apply (f_equal (map ConflictRow.resolution_strategy)) in H.
  vm_compute in H. discriminate H.
Qed.

(** ** Tracking a change *)

Lemma length_hex_of_bytes (bs : list Z) :
  String.length (MD5.hex_of_bytes bs) = (2 * length bs)%nat.
Proof.
  induction bs as [|b bs IH]; [reflexivity|].
  cbn [MD5.hex_of_bytes String.length length]. rewrite IH. lia.
Qed.

Lemma length_le_bytes (n : nat) (x : Z) : length (MD5.le_bytes n x) = n.
Proof. unfold MD5.le_bytes. rewrite length_map. apply length_seq. Qed.

Lemma length_digest (msg : list Z) : length (MD5.digest msg) = 16%nat.
Proof.
  unfold MD5.digest.
  destruct (fold_left _ _ MD5.init) as [[[a b] c] d].
  rewrite !length_app, !length_le_bytes. reflexivity.
Qed.

(** A digest is thirty-two characters, whatever was hashed. *)
Lemma length_calculate_data_hash (data : option Row) :
  String.length (_calculate_data_hash data) = 32%nat.
Proof.
  unfold _calculate_data_hash, MD5.hexdigest.
  rewrite length_hex_of_bytes, length_digest. reflexivity.
Qed.

Lemma track_record_change_enrolled (table_name : string) (record_id : Z)
    (operation : string) (data : option Row) (st : State) :
  table_name ∈ sync_tables ->
  track_record_change table_name record_id operation data st
  = (inr tt,
     set_SyncTracking
       (app (tbl_SyncTracking st)
            [SyncTracking.mk (next_id (map SyncTracking.sync_id (tbl_SyncTracking st)))
               table_name record_id operation (clock st) (_calculate_data_hash data)
               "pending" None (clock st) None]) st).
Proof.
  intros H. unfold track_record_change.
  rewrite (bool_decide_eq_true_2 _ H). reflexivity.
Qed.

Lemma track_record_change_not_enrolled (table_name : string) (record_id : Z)
    (operation : string) (data : option Row) (st : State) :
  table_name ∉ sync_tables ->
  track_record_change table_name record_id operation data st = (inr tt, st).
Proof.
  intros H. unfold track_record_change.
  rewrite (bool_decide_eq_false_2 _ H). reflexivity.
Qed.

(** C6, as the code has it: on the fallback store, tracking a change of
    an enrolled table appends exactly one row to [SyncTracking]; the row
    is pending, names the table, the record and the operation, and its
    hash is the hash of the snapshot that was supplied.  This holds for
    every operation: for a delete too the hash is the thirty-two
    character digest of the snapshot, never the empty text.  A table
    that is not enrolled leaves the state as it was. *)
Theorem track_change_appends_one_pending (self : DatabaseManager.t)
    (table_name : string) (record_id : Z) (operation : string)
    (data : option Row) (st : State) :
  DatabaseManager.sync_manager self = true ->
  DatabaseManager.current_db_type self = Some "sqlite" ->
  let st' := DatabaseManager.track_change self table_name record_id operation data st in
  st' = snd (track_record_change table_name record_id operation data st)
  /\ (table_name ∈ sync_tables ->
      exists row,
        tbl_SyncTracking st' = app (tbl_SyncTracking st) [row]
        /\ SyncTracking.sync_status row = "pending"
        /\ SyncTracking.table_name row = table_name
        /\ SyncTracking.record_id row = record_id
        /\ SyncTracking.operation row = operation
        /\ SyncTracking.data_hash row = _calculate_data_hash data
        /\ String.length (SyncTracking.data_hash row) = 32%nat)
  /\ (table_name ∉ sync_tables -> st' = st).
Proof.
  intros Hm Hdb st'. subst st'. unfold DatabaseManager.track_change.
  rewrite Hm, Hdb. simpl. unfold try_except.
  split.
  { destruct (track_record_change table_name record_id operation data st) as [[e|[]] s] eqn:E;
      [|reflexivity].
    exfalso. unfold track_record_change in E.
    destruct (negb _) in E; discriminate E. }
  split.
  - intros Hin. rewrite (track_record_change_enrolled _ _ _ _ _ Hin). simpl.
    eexists. split; [reflexivity|]. simpl.
    repeat split; try reflexivity. apply length_calculate_data_hash.
  - intros Hnin. rewrite (track_record_change_not_enrolled _ _ _ _ _ Hnin). reflexivity.
Qed.

Lemma track_change_appends_one_pending_witness :
  let st' := DatabaseManager.track_change fallback_manager "Members" 7 "DELETE"
               (Some row_secondary) st_diverged in
  st' = snd (track_record_change "Members" 7 "DELETE" (Some row_secondary) st_diverged)
  /\ ("Members" ∈ sync_tables ->
      exists row,
        tbl_SyncTracking st' = app (tbl_SyncTracking st_diverged) [row]
        /\ SyncTracking.sync_status row = "pending"
        /\ SyncTracking.table_name row = "Members"
        /\ SyncTracking.record_id row = 7
        /\ SyncTracking.operation row = "DELETE"
        /\ SyncTracking.data_hash row = _calculate_data_hash (Some row_secondary)
        /\ String.length (SyncTracking.data_hash row) = 32%nat)
  /\ ("Members" ∉ sync_tables -> st' = st_diverged).
Proof.
  apply (track_change_appends_one_pending fallback_manager "Members" 7 "DELETE"
           (Some row_secondary) st_diverged); reflexivity.
Defined.

(** C6, as stated, fails on its delete clause: tracking the deletion of
    member 7 on the fallback store appends one pending row whose hash is
    the digest of the snapshot, not the empty text. *)
Lemma track_change_delete_hash_not_empty :
  let st' := DatabaseManager.track_change fallback_manager "Members" 7 "DELETE"
               (Some row_secondary) st_diverged in
  "Members" ∈ sync_tables
  /\ map SyncTracking.operation (tbl_SyncTracking st') = ["DELETE"]
  /\ map SyncTracking.sync_status (tbl_SyncTracking st') = ["pending"]
  /\ map SyncTracking.data_hash (tbl_SyncTracking st') = ["ba5fbce061724c5142bfb6a6dd262dae"]
  /\ map SyncTracking.data_hash (tbl_SyncTracking st') <> [""].
Proof.
  split; [apply (bool_decide_unpack _); vm_compute; exact I|].
  split; [vm_compute; reflexivity|].
  split; [vm_compute; reflexivity|].
  split; [vm_compute; reflexivity|].
  intros H. vm_compute in H. discriminate H.
Qed.

(** ** The health checks of the arbiter *)

Section Arbiter.

Import DatabaseManager.

Variable connector : bool.

Lemma arbiter_inv_fresh (built : bool) : arbiter_inv connector (fresh built) [].
Proof.
  unfold arbiter_inv, fresh. simpl. repeat split; try discriminate; try constructor.
  - intros (before & n & H). destruct before; discriminate H.
  - intros (before & H). destruct before; discriminate H.
Qed.

Lemma ends_with_lost (h : list bool) :
  (exists before n, (h ++ [false])%list = (before ++ true :: repeat false (S n))%list)
  <-> (exists before, h = (before ++ [true])%list)
      \/ (exists before n, h = (before ++ true :: repeat false (S n))%list).
Proof.
  split.
  - intros (before & n & H).
    simpl in H. rewrite repeat_cons in H.
    change (true :: (repeat false n ++ [false])%list)
      with ((true :: repeat false n) ++ [false])%list in H.
    rewrite app_assoc in H. apply app_inj_tail in H as [H _].
    destruct n as [|n]; [left | right]; eauto.
  - intros [(before & H) | (before & n & H)]; subst h.
    + exists before, 0%nat. rewrite <- app_assoc. reflexivity.
    + exists before, (S n). rewrite <- app_assoc. simpl.
      f_equal. f_equal. f_equal. symmetry. apply (repeat_cons n false).
Qed.

Lemma not_ends_with_lost (h : list bool) :
  ~ exists before n, (h ++ [true])%list = (before ++ true :: repeat false (S n))%list.
Proof.
  intros (before & n & H).
  simpl in H. rewrite repeat_cons in H.
  change (true :: (repeat false n ++ [false])%list)
    with ((true :: repeat false n) ++ [false])%list in H.
  rewrite app_assoc in H. apply app_inj_tail in H as [_ H]. discriminate H.
Qed.

Lemma arbiter_inv_step (self : t) (h : list bool) (current_time : Z) (connects : bool) :
  arbiter_inv connector self h ->
  let r := _check_mysql_availability connector current_time connects self in
  arbiter_inv connector (snd r)
    (if probed (fst r) then (h ++ [connector && connects])%list else h).
Proof.
  intros (Hfb & Hav & Hcnt & Hcon). unfold _check_mysql_availability.
  destruct (Z.ltb _ _); [simpl; unfold arbiter_inv; tauto|].
  destruct connector eqn:Ec; simpl.
  - destruct connects; simpl; unfold arbiter_inv; simpl.
    + split; [split; [discriminate|]|].
      { intros H. exfalso. exact (not_ends_with_lost h H). }
      split; [split; [eauto | reflexivity]|].
      split; [reflexivity | discriminate].
    + split; [split|].
      { intros H. apply ends_with_lost.
        destruct (mysql_available self); [left; apply Hav; reflexivity|].
        right. apply Hfb. exact H. }
      { intros H. apply ends_with_lost in H as [H | H].
        - apply Hav in H. rewrite H. reflexivity.
        - apply Hfb in H. rewrite H. destruct (mysql_available self); reflexivity. }
      split; [split; [discriminate|]|].
      { intros (before & H). apply app_inj_tail in H as [_ H]. discriminate H. }
      split; [exact Hcnt | discriminate].
  - specialize (Hcon eq_refl). unfold arbiter_inv; simpl.
    split; [split|].
    { intros H. apply ends_with_lost. right. apply Hfb. exact H. }
    { intros H. apply ends_with_lost in H as [(before & H) | H]; [|apply Hfb; exact H].
      exfalso. subst h. apply Forall_app in Hcon as [_ Hcon].
      inversion Hcon as [|? ? Hx]. discriminate Hx. }
    split; [split; [discriminate|]|].
    { intros (before & H). apply app_inj_tail in H as [_ H]. discriminate H. }
    split; [exact Hcnt|].
    intros _. apply Forall_app. split; [exact Hcon | repeat constructor].
Qed.

Lemma arbiter_inv_run (calls : list (Z * bool)) :
  forall (self : t) (h : list bool),
    arbiter_inv connector self h ->
    arbiter_inv connector (checks connector calls self)
                (h ++ probes connector calls self)%list.
Proof.
  induction calls as [|c calls IH]; intros self h Hinv.
  - simpl. rewrite app_nil_r. exact Hinv.
  - pose proof (arbiter_inv_step self h (fst c) (snd c) Hinv) as Hstep.
    simpl in Hstep. apply IH in Hstep.
    unfold checks in *. simpl.
    destruct (probed (fst (_check_mysql_availability connector (fst c) (snd c) self))).
    + rewrite <- app_assoc in Hstep. exact Hstep.
    + exact Hstep.
Qed.

End Arbiter.

(** C5, as the code has it.  A failed probe clears [mysql_available];
    it sets [sqlite_fallback_active] only when [mysql_available] was set
    before the probe, and otherwise leaves the flag as it was; it does
    not touch [connection_retry_count].  A probe that succeeds sets
    [mysql_available], clears [sqlite_fallback_active] and resets the
    counter.  Hence, in every state that health checks reach from the
    start of the process, [sqlite_fallback_active] is set if and only if
    the most recent probe failed and some probe before it succeeded,
    [mysql_available] is set if and only if the most recent probe
    succeeded, and the counter is zero. *)
Theorem fallback_active_iff_connection_lost (built connector : bool) (t0 : Z)
    (c0 : bool) (calls : list (Z * bool)) :
  let self := DatabaseManager.checks connector calls
                (DatabaseManager.init built connector t0 c0) in
  let h := DatabaseManager.probes connector ((t0, c0) :: calls)
             (DatabaseManager.fresh built) in
  (DatabaseManager.sqlite_fallback_active self = true
   <-> exists before n, h = (before ++ true :: repeat false (S n))%list)
  /\ (DatabaseManager.mysql_available self = true
      <-> exists before, h = (before ++ [true])%list)
  /\ DatabaseManager.connection_retry_count self = 0
  /\ forall (s : DatabaseManager.t) (t : Z),
       Z.ltb (t - DatabaseManager.last_mysql_check s)
             (DatabaseManager.mysql_check_interval s) = false ->
       let failed := snd (DatabaseManager._check_mysql_availability true t false s) in
       let succeeded := snd (DatabaseManager._check_mysql_availability true t true s) in
       DatabaseManager.mysql_available failed = false
       /\ DatabaseManager.sqlite_fallback_active failed
          = (DatabaseManager.mysql_available s || DatabaseManager.sqlite_fallback_active s)
       /\ DatabaseManager.connection_retry_count failed
          = DatabaseManager.connection_retry_count s
       /\ DatabaseManager.mysql_available succeeded = true
       /\ DatabaseManager.sqlite_fallback_active succeeded = false
       /\ DatabaseManager.connection_retry_count succeeded = 0.
Proof.
  intros self h.
  pose proof (arbiter_inv_run connector ((t0, c0) :: calls) (DatabaseManager.fresh built) []
                (arbiter_inv_fresh connector built)) as (Hfb & Hav & Hcnt & _).
  split; [exact Hfb|]. split; [exact Hav|]. split; [exact Hcnt|].
  intros s t Hdue. unfold DatabaseManager._check_mysql_availability.
  rewrite Hdue. simpl.
  repeat split; reflexivity.
Qed.

(** C5, as stated, fails: when the first probe of the process fails,
    and the next one fails again, the most recent check has failed but
    [sqlite_fallback_active] is still clear and no failure was counted. *)
Lemma first_probe_failure_not_fallback :
  let s1 := DatabaseManager.init true true 1000 false in
  let r2 := DatabaseManager._check_mysql_availability true 2000 false s1 in
  DatabaseManager.probes true [(1000, false); (2000, false)] (DatabaseManager.fresh true)
  = [false; false]
  /\ DatabaseManager.mysql_available s1 = false
  /\ DatabaseManager.sqlite_fallback_active s1 = false
  /\ DatabaseManager.connection_retry_count s1 = 0
  /\ DatabaseManager.probed (fst r2) = true
  /\ DatabaseManager.returned (fst r2) = false
  /\ DatabaseManager.mysql_available (snd r2) = false
  /\ DatabaseManager.sqlite_fallback_active (snd r2) = false
  /\ DatabaseManager.connection_retry_count (snd r2) = 0.
Proof. vm_compute. repeat split; reflexivity. Qed.

(** ** One turn of the loop *)

Ltac run_monad :=
  unfold bind, ret, raise, modify, gets, try_except in *.

Ltac rew_hyps :=
  repeat match goal with
         | H : ?l = _ |- context [?l] => rewrite H
         end.

Ltac unfold_sync_record :=
  unfold _sync_record, _handle_insert_sync, _handle_update_sync, _handle_delete_sync,
    _create_conflict_record, _store_conflict_record, _log_sync_message,
    _insert_record_to_mysql, _update_record_in_mysql, _delete_record_from_mysql,
    _get_record_data in *;
  run_monad.

(** Replaying a change writes to the primary store, to the conflict
    table and to the log, and to nothing else. *)
Lemma _sync_record_frame (record : SyncRecord.t) (session_id : Z) (st st' : State)
    (res : exn + option ConflictRecord.t) :
  _sync_record record session_id st = (res, st') ->
  tbl_SyncTracking st' = tbl_SyncTracking st
  /\ sqlite st' = sqlite st
  /\ conflicts st' = conflicts st
  /\ sync_status st' = sync_status st
  /\ clock st' = clock st
  /\ mysql_up st' = mysql_up st
  /\ MYSQL_AVAILABLE st' = MYSQL_AVAILABLE st.
Proof.
  unfold_sync_record. intros H.
  repeat case_match; simplify_eq; simpl; repeat split; reflexivity.
Qed.

(** A change whose replay raises has written nothing. *)
Lemma _sync_record_raises_unchanged (record : SyncRecord.t) (session_id : Z)
    (st st' : State) (e : exn) :
  _sync_record record session_id st = (inl e, st') -> st' = st.
Proof.
  unfold_sync_record. intros H.
  repeat case_match; simplify_eq; reflexivity.
Qed.

Lemma sync_one_conflict (session_id : Z) (record : SyncRecord.t) (counters : nat * nat)
    (st st1 : State) (c : ConflictRecord.t) :
  _sync_record record session_id st = (inr (Some c), st1) ->
  sync_one session_id record counters st
  = (inr (S (fst counters), snd counters), set_conflicts (app (conflicts st1) [c]) st1).
Proof. intros H. unfold sync_one. run_monad. rewrite H. reflexivity. Qed.

Lemma sync_one_synced (session_id : Z) (record : SyncRecord.t) (counters : nat * nat)
    (st st1 : State) :
  _sync_record record session_id st = (inr None, st1) ->
  sync_one session_id record counters st
  = (inr (fst counters, S (snd counters)),
     snd (_mark_record_synced (SyncRecord.table_name record) (SyncRecord.record_id record)
            (SyncRecord.operation record) st1)).
Proof. intros H. unfold sync_one. run_monad. rewrite H. reflexivity. Qed.

Lemma sync_one_failed (session_id : Z) (record : SyncRecord.t) (counters : nat * nat)
    (st st1 : State) (e : exn) :
  _sync_record record session_id st = (inl e, st1) ->
  sync_one session_id record counters st
  = (inr counters,
     snd (_log_sync_message session_id
            ("Failed to sync " ++ change_label record ++ ": " ++ exn_str e) "ERROR" st1)).
Proof. intros H. unfold sync_one. run_monad. rewrite H. reflexivity. Qed.

(** What a detected conflict is made of. *)
Lemma _sync_record_conflict_inv (record : SyncRecord.t) (session_id : Z)
    (st st1 : State) (c : ConflictRecord.t) :
  _sync_record record session_id st = (inr (Some c), st1) ->
  exists (sqlite_data : option Row) (mysql_row : Row),
    fst (_get_record_data sqlite_conn (SyncRecord.table_name record)
           (SyncRecord.record_id record) st) = inr sqlite_data
    /\ fst (_get_record_data mysql_conn (SyncRecord.table_name record)
              (SyncRecord.record_id record) st) = inr (Some mysql_row)
    /\ c = ConflictRecord.mk (SyncRecord.table_name record) (SyncRecord.record_id record)
             sqlite_data (Some mysql_row) (clock st) (clock st) MANUAL false
    /\ st1 = snd (_store_conflict_record c st)
    /\ (SyncRecord.operation record = "INSERT"
        \/ (SyncRecord.operation record = "UPDATE"
            /\ _calculate_data_hash (Some mysql_row) <> SyncRecord.data_hash record)).
Proof.
  unfold_sync_record. intros H.
  repeat case_match; simplify_eq; simpl.
  - eexists _, _. rewrite H. repeat split; try reflexivity.
    left. apply String.eqb_eq. assumption.
  - eexists _, _. rewrite H. repeat split; try reflexivity.
    right. split; [apply String.eqb_eq; assumption|].
    apply String.eqb_neq. apply negb_true_iff. assumption.
Qed.

(** C3, as the code has it: a turn of the loop that detects a conflict
    stores exactly one row in [ConflictResolution]; the row and the
    in-memory record hold the row the secondary store has now and the
    row the primary store has now, with strategy [MANUAL] and not
    resolved.  The turn counts the conflict and appends the record to
    [self.conflicts]; it writes nothing to [SyncTracking], so the
    tracked change keeps the status it had, and nothing to the primary
    store. *)
Theorem conflict_stored_record_not_marked (session_id : Z) (record : SyncRecord.t)
    (counters : nat * nat) (st st1 : State) (c : ConflictRecord.t) :
  _sync_record record session_id st = (inr (Some c), st1) ->
  exists (sqlite_data : option Row) (mysql_row : Row) (row : ConflictRow.row) (st2 : State),
    fst (_get_record_data sqlite_conn (SyncRecord.table_name record)
           (SyncRecord.record_id record) st) = inr sqlite_data
    /\ fst (_get_record_data mysql_conn (SyncRecord.table_name record)
              (SyncRecord.record_id record) st) = inr (Some mysql_row)
    /\ tbl_ConflictResolution st1 = app (tbl_ConflictResolution st) [row]
    /\ ConflictRow.table_name row = SyncRecord.table_name record
    /\ ConflictRow.record_id row = SyncRecord.record_id record
    /\ ConflictRow.sqlite_data row = sqlite_data
    /\ ConflictRow.mysql_data row = Some mysql_row
    /\ ConflictRow.resolution_strategy row = "manual"
    /\ ConflictRow.resolved row = 0
    /\ ConflictRecord.table_name c = SyncRecord.table_name record
    /\ ConflictRecord.record_id c = SyncRecord.record_id record
    /\ ConflictRecord.sqlite_data c = sqlite_data
    /\ ConflictRecord.mysql_data c = Some mysql_row
    /\ ConflictRecord.resolution_strategy c = MANUAL
    /\ ConflictRecord.resolved c = false
    /\ sync_one session_id record counters st
       = (inr (S (fst counters), snd counters), st2)
    /\ conflicts st2 = app (conflicts st) [c]
    /\ tbl_ConflictResolution st2 = tbl_ConflictResolution st1
    /\ tbl_SyncTracking st2 = tbl_SyncTracking st
    /\ mysql st2 = mysql st.
Proof.
  intros H.
  destruct (_sync_record_conflict_inv _ _ _ _ _ H)
    as (sqlite_data & mysql_row & Hs & Hm & Hc & Hst1 & _).
  rewrite (sync_one_conflict _ _ counters _ _ _ H).
  eexists sqlite_data, mysql_row, _, _.
  split; [exact Hs|]. split; [exact Hm|].
  split; [rewrite Hst1; reflexivity|].
  subst c st1. simpl. repeat split; reflexivity.
Qed.

Lemma conflict_stored_record_not_marked_witness :
  exists (row : ConflictRow.row) (st2 : State),
    sync_one 200 (as_record IDLE insert_7) (0%nat, 0%nat) (st_tracked insert_7)
    = (inr (1%nat, 0%nat), st2)
    /\ tbl_ConflictResolution st2 = [row]
    /\ ConflictRow.sqlite_data row = Some row_secondary
    /\ ConflictRow.mysql_data row = Some row_primary
    /\ ConflictRow.resolution_strategy row = "manual"
    /\ ConflictRow.resolved row = 0
    /\ tbl_SyncTracking st2 = [insert_7]
    /\ mysql st2 = mysql (st_tracked insert_7).
Proof.
  destruct (conflict_stored_record_not_marked 200 (as_record IDLE insert_7)
              (0%nat, 0%nat) (st_tracked insert_7)
              (snd (_sync_record (as_record IDLE insert_7) 200 (st_tracked insert_7)))
              (ConflictRecord.mk "Members" 7 (Some row_secondary) (Some row_primary)
                 200 200 MANUAL false))
    as (sqlite_data & mysql_row & row & st2 & Hs & Hm & Htbl & _ & _ & Hsd & Hmd
        & Hstrat & Hres & _ & _ & _ & _ & _ & _ & Hone & _ & Htbl2 & Htrack & Hmysql).
  - vm_compute. reflexivity.
  - exists row, st2. split; [exact Hone|].
    split; [rewrite Htbl2, Htbl; reflexivity|].
    assert (Es : @inr exn (option Row) sqlite_data = inr (Some row_secondary))
      by (rewrite <- Hs; vm_compute; reflexivity).
    assert (Em : @inr exn (option Row) (Some mysql_row) = inr (Some row_primary))
      by (rewrite <- Hm; vm_compute; reflexivity).
    split; [rewrite Hsd; congruence|].
    split; [rewrite Hmd; congruence|].
    split; [exact Hstrat|]. split; [exact Hres|].
    split; [exact Htrack | exact Hmysql].
Defined.

(** C3, as stated, fails: the pending insert of member 7 meets a row in
    the primary store, the turn stores the conflict, and afterwards the
    tracked change still has the status ['pending']; the two timestamps
    of the stored conflict are the time of the session, 200, while the
    change was captured at 100. *)
Lemma conflict_leaves_record_pending :
  let r := sync_one 200 (as_record IDLE insert_7) (0%nat, 0%nat) (st_tracked insert_7) in
  fst r = inr (1%nat, 0%nat)
  /\ map SyncTracking.sync_status (tbl_SyncTracking (st_tracked insert_7)) = ["pending"]
  /\ map SyncTracking.timestamp (tbl_SyncTracking (st_tracked insert_7)) = [100]
  /\ length (tbl_ConflictResolution (snd r)) = 1%nat
  /\ map SyncTracking.sync_status (tbl_SyncTracking (snd r)) = ["pending"]
  /\ map ConflictRow.sqlite_timestamp (tbl_ConflictResolution (snd r)) = [200]
  /\ map ConflictRow.mysql_timestamp (tbl_ConflictResolution (snd r)) = [200].
Proof. vm_compute. repeat split; reflexivity. Qed.

(** ** Replaying an update *)

Lemma apply_set_keeps_key (table_name : string) (data r : Row) :
  apply_set (set_clause table_name data) r !! _get_primary_key_column table_name
  = r !! _get_primary_key_column table_name.
Proof.
  unfold apply_set, set_clause. apply lookup_union_r. apply lookup_delete_eq.
Qed.

Lemma apply_set_column (table_name : string) (data r : Row) (column : string) (v : value) :
  data !! column = Some v ->
  column <> _get_primary_key_column table_name ->
  apply_set (set_clause table_name data) r !! column = Some v.
Proof.
  intros Hd Hne. unfold apply_set, set_clause.
  apply lookup_union_Some_l. rewrite lookup_delete_ne; [exact Hd | congruence].
Qed.

Lemma pk_matches_apply_set (table_name : string) (record_id : Z) (data r : Row) :
  pk_matches table_name record_id (apply_set (set_clause table_name data) r)
  = pk_matches table_name record_id r.
Proof. unfold pk_matches. rewrite apply_set_keeps_key. reflexivity. Qed.

Lemma find_updated (table_name : string) (record_id : Z) (data : Row) (rows : list Row) :
  List.find (pk_matches table_name record_id)
    (map (fun r => if pk_matches table_name record_id r
                   then apply_set (set_clause table_name data) r else r) rows)
  = option_map (apply_set (set_clause table_name data))
      (List.find (pk_matches table_name record_id) rows).
Proof.
  induction rows as [|r rows IH]; [reflexivity|]. simpl.
  destruct (pk_matches table_name record_id r) eqn:E.
  - rewrite pk_matches_apply_set, E. reflexivity.
  - rewrite E. exact IH.
Qed.

Lemma _mark_record_synced_marks (table_name : string) (record_id : Z) (operation : string)
    (st : State) (row : SyncTracking.row) :
  In row (tbl_SyncTracking (snd (_mark_record_synced table_name record_id operation st))) ->
  same_change table_name record_id operation row = true ->
  SyncTracking.sync_status row = "synced".
Proof.
  unfold _mark_record_synced, modify. simpl. intros Hin Hsame.
  apply in_map_iff in Hin as (old & Hrow & _).
  destruct (same_change table_name record_id operation old) eqn:E.
  - subst row. reflexivity.
  - subst row. congruence.
Qed.

Lemma _sync_record_update_conflict (record : SyncRecord.t) (session_id : Z) (st : State)
    (srows mrows : list Row) (m : Row) :
  SyncRecord.operation record = "UPDATE" ->
  sqlite st !! SyncRecord.table_name record = Some srows ->
  mysql st !! SyncRecord.table_name record = Some mrows ->
  List.find (pk_matches (SyncRecord.table_name record) (SyncRecord.record_id record)) mrows
  = Some m ->
  _calculate_data_hash (Some m) <> SyncRecord.data_hash record ->
  let c := ConflictRecord.mk (SyncRecord.table_name record) (SyncRecord.record_id record)
             (List.find (pk_matches (SyncRecord.table_name record)
                           (SyncRecord.record_id record)) srows)
             (Some m) (clock st) (clock st) MANUAL false in
  _sync_record record session_id st = (inr (Some c), snd (_store_conflict_record c st)).
Proof.
  intros Hop Hs Hm Hfind Hne. unfold_sync_record. simpl.
  rewrite Hs, Hm, Hfind, Hop. simpl.
  apply String.eqb_neq in Hne. rewrite Hne. reflexivity.
Qed.

Lemma _sync_record_update_applied (record : SyncRecord.t) (session_id : Z) (st : State)
    (srows mrows : list Row) (m d : Row) :
  SyncRecord.operation record = "UPDATE" ->
  sqlite st !! SyncRecord.table_name record = Some srows ->
  mysql st !! SyncRecord.table_name record = Some mrows ->
  List.find (pk_matches (SyncRecord.table_name record) (SyncRecord.record_id record)) mrows
  = Some m ->
  _calculate_data_hash (Some m) = SyncRecord.data_hash record ->
  List.find (pk_matches (SyncRecord.table_name record) (SyncRecord.record_id record)) srows
  = Some d ->
  set_clause (SyncRecord.table_name record) d <> ∅ ->
  _sync_record record session_id st
  = (inr None,
     snd (_log_sync_message session_id ("Updated " ++ change_label record ++ " in MySQL")
            "INFO"
            (snd (_update_record_in_mysql (SyncRecord.table_name record)
                    (SyncRecord.record_id record) (Some d) st))))
  /\ _update_record_in_mysql (SyncRecord.table_name record) (SyncRecord.record_id record)
       (Some d) st
     = (inr tt,
        set_mysql
          (<[SyncRecord.table_name record :=
               map (fun r => if pk_matches (SyncRecord.table_name record)
                                  (SyncRecord.record_id record) r
                             then apply_set (set_clause (SyncRecord.table_name record) d) r
                             else r) mrows]> (mysql st)) st).
Proof.
  intros Hop Hs Hm Hfind Heq Hd Hset. unfold_sync_record. simpl.
  rewrite Hs, Hm, Hfind, Hd, Hop. simpl.
  apply String.eqb_eq in Heq. rewrite Heq. simpl.
  rewrite (bool_decide_eq_false_2 _ Hset). rewrite Hm. split; reflexivity.
Qed.

(** A turn of the loop on an update whose row exists in the primary
    store.  When the hash of the primary row differs from the hash the
    change recorded, the turn counts one conflict, stores exactly one
    conflict row for this table and record, and leaves the primary store
    as it was.  When the two hashes are equal, the row the secondary
    store has now is sent as an [UPDATE]: the primary row takes every
    column of the secondary row, no conflict is stored, the turn counts
    one synced record and the tracked change is marked ['synced']. *)
Theorem update_conflict_or_applied (session_id : Z) (record : SyncRecord.t)
    (counters : nat * nat) (st : State) (srows mrows : list Row) (m : Row) :
  SyncRecord.operation record = "UPDATE" ->
  sqlite st !! SyncRecord.table_name record = Some srows ->
  mysql st !! SyncRecord.table_name record = Some mrows ->
  List.find (pk_matches (SyncRecord.table_name record) (SyncRecord.record_id record)) mrows
  = Some m ->
  (_calculate_data_hash (Some m) <> SyncRecord.data_hash record ->
   exists (row : ConflictRow.row) (st2 : State),
     sync_one session_id record counters st = (inr (S (fst counters), snd counters), st2)
     /\ tbl_ConflictResolution st2 = app (tbl_ConflictResolution st) [row]
     /\ ConflictRow.table_name row = SyncRecord.table_name record
     /\ ConflictRow.record_id row = SyncRecord.record_id record
     /\ ConflictRow.mysql_data row = Some m
     /\ ConflictRow.sqlite_data row
        = List.find (pk_matches (SyncRecord.table_name record)
                       (SyncRecord.record_id record)) srows
     /\ mysql st2 = mysql st
     /\ tbl_SyncTracking st2 = tbl_SyncTracking st)
  /\ (_calculate_data_hash (Some m) = SyncRecord.data_hash record ->
      forall d : Row,
        List.find (pk_matches (SyncRecord.table_name record)
                     (SyncRecord.record_id record)) srows = Some d ->
        set_clause (SyncRecord.table_name record) d <> ∅ ->
        exists st2 : State,
          sync_one session_id record counters st
          = (inr (fst counters, S (snd counters)), st2)
          /\ mysql st2
             = mysql (snd (_update_record_in_mysql (SyncRecord.table_name record)
                             (SyncRecord.record_id record) (Some d) st))
          /\ fst (_get_record_data mysql_conn (SyncRecord.table_name record)
                    (SyncRecord.record_id record) st2)
             = inr (Some (apply_set (set_clause (SyncRecord.table_name record) d) m))
          /\ (forall column v,
                d !! column = Some v ->
                column <> _get_primary_key_column (SyncRecord.table_name record) ->
                apply_set (set_clause (SyncRecord.table_name record) d) m !! column
                = Some v)
          /\ apply_set (set_clause (SyncRecord.table_name record) d) m
               !! _get_primary_key_column (SyncRecord.table_name record)
             = Some (VInt (SyncRecord.record_id record))
          /\ tbl_ConflictResolution st2 = tbl_ConflictResolution st
          /\ (forall row, In row (tbl_SyncTracking st2) ->
                same_change (SyncRecord.table_name record) (SyncRecord.record_id record)
                  (SyncRecord.operation record) row = true ->
                SyncTracking.sync_status row = "synced")
          /\ length (tbl_SyncTracking st2) = length (tbl_SyncTracking st)).
Proof.
  intros Hop Hs Hm Hfind. split.
  - intros Hne.
    pose proof (_sync_record_update_conflict record session_id st srows mrows m
                  Hop Hs Hm Hfind Hne) as H. simpl in H.
    rewrite (sync_one_conflict _ _ counters _ _ _ H).
    eexists _, _. split; [reflexivity|]. simpl. repeat split; reflexivity.
  - intros Heq d Hd Hset.
    destruct (_sync_record_update_applied record session_id st srows mrows m d
                Hop Hs Hm Hfind Heq Hd Hset) as [H Hupd].
    rewrite (sync_one_synced _ _ counters _ _ H).
    eexists. split; [reflexivity|]. rewrite Hupd. simpl.
    split; [reflexivity|].
    split.
    { unfold _get_record_data. simpl. rewrite lookup_insert_eq.
      rewrite find_updated, Hfind. reflexivity. }
    split; [intros column v Hc Hne; apply apply_set_column; assumption|].
    split.
    { rewrite apply_set_keeps_key. apply find_some in Hfind as [_ Hpk].
      unfold pk_matches in Hpk. apply bool_decide_eq_true_1 in Hpk. exact Hpk. }
    split; [reflexivity|].
    split.
    { intros row Hin Hsame.
      apply in_map_iff in Hin as (old & Hrow & _).
      destruct (same_change _ _ _ old) eqn:E; subst row; [reflexivity | congruence]. }
    apply length_map.
Qed.

Lemma update_conflict_or_applied_witness :
  (exists st2 : State,
     sync_one 200 (as_record IDLE update_7) (0%nat, 0%nat) (st_tracked update_7)
     = (inr (1%nat, 0%nat), st2)
     /\ length (tbl_ConflictResolution st2) = 1%nat
     /\ mysql st2 = mysql (st_tracked update_7))
  /\ (exists st2 : State,
        sync_one 200 (as_record IDLE update_7_in_step) (0%nat, 0%nat)
          (st_tracked update_7_in_step)
        = (inr (0%nat, 1%nat), st2)
        /\ fst (_get_record_data mysql_conn "Members" 7 st2) = inr (Some row_secondary)
        /\ tbl_ConflictResolution st2 = []).
Proof.
  split.
  - destruct (proj1 (update_conflict_or_applied 200 (as_record IDLE update_7)
                       (0%nat, 0%nat) (st_tracked update_7)
                       [row_secondary] [row_primary] row_primary
                       eq_refl eq_refl eq_refl eq_refl))
      as (row & st2 & Hone & Htbl & _ & _ & _ & _ & Hmysql & _).
    + intros H. vm_compute in H. discriminate H.
    + exists st2. split; [exact Hone|]. split; [|exact Hmysql].
      rewrite Htbl. reflexivity.
  - destruct (proj2 (update_conflict_or_applied 200 (as_record IDLE update_7_in_step)
                       (0%nat, 0%nat) (st_tracked update_7_in_step)
                       [row_secondary] [row_primary] row_primary
                       eq_refl eq_refl eq_refl eq_refl)
                eq_refl row_secondary eq_refl)
      as (st2 & Hone & _ & Hread & _ & _ & Htbl & _).
    + intros H. apply (f_equal (fun r : Row => r !! "name")) in H.
      vm_compute in H. discriminate H.
    + exists st2. split; [exact Hone|]. split; [|exact Htbl].
      etransitivity; [exact Hread|]. vm_compute. reflexivity.
Defined.

(** ** A turn that raises *)

Lemma _sync_record_logs_no_error (record : SyncRecord.t) (session_id : Z)
    (st st1 : State) (res : option ConflictRecord.t) :
  _sync_record record session_id st = (inr res, st1) ->
  logged_errors st1 = logged_errors st.
Proof.
  unfold_sync_record. unfold logged_errors. intros H.
  repeat case_match; simplify_eq; simpl;
    try rewrite List.filter_app; simpl; try rewrite app_nil_r; reflexivity.
Qed.

Lemma sync_one_counts (session_id : Z) (record : SyncRecord.t) (counters : nat * nat)
    (st : State) :
  exists (counters' : nat * nat) (st' : State),
    sync_one session_id record counters st = (inr counters', st')
    /\ (fst counters' + snd counters' + logged_errors st'
        = fst counters + snd counters + logged_errors st + 1)%nat.
Proof.
  destruct (_sync_record record session_id st) as [[e|[c|]] st1] eqn:E.
  - rewrite (sync_one_failed _ _ counters _ _ _ E).
    apply _sync_record_raises_unchanged in E. subst st1.
    eexists _, _. split; [reflexivity|].
    unfold logged_errors. simpl. rewrite List.filter_app, length_app. simpl. lia.
  - rewrite (sync_one_conflict _ _ counters _ _ _ E).
    apply _sync_record_logs_no_error in E.
    eexists _, _. split; [reflexivity|].
    unfold logged_errors in *. simpl. lia.
  - rewrite (sync_one_synced _ _ counters _ _ E).
    apply _sync_record_logs_no_error in E.
    eexists _, _. split; [reflexivity|].
    unfold logged_errors in *. simpl. lia.
Qed.

(** The loop never raises, and every record of the list ends as a
    conflict, as synced or as a logged failure. *)
Lemma sync_loop_counts (session_id : Z) (pending_records : list SyncRecord.t) :
  forall (counters : nat * nat) (st : State),
  exists (counters' : nat * nat) (st' : State),
    sync_loop session_id pending_records counters st = (inr counters', st')
    /\ (fst counters' + snd counters' + logged_errors st'
        = fst counters + snd counters + logged_errors st + length pending_records)%nat.
Proof.
  induction pending_records as [|record rest IH]; intros counters st.
  - exists counters, st. split; [reflexivity|]. simpl. lia.
  - destruct (sync_one_counts session_id record counters st) as (c1 & st1 & H1 & Hn1).
    destruct (IH c1 st1) as (c2 & st2 & H2 & Hn2).
    exists c2, st2. split.
    + simpl. unfold bind. rewrite H1. exact H2.
    + simpl. lia.
Qed.

(** In the loop, when replaying one record raises, the turn ends normally: the
    failure is written to the log with level [ERROR], the counters, the
    tracked changes and both stores are as they were, so the record
    keeps its status, and the loop goes on with the records that follow.
    The loop as a whole never raises, and each of its records ends as a
    conflict, as synced, or as a logged failure. *)
Theorem failed_record_is_logged_and_skipped (session_id : Z) (record : SyncRecord.t)
    (rest : list SyncRecord.t) (counters : nat * nat) (st st1 : State) (e : exn) :
  _sync_record record session_id st = (inl e, st1) ->
  exists st2 : State,
    sync_one session_id record counters st = (inr counters, st2)
    /\ tbl_SyncLog st2
       = app (tbl_SyncLog st)
             [SyncLog.mk (next_id (map SyncLog.log_id (tbl_SyncLog st))) session_id
                ("Failed to sync " ++ change_label record ++ ": " ++ exn_str e)
                "ERROR" (clock st)]
    /\ tbl_SyncTracking st2 = tbl_SyncTracking st
    /\ tbl_ConflictResolution st2 = tbl_ConflictResolution st
    /\ conflicts st2 = conflicts st
    /\ mysql st2 = mysql st
    /\ sqlite st2 = sqlite st
    /\ sync_loop session_id (record :: rest) counters st
       = sync_loop session_id rest counters st2
    /\ exists (counters' : nat * nat) (st' : State),
         sync_loop session_id (record :: rest) counters st = (inr counters', st')
         /\ (fst counters' + snd counters' + logged_errors st'
             = fst counters + snd counters + logged_errors st + S (length rest))%nat.
Proof.
  intros H.
  pose proof (_sync_record_raises_unchanged _ _ _ _ _ H) as Hst. subst st1.
  pose proof (sync_one_failed _ _ counters _ _ _ H) as Hone.
  eexists. split; [exact Hone|]. simpl.
  repeat split; try reflexivity.
  - unfold bind. rewrite Hone. reflexivity.
  - exact (sync_loop_counts session_id (record :: rest) counters st).
Qed.

Lemma failed_record_is_logged_and_skipped_witness :
  exists st2 : State,
    sync_one 200 (as_record IDLE insert_8) (0%nat, 0%nat) st_two_changes
    = (inr (0%nat, 0%nat), st2)
    /\ map SyncLog.level (tbl_SyncLog st2) = ["ERROR"]
    /\ tbl_SyncTracking st2 = tbl_SyncTracking st_two_changes
    /\ sync_loop 200 [as_record IDLE insert_8; as_record IDLE update_7_in_step]
         (0%nat, 0%nat) st_two_changes
       = sync_loop 200 [as_record IDLE update_7_in_step] (0%nat, 0%nat) st2
    /\ fst (sync_loop 200 [as_record IDLE insert_8; as_record IDLE update_7_in_step]
              (0%nat, 0%nat) st_two_changes) = inr (0%nat, 1%nat).
Proof.
  destruct (failed_record_is_logged_and_skipped 200 (as_record IDLE insert_8)
              [as_record IDLE update_7_in_step] (0%nat, 0%nat)
              st_two_changes st_two_changes NoneType_has_no_keys)
    as (st2 & Hone & Hlog & Htrack & _ & _ & _ & _ & Hloop & _).
  - vm_compute. reflexivity.
  - exists st2. split; [exact Hone|]. split; [rewrite Hlog; reflexivity|].
    split; [exact Htrack|]. split; [exact Hloop|].
    vm_compute. reflexivity.
Defined.

(** ** Marking a change as synced *)

Create HintDb tracking.

Lemma ignores_tracking_ret {A : Type} (a : A) : ignores_tracking (ret a).
Proof. intros rows st. reflexivity. Qed.

Lemma ignores_tracking_bind {A B : Type} (m : M A) (k : A -> M B) :
  ignores_tracking m -> (forall a, ignores_tracking (k a)) -> ignores_tracking (bind m k).
Proof.
  intros Hm Hk rows st. unfold bind. rewrite Hm.
  destruct (m st) as [[e|a] st']; simpl; [reflexivity | apply Hk].
Qed.

Lemma ignores_tracking_get (conn : Conn) (table_name : string) (record_id : Z) :
  ignores_tracking (_get_record_data conn table_name record_id).
Proof.
  intros rows st. unfold _get_record_data.
  replace (db_of conn (set_SyncTracking rows st)) with (db_of conn st)
    by (destruct conn; reflexivity).
  destruct (db_of conn st !! table_name); reflexivity.
Qed.

Lemma ignores_tracking_insert (table_name : string) (data : option Row) :
  ignores_tracking (_insert_record_to_mysql table_name data).
Proof.
  intros rows st. unfold _insert_record_to_mysql.
  destruct data as [d|]; [|reflexivity].
  change (mysql (set_SyncTracking rows st)) with (mysql st).
  destruct (mysql st !! table_name) as [l|]; [|reflexivity].
  destruct (duplicate_key table_name d l); reflexivity.
Qed.

Lemma ignores_tracking_update (table_name : string) (record_id : Z) (data : option Row) :
  ignores_tracking (_update_record_in_mysql table_name record_id data).
Proof.
  intros rows st. unfold _update_record_in_mysql.
  destruct data as [d|]; [|reflexivity].
  destruct (bool_decide _); [reflexivity|].
  change (mysql (set_SyncTracking rows st)) with (mysql st).
  destruct (mysql st !! table_name) as [l|]; reflexivity.
Qed.

Lemma ignores_tracking_delete (table_name : string) (record_id : Z) :
  ignores_tracking (_delete_record_from_mysql table_name record_id).
Proof.
  intros rows st. unfold _delete_record_from_mysql.
  change (mysql (set_SyncTracking rows st)) with (mysql st).
  destruct (mysql st !! table_name) as [l|]; reflexivity.
Qed.

Lemma ignores_tracking_log (session_id : Z) (message level : string) :
  ignores_tracking (_log_sync_message session_id message level).
Proof. intros rows st. reflexivity. Qed.

Lemma ignores_tracking_create (table_name : string) (record_id : Z)
    (sqlite_data mysql_data : option Row) :
  ignores_tracking (_create_conflict_record table_name record_id sqlite_data mysql_data).
Proof. intros rows st. reflexivity. Qed.

#[local] Hint Resolve ignores_tracking_ret ignores_tracking_get ignores_tracking_insert
  ignores_tracking_update ignores_tracking_delete ignores_tracking_log
  ignores_tracking_create : tracking.

Ltac ignores_tracking_step :=
  match goal with
  | |- ignores_tracking (bind _ _) => apply ignores_tracking_bind; [|intros ?]
  | |- ignores_tracking (if ?b then _ else _) => destruct b
  | |- ignores_tracking (match ?x with Some _ => _ | None => _ end) => destruct x
  | |- ignores_tracking _ => solve [auto with tracking]
  end.

Lemma _sync_record_ignores_tracking (record : SyncRecord.t) (session_id : Z) :
  ignores_tracking (_sync_record record session_id).
Proof.
  unfold _sync_record, _handle_insert_sync, _handle_update_sync, _handle_delete_sync.
  repeat ignores_tracking_step.
Qed.

(** C10: [_mark_record_synced] rewrites every row of [SyncTracking]
    that has the table, the record and the operation it is given,
    whatever the status and the key of the row, and no other row.  So
    when a turn of the loop syncs a record, every tracked change with
    the same three fields is ['synced'] at once; the loop still goes on
    with all the records that follow in the list it fetched, and what a
    turn does with a record does not depend on the tracked changes. *)
Theorem mark_synced_covers_every_matching_row (session_id : Z) (record : SyncRecord.t)
    (rest : list SyncRecord.t) (counters : nat * nat) (st st1 : State) :
  (forall table_name record_id operation (s : State),
     Forall2 (fun old new =>
                if same_change table_name record_id operation old
                then new = mark_synced (clock s) old
                     /\ SyncTracking.sync_status new = "synced"
                else new = old)
             (tbl_SyncTracking s)
             (tbl_SyncTracking (snd (_mark_record_synced table_name record_id operation s))))
  /\ (_sync_record record session_id st = (inr None, st1) ->
      exists st2 : State,
        sync_one session_id record counters st = (inr (fst counters, S (snd counters)), st2)
        /\ (forall row, In row (tbl_SyncTracking st2) ->
              same_change (SyncRecord.table_name record) (SyncRecord.record_id record)
                (SyncRecord.operation record) row = true ->
              SyncTracking.sync_status row = "synced")
        /\ length (tbl_SyncTracking st2) = length (tbl_SyncTracking st)
        /\ sync_loop session_id (record :: rest) counters st
           = sync_loop session_id rest (fst counters, S (snd counters)) st2)
  /\ (forall (r : SyncRecord.t) (rows : list SyncTracking.row) (s : State),
        _sync_record r session_id (set_SyncTracking rows s)
        = (fst (_sync_record r session_id s),
           set_SyncTracking rows (snd (_sync_record r session_id s)))).
Proof.
  split; [|split].
  - intros table_name record_id operation s. unfold _mark_record_synced, modify. simpl.
    induction (tbl_SyncTracking s) as [|row rows IH]; [constructor|].
    simpl. constructor; [|exact IH].
    destruct (same_change table_name record_id operation row); [split|]; reflexivity.
  - intros H.
    pose proof (sync_one_synced _ _ counters _ _ H) as Hone.
    eexists. split; [exact Hone|].
    split; [intros row Hin Hsame; exact (_mark_record_synced_marks _ _ _ _ _ Hin Hsame)|].
    split.
    { unfold _mark_record_synced, modify. simpl. rewrite length_map.
      apply _sync_record_frame in H as [Ht _]. rewrite Ht. reflexivity. }
    simpl. unfold bind. rewrite Hone. reflexivity.
  - intros r rows s. apply (_sync_record_ignores_tracking r session_id).
Qed.

Lemma mark_synced_covers_every_matching_row_witness :
  exists st2 : State,
    sync_one 200 (as_record IDLE update_7_in_step) (0%nat, 0%nat) st_twice_tracked
    = (inr (0%nat, 1%nat), st2)
    /\ map SyncTracking.sync_status (tbl_SyncTracking st_twice_tracked)
       = ["pending"; "pending"]
    /\ map SyncTracking.sync_status (tbl_SyncTracking st2) = ["synced"; "synced"]
    /\ sync_loop 200 [as_record IDLE update_7_in_step; as_record IDLE update_7_again]
         (0%nat, 0%nat) st_twice_tracked
       = sync_loop 200 [as_record IDLE update_7_again] (0%nat, 1%nat) st2
    /\ fst (sync_loop 200 [as_record IDLE update_7_again] (0%nat, 1%nat) st2)
       = inr (1%nat, 1%nat).
Proof.
  destruct (proj1 (proj2 (mark_synced_covers_every_matching_row 200
                            (as_record IDLE update_7_in_step)
                            [as_record IDLE update_7_again] (0%nat, 0%nat)
                            st_twice_tracked
                            (snd (_sync_record (as_record IDLE update_7_in_step) 200
                                    st_twice_tracked)))))
    as (st2 & Hone & _ & _ & Hloop).
  - vm_compute. reflexivity.
  - exists st2. split; [exact Hone|].
    assert (Hst2 : st2 = snd (sync_one 200 (as_record IDLE update_7_in_step)
                                (0%nat, 0%nat) st_twice_tracked))
      by (rewrite Hone; reflexivity).
    split; [vm_compute; reflexivity|].
    split; [rewrite Hst2; vm_compute; reflexivity|].
    split; [exact Hloop|].
    rewrite Hst2. vm_compute. reflexivity.
Defined.

(** ** Fetching the pending changes *)

Lemma insert_by_timestamp_perm (row : SyncTracking.row) (l : list SyncTracking.row) :
  Permutation (insert_by_timestamp row l) (row :: l).
Proof.
  induction l as [|x l IH]; [reflexivity|]. simpl.
  destruct (Z.leb _ _); [reflexivity|].
  rewrite IH. apply perm_swap.
Qed.

Lemma insert_by_timestamp_sorted (row : SyncTracking.row) (l : list SyncTracking.row) :
  Sorted (fun a b => (SyncTracking.timestamp a <= SyncTracking.timestamp b)%Z) l ->
  Sorted (fun a b => (SyncTracking.timestamp a <= SyncTracking.timestamp b)%Z)
         (insert_by_timestamp row l).
Proof.
  induction l as [|x l IH]; intros Hs.
  - repeat constructor.
  - simpl. destruct (Z.leb_spec (SyncTracking.timestamp row) (SyncTracking.timestamp x)).
    + constructor; [exact Hs | constructor; assumption].
    + inversion Hs as [|? ? Hl Hhd]; subst.
      constructor; [apply IH; exact Hl|].
      destruct l as [|y l]; simpl.
      * constructor. lia.
      * destruct (Z.leb _ _); constructor; [lia|].
        inversion Hhd; subst. assumption.
Qed.

Lemma insertion_sorted (l : list SyncTracking.row) :
  Sorted (fun a b => (SyncTracking.timestamp a <= SyncTracking.timestamp b)%Z)
         (fold_right insert_by_timestamp [] l).
Proof.
  induction l as [|row l IH]; [constructor|].
  simpl. apply insert_by_timestamp_sorted. exact IH.
Qed.

Lemma insertion_perm (l : list SyncTracking.row) :
  Permutation (fold_right insert_by_timestamp [] l) l.
Proof.
  induction l as [|row l IH]; [reflexivity|].
  simpl. rewrite insert_by_timestamp_perm. apply perm_skip. exact IH.
Qed.

(** The stable scan is one of the answers the statement allows. *)
Lemma pending_scan_answer (rows : list SyncTracking.row) :
  pending_answer rows (pending_scan rows).
Proof.
  unfold pending_answer, pending_scan.
  split; [apply insertion_perm | apply insertion_sorted].
Qed.

Lemma insert_by_timestamp_stable (t : Z) (row : SyncTracking.row)
    (l : list SyncTracking.row) :
  Sorted (fun a b => (SyncTracking.timestamp a <= SyncTracking.timestamp b)%Z) l ->
  List.filter (fun r => Z.eqb (SyncTracking.timestamp r) t) (insert_by_timestamp row l)
  = List.filter (fun r => Z.eqb (SyncTracking.timestamp r) t) (row :: l).
Proof.
  induction l as [|x l IH]; intros Hs; [reflexivity|].
  simpl. destruct (Z.leb_spec (SyncTracking.timestamp row) (SyncTracking.timestamp x)).
  - reflexivity.
  - inversion Hs as [|? ? Hl Hhd]; subst. simpl. rewrite (IH Hl). simpl.
    destruct (Z.eqb_spec (SyncTracking.timestamp x) t);
      destruct (Z.eqb_spec (SyncTracking.timestamp row) t); try reflexivity.
    lia.
Qed.

(** In the stable scan, changes with equal timestamps keep the order of
    the table, which is the order of insertion. *)
Lemma pending_scan_stable (t : Z) (rows : list SyncTracking.row) :
  List.filter (fun r => Z.eqb (SyncTracking.timestamp r) t) (pending_scan rows)
  = List.filter (fun r => Z.eqb (SyncTracking.timestamp r) t) (List.filter is_pending rows).
Proof.
  unfold pending_scan.
  induction (List.filter is_pending rows) as [|row l IH]; [reflexivity|].
  simpl fold_right. rewrite insert_by_timestamp_stable by apply insertion_sorted.
  simpl. rewrite IH. reflexivity.
Qed.

(** A pending row cannot be turned into a [SyncRecord]: ['pending'] is
    not the value of a member of [SyncStatus]. *)
Lemma SyncRecord_of_pending_row (row : SyncTracking.row) :
  is_pending row = true ->
  SyncRecord_of_row row = inl (ValueError "'pending' is not a valid SyncStatus").
Proof.
  unfold is_pending. intros H. apply String.eqb_eq in H.
  unfold SyncRecord_of_row. rewrite H. reflexivity.
Qed.

Lemma _get_pending_sync_records_raises (st : State) (row : SyncTracking.row) :
  In row (tbl_SyncTracking st) ->
  is_pending row = true ->
  _get_pending_sync_records st
  = (inl (ValueError "'pending' is not a valid SyncStatus"), st).
Proof.
  intros Hin Hp. unfold _get_pending_sync_records. f_equal.
  assert (Hf : In row (List.filter is_pending (tbl_SyncTracking st)))
    by (apply filter_In; split; assumption).
  pose proof (insertion_perm (List.filter is_pending (tbl_SyncTracking st))) as Hperm.
  fold (pending_scan (tbl_SyncTracking st)) in Hperm.
  assert (Hall : Forall (fun r => is_pending r = true) (pending_scan (tbl_SyncTracking st))).
  { apply List.Forall_forall. intros r Hr.
    apply (Permutation_in _ Hperm) in Hr. apply filter_In in Hr. tauto. }
  apply (Permutation_in _ (Permutation_sym Hperm)) in Hf.
  destruct (pending_scan (tbl_SyncTracking st)) as [|first rest]; [destruct Hf|].
  inversion Hall as [|? ? Hfirst _]; subst.
  simpl. rewrite (SyncRecord_of_pending_row first Hfirst). reflexivity.
Qed.

(** The entry point as it is written: with a pending change in the
    table the fetch raises before the loop is reached; the session is
    logged as failed, its status is [ERROR], it returns [False], and
    neither the stores nor the tracked changes nor the conflicts have
    changed. *)
Lemma synchronize_databases_fetch_raises (st : State) (row : SyncTracking.row) :
  In row (tbl_SyncTracking st) ->
  is_pending row = true ->
  sync_status st <> SYNCING ->
  MYSQL_AVAILABLE st = true ->
  exists st' : State,
    synchronize_databases st = (inr false, st')
    /\ sync_status st' = ERROR
    /\ map SyncLog.message (tbl_SyncLog st')
       = app (map SyncLog.message (tbl_SyncLog st))
             ["Starting database synchronization";
              "Synchronization failed: 'pending' is not a valid SyncStatus"]
    /\ tbl_SyncTracking st' = tbl_SyncTracking st
    /\ tbl_ConflictResolution st' = tbl_ConflictResolution st
    /\ conflicts st' = conflicts st
    /\ mysql st' = mysql st
    /\ sqlite st' = sqlite st.
Proof.
  intros Hin Hp Hs Ha. unfold synchronize_databases.
  rewrite (bool_decide_eq_false_2 _ Hs), Ha.
  cbn [negb]. unfold bind at 1. unfold modify at 1. cbv beta iota.
  unfold try_except. unfold bind at 1. unfold _log_sync_message at 1.
  unfold modify at 1. cbv beta iota. unfold bind at 1.
  match goal with
  | |- context [_get_pending_sync_records ?s] =>
      rewrite (_get_pending_sync_records_raises s row Hin Hp)
  end.
  eexists. split; [reflexivity|]. simpl.
  repeat split; try reflexivity.
  rewrite !map_app. simpl. rewrite <- app_assoc. reflexivity.
Qed.

(** ** The order of replay, and what is written *)

Lemma sync_loop_app (session_id : Z) (l1 l2 : list SyncRecord.t) :
  forall (counters : nat * nat) (st : State),
    sync_loop session_id (app l1 l2) counters st
    = bind (sync_loop session_id l1 counters)
           (fun counters1 => sync_loop session_id l2 counters1) st.
Proof.
  induction l1 as [|r l1 IH]; intros counters st; [reflexivity|].
  simpl. unfold bind.
  destruct (sync_one session_id r counters st) as [[e|c1] st1]; [reflexivity|].
  rewrite IH. reflexivity.
Qed.

(** What replaying one change writes to the primary store: nothing, or
    the row the secondary store has now, as an insert or as an update,
    or the deletion of the row. *)
Lemma _sync_record_writes (record : SyncRecord.t) (session_id : Z) (st st1 : State)
    (res : exn + option ConflictRecord.t) :
  _sync_record record session_id st = (res, st1) ->
  mysql st1 = mysql st
  \/ (exists d : Row,
        fst (_get_record_data sqlite_conn (SyncRecord.table_name record)
               (SyncRecord.record_id record) st) = inr (Some d)
        /\ (_insert_record_to_mysql (SyncRecord.table_name record) (Some d) st
            = (inr tt, set_mysql (mysql st1) st)
            \/ _update_record_in_mysql (SyncRecord.table_name record)
                 (SyncRecord.record_id record) (Some d) st
               = (inr tt, set_mysql (mysql st1) st)))
  \/ (SyncRecord.operation record = "DELETE"
      /\ _delete_record_from_mysql (SyncRecord.table_name record)
           (SyncRecord.record_id record) st
         = (inr tt, set_mysql (mysql st1) st)).
Proof.
  intros H.
  unfold _sync_record, _handle_insert_sync, _handle_update_sync, _handle_delete_sync,
    _create_conflict_record, _store_conflict_record, _log_sync_message,
    _insert_record_to_mysql, _update_record_in_mysql, _delete_record_from_mysql,
    _get_record_data, bind, ret, raise, modify, gets in H.
  cbn [db_of] in H.
  repeat case_match; simplify_eq; simpl;
    first
      [ left; reflexivity
      | right; left; eexists; split;
        [unfold _get_record_data; cbn [db_of]; rew_hyps; reflexivity|];
        left; unfold _insert_record_to_mysql; rew_hyps; reflexivity
      | right; left; eexists; split;
        [unfold _get_record_data; cbn [db_of]; rew_hyps; reflexivity|];
        right; unfold _update_record_in_mysql; rew_hyps; reflexivity
      | right; right; split; [apply String.eqb_eq; assumption|];
        unfold _delete_record_from_mysql; rew_hyps; reflexivity ].
Qed.

Lemma sync_one_writes (session_id : Z) (record : SyncRecord.t) (counters : nat * nat)
    (st : State) :
  mysql (snd (sync_one session_id record counters st))
  = mysql (snd (_sync_record record session_id st)).
Proof.
  destruct (_sync_record record session_id st) as [[e|[c|]] st1] eqn:E.
  - rewrite (sync_one_failed _ _ counters _ _ _ E). reflexivity.
  - rewrite (sync_one_conflict _ _ counters _ _ _ E). reflexivity.
  - rewrite (sync_one_synced _ _ counters _ _ E). reflexivity.
Qed.

(** C9, as the code has it.  The statement that fetches the pending
    changes orders them by timestamp and by nothing else: an answer is
    the pending rows in ascending order of timestamp, the stable scan of
    the table is such an answer and keeps changes of equal timestamp in
    the order of insertion, but the statement does not ask for that
    order.  The loop replays the records in the order of the list it was
    given.  What a turn writes to the primary store is nothing, or the
    row the secondary store has at that moment, inserted or sent as an
    update, or the deletion of the row. *)
Theorem pending_replayed_in_timestamp_order (rows : list SyncTracking.row)
    (session_id : Z) (l1 l2 : list SyncRecord.t) (record : SyncRecord.t)
    (counters : nat * nat) (st : State) :
  pending_answer rows (pending_scan rows)
  /\ Sorted (fun a b => (SyncTracking.timestamp a <= SyncTracking.timestamp b)%Z)
            (pending_scan rows)
  /\ Permutation (pending_scan rows) (List.filter is_pending rows)
  /\ (forall t : Z,
        List.filter (fun r => Z.eqb (SyncTracking.timestamp r) t) (pending_scan rows)
        = List.filter (fun r => Z.eqb (SyncTracking.timestamp r) t)
            (List.filter is_pending rows))
  /\ sync_loop session_id (app l1 l2) counters st
     = bind (sync_loop session_id l1 counters)
            (fun counters1 => sync_loop session_id l2 counters1) st
  /\ (let st1 := snd (sync_one session_id record counters st) in
      mysql st1 = mysql st
      \/ (exists d : Row,
            fst (_get_record_data sqlite_conn (SyncRecord.table_name record)
                   (SyncRecord.record_id record) st) = inr (Some d)
            /\ (_insert_record_to_mysql (SyncRecord.table_name record) (Some d) st
                = (inr tt, set_mysql (mysql st1) st)
                \/ _update_record_in_mysql (SyncRecord.table_name record)
                     (SyncRecord.record_id record) (Some d) st
                   = (inr tt, set_mysql (mysql st1) st)))
      \/ (SyncRecord.operation record = "DELETE"
          /\ _delete_record_from_mysql (SyncRecord.table_name record)
               (SyncRecord.record_id record) st
             = (inr tt, set_mysql (mysql st1) st))).
Proof.
  pose proof (pending_scan_answer rows) as Hans.
  split; [exact Hans|]. destruct Hans as [Hperm Hsorted].
  split; [exact Hsorted|]. split; [exact Hperm|].
  split; [intros t; apply pending_scan_stable|].
  split; [apply sync_loop_app|].
  cbv zeta. rewrite sync_one_writes.
  destruct (_sync_record record session_id st) as [res st1] eqn:E.
  exact (_sync_record_writes _ _ _ _ _ E).
Qed.

(** C9, as stated, fails twice.  The deletion and the new insert of
    member 7 carry the same timestamp; the insert before the deletion is
    an answer the statement allows, and replayed in that order the
    primary store ends without member 7, while in the order of insertion
    it ends with the row of the secondary store.  And with two updates
    replayed in the order of capture, both meet a conflict and the
    primary store ends with its own row, which is not the last row of
    the secondary store. *)
Lemma replay_order_and_result_not_fixed :
  let final := fun (st : State) (answer : list SyncTracking.row) =>
    fst (_get_record_data mysql_conn "Members" 7
           (snd (sync_loop 200 (map (as_record IDLE) answer) (0%nat, 0%nat) st))) in
  pending_answer (tbl_SyncTracking st_delete_reinsert) [reinsert_7; delete_7]
  /\ SyncTracking.timestamp delete_7 = SyncTracking.timestamp reinsert_7
  /\ (SyncTracking.sync_id delete_7 < SyncTracking.sync_id reinsert_7)%Z
  /\ fst (_get_record_data sqlite_conn "Members" 7 st_delete_reinsert)
     = inr (Some row_secondary)
  /\ final st_delete_reinsert [delete_7; reinsert_7] = inr (Some row_secondary)
  /\ final st_delete_reinsert [reinsert_7; delete_7] = inr None
  /\ pending_scan (tbl_SyncTracking st_two_updates) = [update_7_interim; update_7_later]
  /\ fst (sync_loop 200 (map (as_record IDLE) [update_7_interim; update_7_later])
            (0%nat, 0%nat) st_two_updates) = inr (2%nat, 0%nat)
  /\ fst (_get_record_data sqlite_conn "Members" 7 st_two_updates)
     = inr (Some row_secondary)
  /\ final st_two_updates [update_7_interim; update_7_later] = inr (Some row_primary)
  /\ row_primary <> row_secondary.
Proof.
  cbv zeta. split.
  { split.
    - apply perm_swap.
    - repeat constructor. vm_compute. discriminate. }
  repeat split; try (vm_compute; reflexivity).
  intros H. apply (f_equal (fun m : Row => m !! "name")) in H.
  vm_compute in H. discriminate H.
Qed.

(** ** Two passes in a row *)

Lemma evolves_refl (row : SyncTracking.row) : evolves row row.
Proof. left. reflexivity. Qed.

Lemma evolves_trans (a b c : SyncTracking.row) :
  evolves a b -> evolves b c -> evolves a c.
Proof.
  intros [Hab | [n1 Hab]] [Hbc | [n2 Hbc]]; subst.
  - left. reflexivity.
  - right. exists n2. reflexivity.
  - right. exists n1. reflexivity.
  - right. exists n2. reflexivity.
Qed.

Lemma evolves_pending (old new : SyncTracking.row) :
  evolves old new -> is_pending new = true -> new = old.
Proof.
  intros [H | [now H]] Hp; [exact H|].
  subst new. unfold is_pending in Hp. simpl in Hp. discriminate Hp.
Qed.

Lemma evolves_same_change (table_name : string) (record_id : Z) (operation : string)
    (old new : SyncTracking.row) :
  evolves old new ->
  same_change table_name record_id operation new
  = same_change table_name record_id operation old.
Proof. intros [H | [now H]]; subst; reflexivity. Qed.

Lemma evolves_synced (old new : SyncTracking.row) :
  evolves old new ->
  SyncTracking.sync_status old = "synced" -> SyncTracking.sync_status new = "synced".
Proof. intros [H | [now H]] Hs; subst; [exact Hs | reflexivity]. Qed.

Lemma Forall2_evolves_refl (rows : list SyncTracking.row) : Forall2 evolves rows rows.
Proof. induction rows; constructor; [apply evolves_refl | assumption]. Qed.

Lemma Forall2_evolves_trans (l1 l2 l3 : list SyncTracking.row) :
  Forall2 evolves l1 l2 -> Forall2 evolves l2 l3 -> Forall2 evolves l1 l3.
Proof.
  intros H12. revert l3. induction H12 as [|a b l1 l2 Hab _ IH]; intros l3 H23.
  - inversion H23. constructor.
  - inversion H23 as [|? c ? l3' Hbc H23']; subst.
    constructor; [exact (evolves_trans _ _ _ Hab Hbc) | apply IH; exact H23'].
Qed.

Lemma Forall2_evolves_in (before after : list SyncTracking.row) (row : SyncTracking.row) :
  Forall2 evolves before after -> In row after ->
  exists old, In old before /\ evolves old row.
Proof.
  induction 1 as [|a b l1 l2 Hab _ IH]; intros Hin; [destruct Hin|].
  destruct Hin as [-> | Hin].
  - exists a. split; [left; reflexivity | exact Hab].
  - destruct (IH Hin) as (old & Ho & He). exists old. split; [right; exact Ho | exact He].
Qed.

Lemma _mark_record_synced_evolves (table_name : string) (record_id : Z)
    (operation : string) (st : State) :
  Forall2 evolves (tbl_SyncTracking st)
    (tbl_SyncTracking (snd (_mark_record_synced table_name record_id operation st))).
Proof.
  unfold _mark_record_synced, modify. simpl.
  induction (tbl_SyncTracking st) as [|row rows IH]; [constructor|].
  simpl. constructor; [|exact IH].
  destruct (same_change table_name record_id operation row);
    [right; eexists; reflexivity | left; reflexivity].
Qed.

(** What one turn does to the counters, to the failures logged and to
    the tracked changes. *)
Lemma sync_one_cases (session_id : Z) (record : SyncRecord.t) (counters : nat * nat)
    (st : State) :
  exists (counters1 : nat * nat) (st1 : State),
    sync_one session_id record counters st = (inr counters1, st1)
    /\ Forall2 evolves (tbl_SyncTracking st) (tbl_SyncTracking st1)
    /\ ((fst counters1 = fst counters /\ logged_errors st1 = S (logged_errors st))
        \/ (fst counters1 = S (fst counters) /\ logged_errors st1 = logged_errors st)
        \/ (fst counters1 = fst counters /\ logged_errors st1 = logged_errors st
            /\ exists st0, _sync_record record session_id st = (inr None, st0)
            /\ forall row, In row (tbl_SyncTracking st1) ->
                 same_change (SyncRecord.table_name record) (SyncRecord.record_id record)
                   (SyncRecord.operation record) row = true ->
                 SyncTracking.sync_status row = "synced")).
Proof.
  destruct (_sync_record record session_id st) as [[e|[c|]] st0] eqn:E.
  - rewrite (sync_one_failed _ _ counters _ _ _ E).
    apply _sync_record_raises_unchanged in E. subst st0.
    eexists _, _. split; [reflexivity|]. simpl.
    split; [apply Forall2_evolves_refl|]. left. split; [reflexivity|].
    unfold logged_errors. simpl. rewrite List.filter_app, length_app. simpl. lia.
  - rewrite (sync_one_conflict _ _ counters _ _ _ E).
    pose proof (_sync_record_logs_no_error _ _ _ _ _ E) as Herr.
    apply _sync_record_frame in E as [Ht _].
    eexists _, _. split; [reflexivity|]. simpl.
    split; [rewrite Ht; apply Forall2_evolves_refl|].
    right. left. split; [reflexivity | exact Herr].
  - rewrite (sync_one_synced _ _ counters _ _ E).
    pose proof (_sync_record_logs_no_error _ _ _ _ _ E) as Herr.
    pose proof (_sync_record_frame _ _ _ _ _ E) as [Ht _].
    eexists _, _. split; [reflexivity|].
    split; [rewrite <- Ht; apply _mark_record_synced_evolves|].
    right. right. split; [reflexivity|]. split; [exact Herr|].
    exists st0. split; [reflexivity|].
    intros row Hin Hsame. exact (_mark_record_synced_marks _ _ _ _ _ Hin Hsame).
Qed.

Lemma sync_loop_evolves (session_id : Z) (pending_records : list SyncRecord.t) :
  forall (counters counters' : nat * nat) (st st' : State),
    sync_loop session_id pending_records counters st = (inr counters', st') ->
    Forall2 evolves (tbl_SyncTracking st) (tbl_SyncTracking st')
    /\ (fst counters <= fst counters')%nat
    /\ (logged_errors st <= logged_errors st')%nat.
Proof.
  induction pending_records as [|record rest IH]; intros counters counters' st st' H.
  - simpl in H. unfold ret in H. injection H as <- <-.
    split; [apply Forall2_evolves_refl | lia].
  - simpl in H. unfold bind in H.
    destruct (sync_one_cases session_id record counters st)
      as (c1 & st1 & Hone & Hev & Hcases).
    rewrite Hone in H. apply IH in H as (Hev' & Hc & He).
    split; [exact (Forall2_evolves_trans _ _ _ Hev Hev')|].
    destruct Hcases as [[? ?] | [[? ?] | (? & ? & _)]]; lia.
Qed.

Lemma synced_stays (table_name : string) (record_id : Z) (operation : string)
    (before after : list SyncTracking.row) :
  Forall2 evolves before after ->
  (forall row, In row before ->
     same_change table_name record_id operation row = true ->
     SyncTracking.sync_status row = "synced") ->
  forall row, In row after ->
    same_change table_name record_id operation row = true ->
    SyncTracking.sync_status row = "synced".
Proof.
  intros Hev Hbefore row Hin Hsame.
  destruct (Forall2_evolves_in _ _ _ Hev Hin) as (old & Hold & He).
  apply (evolves_synced old row He). apply Hbefore; [exact Hold|].
  rewrite <- (evolves_same_change _ _ _ _ _ He). exact Hsame.
Qed.

(** A pass that found no conflict and logged no failure has marked
    every change that shares table, record and operation with one of its
    records. *)
Lemma clean_pass_marks_all (session_id : Z) (pending_records : list SyncRecord.t) :
  forall (counters counters' : nat * nat) (st st' : State),
    sync_loop session_id pending_records counters st = (inr counters', st') ->
    fst counters' = fst counters ->
    logged_errors st' = logged_errors st ->
    forall record row,
      In record pending_records -> In row (tbl_SyncTracking st') ->
      same_change (SyncRecord.table_name record) (SyncRecord.record_id record)
        (SyncRecord.operation record) row = true ->
      SyncTracking.sync_status row = "synced".
Proof.
  induction pending_records as [|first rest IH];
    intros counters counters' st st' H Hc He record row Hrec Hrow Hsame;
    [destruct Hrec|].
  simpl in H. unfold bind in H.
  destruct (sync_one_cases session_id first counters st)
    as (c1 & st1 & Hone & _ & Hcases).
  rewrite Hone in H.
  pose proof (sync_loop_evolves _ _ _ _ _ _ H) as (Hev & Hmono & Hemono).
  destruct Hcases as [[? ?] | [[? ?] | (Hc1 & He1 & st0 & _ & Hmarked)]]; try lia.
  destruct Hrec as [<- | Hrec].
  - exact (synced_stays _ _ _ _ _ Hev Hmarked row Hrow Hsame).
  - apply (IH c1 counters' st1 st' H ltac:(lia) ltac:(lia) record row Hrec Hrow Hsame).
Qed.

Lemma same_change_own (status : SyncStatus) (row : SyncTracking.row) :
  same_change (SyncRecord.table_name (as_record status row))
    (SyncRecord.record_id (as_record status row))
    (SyncRecord.operation (as_record status row)) row = true.
Proof.
  unfold same_change, as_record. simpl.
  rewrite !String.eqb_refl, Z.eqb_refl. reflexivity.
Qed.

Lemma pending_answer_in (rows answer : list SyncTracking.row) (row : SyncTracking.row) :
  pending_answer rows answer ->
  (In row answer <-> In row rows /\ is_pending row = true).
Proof.
  intros [Hperm _]. rewrite <- filter_In. split; intros H.
  - exact (Permutation_in _ Hperm H).
  - exact (Permutation_in _ (Permutation_sym Hperm) H).
Qed.

(** A tracked change is still in the table after a pass, as it was,
    unless the pass synced a record with its table, record and
    operation. *)
Lemma rows_stay_or_synced (session_id : Z) (status : SyncStatus)
    (answer : list SyncTracking.row) :
  forall (counters counters' : nat * nat) (st st' : State),
    sync_loop session_id (map (as_record status) answer) counters st
    = (inr counters', st') ->
    forall row, In row (tbl_SyncTracking st) ->
      In row (tbl_SyncTracking st')
      \/ exists (l1 l2 : list SyncTracking.row) (row' : SyncTracking.row)
                (counters_mid : nat * nat) (st_mid : State),
           answer = app l1 (row' :: l2)
           /\ sync_loop session_id (map (as_record status) l1) counters st
              = (inr counters_mid, st_mid)
           /\ fst (_sync_record (as_record status row') session_id st_mid) = inr None
           /\ same_change (SyncTracking.table_name row') (SyncTracking.record_id row')
                (SyncTracking.operation row') row = true.
Proof.
  induction answer as [|a rest IH]; intros counters counters' st st' H row Hin.
  - simpl in H. unfold ret in H. injection H as <- <-. left. exact Hin.
  - simpl in H. unfold bind in H.
    assert (Hnext : forall (c1 : nat * nat) (st1 : State),
               sync_one session_id (as_record status a) counters st = (inr c1, st1) ->
               In row (tbl_SyncTracking st1) ->
               In row (tbl_SyncTracking st')
               \/ exists l1 l2 row' counters_mid st_mid,
                    a :: rest = app l1 (row' :: l2)
                    /\ sync_loop session_id (map (as_record status) l1) counters st
                       = (inr counters_mid, st_mid)
                    /\ fst (_sync_record (as_record status row') session_id st_mid)
                       = inr None
                    /\ same_change (SyncTracking.table_name row')
                         (SyncTracking.record_id row') (SyncTracking.operation row') row
                       = true).
    { intros c1 st1 Hone Hin1. rewrite Hone in H.
      destruct (IH c1 counters' st1 st' H row Hin1)
        as [Hl | (l1 & l2 & row' & cm & sm & Heq & Hloop & Hs & Hsame)];
        [left; exact Hl|].
      right. exists (a :: l1), l2, row', cm, sm.
      split; [rewrite Heq; reflexivity|].
      split; [simpl; unfold bind; rewrite Hone; exact Hloop|].
      split; assumption. }
    destruct (_sync_record (as_record status a) session_id st) as [[e|[c|]] st0] eqn:E.
    + apply (Hnext _ _ (sync_one_failed _ _ counters _ _ _ E)).
      apply _sync_record_raises_unchanged in E. subst st0. exact Hin.
    + apply (Hnext _ _ (sync_one_conflict _ _ counters _ _ _ E)).
      apply _sync_record_frame in E as [Ht _]. simpl. rewrite Ht. exact Hin.
    + destruct (same_change (SyncTracking.table_name a) (SyncTracking.record_id a)
                  (SyncTracking.operation a) row) eqn:Hsame.
      * right. exists [], rest, a, counters, st.
        split; [reflexivity|]. split; [reflexivity|].
        split; [rewrite E; reflexivity | exact Hsame].
      * apply (Hnext _ _ (sync_one_synced _ _ counters _ _ E)).
        apply _sync_record_frame in E as [Ht _].
        unfold _mark_record_synced, modify. simpl. rewrite Ht.
        apply in_map_iff. exists row. split; [|exact Hin].
        unfold as_record. simpl. rewrite Hsame. reflexivity.
Qed.

(** The loop, twice in a row.  Replay the pending changes, then fetch
    again with nothing written in between.  The second answer holds
    exactly the changes of the first answer that do not share table,
    record and operation with a record the first pass synced.  So the
    changes on which the first pass found a conflict or raised are
    fetched and replayed again, unless such a record was synced; and
    when the first pass found no conflict and logged no failure, the
    second answer is empty. *)
Theorem second_pass_replays_only_unsynced (session_id : Z) (status : SyncStatus)
    (st st1 : State) (answer answer2 : list SyncTracking.row) (counters : nat * nat) :
  pending_answer (tbl_SyncTracking st) answer ->
  sync_loop session_id (map (as_record status) answer) (0%nat, 0%nat) st
  = (inr counters, st1) ->
  pending_answer (tbl_SyncTracking st1) answer2 ->
  (forall row,
     In row answer2
     <-> In row answer /\ ~ synced_in_pass session_id status st answer row)
  /\ (fst counters = 0%nat -> logged_errors st1 = logged_errors st -> answer2 = []).
Proof.
  intros Hans Hloop Hans2.
  pose proof (sync_loop_evolves _ _ _ _ _ _ Hloop) as (Hev & _ & _).
  assert (Hback : forall row, In row answer2 ->
            In row (tbl_SyncTracking st1) /\ is_pending row = true /\ In row answer).
  { intros row Hin2. apply (pending_answer_in _ _ row Hans2) in Hin2 as [Hin1 Hp].
    split; [exact Hin1|]. split; [exact Hp|].
    destruct (Forall2_evolves_in _ _ _ Hev Hin1) as (old & Hold & He).
    apply (evolves_pending _ _ He) in Hp as Heq. subst old.
    apply (pending_answer_in _ _ row Hans). split; assumption. }
  split.
  - intros row. split.
    + intros Hin2. destruct (Hback row Hin2) as (Hin1 & Hp & Hin). split; [exact Hin|].
      intros (l1 & l2 & row' & counters_mid & st_mid & Hsplit & Hmid & Hsynced & Hsame).
      subst answer. rewrite map_app, sync_loop_app in Hloop.
      unfold bind in Hloop. rewrite Hmid in Hloop. simpl in Hloop. unfold bind in Hloop.
      destruct (_sync_record (as_record status row') session_id st_mid)
        as [res st0] eqn:E.
      simpl in Hsynced. subst res.
      rewrite (sync_one_synced _ _ counters_mid _ _ E) in Hloop.
      pose proof (sync_loop_evolves _ _ _ _ _ _ Hloop) as (Hev' & _ & _).
      assert (Hs : SyncTracking.sync_status row = "synced").
      { apply (synced_stays (SyncTracking.table_name row') (SyncTracking.record_id row')
                 (SyncTracking.operation row') _ _ Hev'); [|exact Hin1 | exact Hsame].
        intros r Hr Hsr. exact (_mark_record_synced_marks _ _ _ _ _ Hr Hsr). }
      unfold is_pending in Hp. rewrite Hs in Hp. discriminate Hp.
    + intros [Hin Hnot].
      apply (pending_answer_in _ _ row Hans) in Hin as [Hin0 Hp].
      apply (pending_answer_in _ _ row Hans2). split; [|exact Hp].
      destruct (rows_stay_or_synced session_id status answer _ _ _ _ Hloop row Hin0)
        as [Hstay | Hsynced]; [exact Hstay|].
      exfalso. apply Hnot. exact Hsynced.
  - intros Hc He. destruct answer2 as [|row2 rest]; [reflexivity|]. exfalso.
    destruct (Hback row2 (or_introl eq_refl)) as (Hin1 & Hp & Hin).
    assert (Hs : SyncTracking.sync_status row2 = "synced").
    { apply (clean_pass_marks_all session_id _ _ _ _ _ Hloop Hc He
               (as_record status row2) row2);
        [apply in_map; exact Hin | exact Hin1 | apply same_change_own]. }
    unfold is_pending in Hp. rewrite Hs in Hp. discriminate Hp.
Qed.

Lemma second_pass_replays_only_unsynced_witness :
  (In insert_8 [insert_8]
   <-> In insert_8 [update_7_in_step; insert_8]
       /\ ~ synced_in_pass 200 IDLE st_two_changes [update_7_in_step; insert_8] insert_8)
  /\ (In update_7_in_step [insert_8]
      <-> In update_7_in_step [update_7_in_step; insert_8]
          /\ ~ synced_in_pass 200 IDLE st_two_changes [update_7_in_step; insert_8]
                 update_7_in_step).
Proof.
  destruct (second_pass_replays_only_unsynced 200 IDLE st_two_changes
              (snd (sync_loop 200 (map (as_record IDLE) [update_7_in_step; insert_8])
                      (0%nat, 0%nat) st_two_changes))
              [update_7_in_step; insert_8] [insert_8] (0%nat, 1%nat))
    as (Hiff & _).
  - split; [reflexivity|]. repeat constructor. vm_compute. discriminate.
  - vm_compute. reflexivity.
  - split; [|repeat constructor].
    assert (E : List.filter is_pending
                  (tbl_SyncTracking
                     (snd (sync_loop 200
                             (map (as_record IDLE) [update_7_in_step; insert_8])
                             (0%nat, 0%nat) st_two_changes))) = [insert_8])
      by (vm_compute; reflexivity).
    rewrite E. reflexivity.
  - split; [exact (Hiff insert_8) | exact (Hiff update_7_in_step)].
Defined.

(** The loop, handed the same record twice: the pending insert of
    member 7 meets a row in the primary store.  The first pass counts one conflict and writes
    nothing to the primary store; the change is still pending when the
    second pass starts, and the second pass replays it, counts the
    conflict again and stores a second conflict row. *)
Lemma second_pass_finds_conflict_again :
  let pass1 := sync_loop 200 (map (as_record IDLE) [insert_7]) (0%nat, 0%nat)
                 (st_tracked insert_7) in
  let pass2 := sync_loop 230 (map (as_record IDLE) [insert_7]) (0%nat, 0%nat)
                 (advance 30 (snd pass1)) in
  pending_answer (tbl_SyncTracking (st_tracked insert_7)) [insert_7]
  /\ fst pass1 = inr (1%nat, 0%nat)
  /\ mysql (snd pass1) = mysql (st_tracked insert_7)
  /\ pending_answer (tbl_SyncTracking (advance 30 (snd pass1))) [insert_7]
  /\ fst pass2 = inr (1%nat, 0%nat)
  /\ length (tbl_ConflictResolution (snd pass1)) = 1%nat
  /\ length (tbl_ConflictResolution (snd pass2)) = 2%nat.
Proof.
  cbv zeta.
  split; [split; [reflexivity | repeat constructor]|].
  split; [vm_compute; reflexivity|].
  split; [vm_compute; reflexivity|].
  split.
  { split; [|repeat constructor].
    assert (E : List.filter is_pending
                  (tbl_SyncTracking
                     (advance 30
                        (snd (sync_loop 200 (map (as_record IDLE) [insert_7])
                                (0%nat, 0%nat) (st_tracked insert_7))))) = [insert_7])
      by (vm_compute; reflexivity).
    rewrite E. reflexivity. }
  repeat split; vm_compute; reflexivity.
Qed.

(** ** The entry point *)

Lemma pending_scan_nil (rows : list SyncTracking.row) :
  (forall row, In row rows -> is_pending row = false) -> pending_scan rows = [].
Proof.
  intros H. unfold pending_scan.
  induction rows as [|row rows IH]; [reflexivity|].
  simpl. rewrite (H row (or_introl eq_refl)). apply IH.
  intros r Hr. apply H. right. exact Hr.
Qed.

(** With no pending change the session ends at once: it logs that there
    is nothing to sync, its status is [COMPLETED] and it returns [True]. *)
Lemma synchronize_databases_nothing_pending (st : State) :
  (forall row, In row (tbl_SyncTracking st) -> is_pending row = false) ->
  sync_status st <> SYNCING ->
  MYSQL_AVAILABLE st = true ->
  exists st' : State,
    synchronize_databases st = (inr true, st')
    /\ sync_status st' = COMPLETED
    /\ map SyncLog.message (tbl_SyncLog st')
       = app (map SyncLog.message (tbl_SyncLog st))
             ["Starting database synchronization"; "No pending records to sync"]
    /\ tbl_SyncTracking st' = tbl_SyncTracking st
    /\ tbl_ConflictResolution st' = tbl_ConflictResolution st
    /\ conflicts st' = conflicts st
    /\ mysql st' = mysql st
    /\ sqlite st' = sqlite st.
Proof.
  intros Hnone Hs Ha. unfold synchronize_databases.
  rewrite (bool_decide_eq_false_2 _ Hs), Ha.
  cbn [negb]. unfold bind at 1. unfold modify at 1. cbv beta iota.
  unfold try_except. unfold bind at 1. unfold _log_sync_message at 1.
  unfold modify at 1. cbv beta iota. unfold bind at 1.
  unfold _get_pending_sync_records. cbn [tbl_SyncTracking set_SyncLog set_sync_status].
  rewrite (pending_scan_nil _ Hnone). simpl.
  eexists. split; [reflexivity|]. simpl.
  repeat split; try reflexivity.
  rewrite !map_app. simpl. rewrite <- app_assoc. reflexivity.
Qed.

(** The session on the diverged stores with the pending insert of
    member 7: the fetch raises, nothing is replayed. *)
Example synchronize_databases_with_pending_insert :
  let r := synchronize_databases (st_tracked insert_7) in
  fst r = inr false
  /\ sync_status (snd r) = ERROR
  /\ map SyncLog.message (tbl_SyncLog (snd r))
     = ["Starting database synchronization";
        "Synchronization failed: 'pending' is not a valid SyncStatus"]
  /\ tbl_SyncTracking (snd r) = [insert_7]
  /\ tbl_ConflictResolution (snd r) = []
  /\ mysql (snd r) = mysql (st_tracked insert_7).
Proof. cbv zeta. repeat split; vm_compute; reflexivity. Qed.

(** Whatever the state, the entry point as it is written replays
    nothing: it returns early, or it finds nothing pending, or its fetch
    raises.  Only the log and the status of the manager change. *)
Lemma synchronize_databases_replays_nothing (st : State) :
  let st' := snd (synchronize_databases st) in
  tbl_SyncTracking st' = tbl_SyncTracking st
  /\ tbl_ConflictResolution st' = tbl_ConflictResolution st
  /\ conflicts st' = conflicts st
  /\ mysql st' = mysql st
  /\ sqlite st' = sqlite st.
Proof.
  cbv zeta.
  destruct (decide (sync_status st = SYNCING)) as [Hs|Hs].
  { unfold synchronize_databases. rewrite (bool_decide_eq_true_2 _ Hs).
    repeat split; reflexivity. }
  destruct (MYSQL_AVAILABLE st) eqn:Ha.
  2:{ unfold synchronize_databases. rewrite (bool_decide_eq_false_2 _ Hs), Ha.
      repeat split; reflexivity. }
  destruct (existsb is_pending (tbl_SyncTracking st)) eqn:Hp.
  - apply existsb_exists in Hp as (row & Hin & Hrow).
    destruct (synchronize_databases_fetch_raises st row Hin Hrow Hs Ha)
      as (st' & Hrun & _ & _ & Ht & Hc & Hcs & Hm & Hq).
    rewrite Hrun. simpl. repeat split; assumption.
  - assert (Hnone : forall row, In row (tbl_SyncTracking st) -> is_pending row = false).
    { intros row Hin. destruct (is_pending row) eqn:E; [|reflexivity].
      assert (Hex : existsb is_pending (tbl_SyncTracking st) = true)
        by (apply existsb_exists; exists row; split; assumption).
      congruence. }
    destruct (synchronize_databases_nothing_pending st Hnone Hs Ha)
      as (st' & Hrun & _ & _ & Ht & Hc & Hcs & Hm & Hq).
    rewrite Hrun. simpl. repeat split; assumption.
Qed.
(** ** Replaying inserts, deletes and unknown operations *)

Lemma find_none_all_false {A : Type} (f : A -> bool) (l : list A) :
  List.find f l = None -> forall x, In x l -> f x = false.
Proof.
  intros H x Hin. apply (List.find_none f l H x Hin).
Qed.

Lemma find_none_existsb {A : Type} (f : A -> bool) (l : list A) :
  List.find f l = None -> existsb f l = false.
Proof.
  induction l as [|x l IH]; simpl; [reflexivity|].
  destruct (f x); [discriminate|]. exact IH.
Qed.

Lemma find_none_app_one {A : Type} (f : A -> bool) (l : list A) (d : A) :
  List.find f l = None -> f d = true -> List.find f (app l [d]) = Some d.
Proof.
  induction l as [|x l IH]; simpl; intros H Hd.
  - rewrite Hd. reflexivity.
  - destruct (f x); [discriminate|]. apply IH; assumption.
Qed.

Lemma find_none_filter_negb {A : Type} (f : A -> bool) (l : list A) :
  List.find f l = None -> List.filter (fun x => negb (f x)) l = l.
Proof.
  induction l as [|x l IH]; simpl; [reflexivity|].
  destruct (f x); [discriminate|]. simpl. intros H. rewrite (IH H). reflexivity.
Qed.

Lemma find_filter_negb {A : Type} (f : A -> bool) (l : list A) :
  List.find f (List.filter (fun x => negb (f x)) l) = None.
Proof.
  induction l as [|x l IH]; simpl; [reflexivity|].
  destruct (f x) eqn:E; simpl; [exact IH|]. rewrite E. exact IH.
Qed.

Lemma pk_matches_key (table_name : string) (record_id : Z) (d : Row) :
  pk_matches table_name record_id d = true ->
  d !! _get_primary_key_column table_name = Some (VInt record_id).
Proof.
  unfold pk_matches. intros H. apply bool_decide_eq_true_1 in H. exact H.
Qed.

Lemma duplicate_key_fresh (table_name : string) (record_id : Z) (d : Row)
    (rows : list Row) :
  pk_matches table_name record_id d = true ->
  List.find (pk_matches table_name record_id) rows = None ->
  duplicate_key table_name d rows = false.
Proof.
  intros Hd Hnone. unfold duplicate_key. rewrite (pk_matches_key _ _ _ Hd).
  apply (find_none_existsb (pk_matches table_name record_id)). exact Hnone.
Qed.

Lemma _sync_record_inserts_missing (record : SyncRecord.t) (session_id : Z) (st : State)
    (srows mrows : list Row) (d : Row) :
  SyncRecord.operation record = "INSERT" \/ SyncRecord.operation record = "UPDATE" ->
  sqlite st !! SyncRecord.table_name record = Some srows ->
  mysql st !! SyncRecord.table_name record = Some mrows ->
  List.find (pk_matches (SyncRecord.table_name record) (SyncRecord.record_id record)) srows
  = Some d ->
  List.find (pk_matches (SyncRecord.table_name record) (SyncRecord.record_id record)) mrows
  = None ->
  exists st1 : State,
    _sync_record record session_id st = (inr None, st1)
    /\ mysql st1 = <[SyncRecord.table_name record := app mrows [d]]> (mysql st)
    /\ tbl_ConflictResolution st1 = tbl_ConflictResolution st.
Proof.
  intros Hop Hs Hm Hd Hnone.
  assert (Hpk : pk_matches (SyncRecord.table_name record) (SyncRecord.record_id record) d
                = true).
  { apply List.find_some in Hd. tauto. }
  pose proof (duplicate_key_fresh _ _ _ _ Hpk Hnone) as Hdup.
  unfold_sync_record. simpl. rewrite Hs, Hm, Hd, Hnone.
  destruct Hop as [Hop|Hop]; rewrite Hop; simpl; rewrite Hm, Hdup;
    eexists; (split; [reflexivity|]); simpl; split; reflexivity.
Qed.

(** X1: an [INSERT], or an [UPDATE], of a row the primary store does not
    hold is sent as an insert of the row the secondary store holds now:
    after the turn the primary store answers with that row, the turn
    counts one synced record, every tracked change of this table, record
    and operation is ['synced'], and no conflict is stored.  For an
    [UPDATE] the recorded hash is not looked at. *)
Theorem replay_inserts_missing_row (session_id : Z) (record : SyncRecord.t)
    (counters : nat * nat) (st : State) (srows mrows : list Row) (d : Row) :
  SyncRecord.operation record = "INSERT" \/ SyncRecord.operation record = "UPDATE" ->
  sqlite st !! SyncRecord.table_name record = Some srows ->
  mysql st !! SyncRecord.table_name record = Some mrows ->
  List.find (pk_matches (SyncRecord.table_name record) (SyncRecord.record_id record)) srows
  = Some d ->
  List.find (pk_matches (SyncRecord.table_name record) (SyncRecord.record_id record)) mrows
  = None ->
  exists st' : State,
    sync_one session_id record counters st = (inr (fst counters, S (snd counters)), st')
    /\ mysql st' = <[SyncRecord.table_name record := app mrows [d]]> (mysql st)
    /\ fst (_get_record_data mysql_conn (SyncRecord.table_name record)
              (SyncRecord.record_id record) st') = inr (Some d)
    /\ sqlite st' = sqlite st
    /\ tbl_ConflictResolution st' = tbl_ConflictResolution st
    /\ conflicts st' = conflicts st
    /\ (forall row, In row (tbl_SyncTracking st') ->
          same_change (SyncRecord.table_name record) (SyncRecord.record_id record)
            (SyncRecord.operation record) row = true ->
          SyncTracking.sync_status row = "synced").
Proof.
  intros Hop Hs Hm Hd Hnone.
  destruct (_sync_record_inserts_missing record session_id st srows mrows d
              Hop Hs Hm Hd Hnone) as (st1 & Hrun & Hmy & Hconf).
  destruct (_sync_record_frame _ _ _ _ _ Hrun) as (_ & Hsq & Hcs & _).
  eexists. split; [apply (sync_one_synced _ _ _ _ _ Hrun)|].
  assert (Hpk : pk_matches (SyncRecord.table_name record) (SyncRecord.record_id record) d
                = true).
  { apply List.find_some in Hd. tauto. }
  repeat split; simpl; try assumption.
  - unfold _get_record_data. simpl. rewrite Hmy, lookup_insert_eq. simpl.
    rewrite (find_none_app_one _ _ _ Hnone Hpk). reflexivity.
  - intros row Hin Hsame.
    apply (_mark_record_synced_marks _ _ _ st1 row Hin Hsame).
Qed.

Lemma replay_inserts_missing_row_witness :
  exists st' : State,
    sync_one 200 (as_record COMPLETED created_8) (0%nat, 0%nat) st_member_8
    = (inr (0%nat, 1%nat), st')
    /\ fst (_get_record_data mysql_conn "Members" 8 st') = inr (Some row_8).
Proof.
  destruct (replay_inserts_missing_row 200 (as_record COMPLETED created_8) (0%nat, 0%nat)
              st_member_8 [row_secondary; row_8] [row_primary] row_8)
    as (st' & Hrun & _ & Hread & _).
  - left. reflexivity.
  - reflexivity.
  - reflexivity.
  - vm_compute. reflexivity.
  - vm_compute. reflexivity.
  - exists st'. split; [exact Hrun | exact Hread].
Defined.

(** X2: an [INSERT] of a row the primary store already holds is never
    sent to the primary store and never counted or marked as synced,
    whatever the secondary store holds now - another row, the very same
    row, or none.  The turn ends normally with the record counted once,
    as a conflict or as a failure in the log, and leaves both stores and
    the tracked changes as they were, so the change keeps the status it
    had. *)
Theorem insert_of_existing_row_is_never_applied (session_id : Z) (record : SyncRecord.t)
    (counters : nat * nat) (st : State) (srows mrows : list Row) (m : Row) :
  SyncRecord.operation record = "INSERT" ->
  sqlite st !! SyncRecord.table_name record = Some srows ->
  mysql st !! SyncRecord.table_name record = Some mrows ->
  List.find (pk_matches (SyncRecord.table_name record) (SyncRecord.record_id record)) mrows
  = Some m ->
  exists (counters' : nat * nat) (st' : State),
    sync_one session_id record counters st = (inr counters', st')
    /\ snd counters' = snd counters
    /\ (fst counters' + logged_errors st' = fst counters + logged_errors st + 1)%nat
    /\ mysql st' = mysql st
    /\ sqlite st' = sqlite st
    /\ tbl_SyncTracking st' = tbl_SyncTracking st.
Proof.
  intros Hop Hs Hm Hfind.
  assert (Hrun : exists (c : ConflictRecord.t) (st1 : State),
             _sync_record record session_id st = (inr (Some c), st1)
             /\ logged_errors st1 = logged_errors st
             /\ mysql st1 = mysql st).
  { unfold_sync_record. simpl. rewrite Hs, Hm, Hfind, Hop.
    eexists _, _. split; [reflexivity|]. split; reflexivity. }
  destruct Hrun as (c & st1 & Hrun & Herr & Hmy).
  destruct (_sync_record_frame _ _ _ _ _ Hrun) as (Ht & Hsq & _).
  eexists _, _. split; [apply (sync_one_conflict _ _ _ _ _ _ Hrun)|].
  simpl. repeat split; try assumption.
  change (logged_errors (set_conflicts (app (conflicts st1) [c]) st1))
    with (logged_errors st1).
  rewrite Herr. lia.
Qed.

Lemma insert_of_existing_row_is_never_applied_witness :
  fst (_get_record_data sqlite_conn "Members" 7 st_same_row)
  = fst (_get_record_data mysql_conn "Members" 7 st_same_row)
  /\ exists (counters' : nat * nat) (st' : State),
       sync_one 200 (as_record COMPLETED reinsert_7) (0%nat, 0%nat) st_same_row
       = (inr counters', st')
       /\ snd counters' = 0%nat
       /\ (fst counters' + logged_errors st' = 0 + logged_errors st_same_row + 1)%nat
       /\ mysql st' = mysql st_same_row
       /\ sqlite st' = sqlite st_same_row
       /\ tbl_SyncTracking st' = tbl_SyncTracking st_same_row.
Proof.
  split; [reflexivity|].
  apply (insert_of_existing_row_is_never_applied 200 (as_record COMPLETED reinsert_7)
           (0%nat, 0%nat) st_same_row [row_secondary] [row_secondary] row_secondary).
  - reflexivity.
  - reflexivity.
  - reflexivity.
  - vm_compute. reflexivity.
Defined.

(** X3: a [DELETE] is never a conflict and never looks at what the rows
    hold.  When both stores have the table, the turn counts one synced
    record; afterwards the primary table holds the rows it held, less
    the ones with this key, so it answers [None] for the record; the
    other tables, the conflicts and the secondary store are as before. *)
Theorem delete_replay_removes_row (session_id : Z) (record : SyncRecord.t)
    (counters : nat * nat) (st : State) (srows mrows : list Row) :
  SyncRecord.operation record = "DELETE" ->
  sqlite st !! SyncRecord.table_name record = Some srows ->
  mysql st !! SyncRecord.table_name record = Some mrows ->
  exists st' : State,
    sync_one session_id record counters st = (inr (fst counters, S (snd counters)), st')
    /\ mysql st'
       = <[SyncRecord.table_name record :=
             List.filter (fun r => negb (pk_matches (SyncRecord.table_name record)
                                           (SyncRecord.record_id record) r)) mrows]>
           (mysql st)
    /\ fst (_get_record_data mysql_conn (SyncRecord.table_name record)
              (SyncRecord.record_id record) st') = inr None
    /\ sqlite st' = sqlite st
    /\ tbl_ConflictResolution st' = tbl_ConflictResolution st
    /\ conflicts st' = conflicts st.
Proof.
  intros Hop Hs Hm.
  set (gone := List.filter (fun r => negb (pk_matches (SyncRecord.table_name record)
                                             (SyncRecord.record_id record) r)) mrows).
  assert (Hrun : exists st1 : State,
             _sync_record record session_id st = (inr None, st1)
             /\ mysql st1 = <[SyncRecord.table_name record := gone]> (mysql st)
             /\ tbl_ConflictResolution st1 = tbl_ConflictResolution st).
  { unfold_sync_record. simpl. rewrite Hs, Hm, Hop. simpl.
    destruct (List.find _ mrows) eqn:Hfind; simpl.
    - rewrite Hm. eexists. split; [reflexivity|]. simpl. split; reflexivity.
    - eexists. split; [reflexivity|]. simpl. split; [|reflexivity].
      subst gone. rewrite (find_none_filter_negb _ _ Hfind).
      symmetry. apply insert_id. exact Hm. }
  destruct Hrun as (st1 & Hrun & Hmy & Hconf).
  destruct (_sync_record_frame _ _ _ _ _ Hrun) as (_ & Hsq & Hcs & _).
  eexists. split; [apply (sync_one_synced _ _ _ _ _ Hrun)|].
  repeat split; simpl; try assumption.
  unfold _get_record_data. simpl. rewrite Hmy, lookup_insert_eq. simpl.
  subst gone. rewrite find_filter_negb. reflexivity.
Qed.

Lemma delete_replay_removes_row_witness :
  exists st' : State,
    sync_one 200 (as_record COMPLETED delete_7) (0%nat, 0%nat) (st_tracked delete_7)
    = (inr (0%nat, 1%nat), st')
    /\ fst (_get_record_data mysql_conn "Members" 7 st') = inr None
    /\ fst (_get_record_data sqlite_conn "Members" 7 st') = inr (Some row_secondary).
Proof.
  destruct (delete_replay_removes_row 200 (as_record COMPLETED delete_7) (0%nat, 0%nat)
              (st_tracked delete_7) [row_secondary] [row_primary])
    as (st' & Hrun & _ & Hread & Hsq & _).
  - reflexivity.
  - reflexivity.
  - reflexivity.
  - exists st'. split; [exact Hrun|]. split; [exact Hread|].
    unfold _get_record_data. simpl. rewrite Hsq. vm_compute. reflexivity.
Defined.

(** X4: an operation other than ['INSERT'], ['UPDATE'] and ['DELETE'] -
    [track_record_change] stores whatever text it is given - is replayed
    as nothing at all and still counted as synced: the two stores, the
    conflicts and the log are as before, and the tracked changes of this
    table, record and operation are marked ['synced']. *)
Theorem unknown_operation_is_marked_synced (session_id : Z) (record : SyncRecord.t)
    (counters : nat * nat) (st : State) (srows mrows : list Row) :
  SyncRecord.operation record <> "INSERT" ->
  SyncRecord.operation record <> "UPDATE" ->
  SyncRecord.operation record <> "DELETE" ->
  sqlite st !! SyncRecord.table_name record = Some srows ->
  mysql st !! SyncRecord.table_name record = Some mrows ->
  exists st' : State,
    sync_one session_id record counters st = (inr (fst counters, S (snd counters)), st')
    /\ mysql st' = mysql st
    /\ sqlite st' = sqlite st
    /\ tbl_SyncLog st' = tbl_SyncLog st
    /\ tbl_ConflictResolution st' = tbl_ConflictResolution st
    /\ conflicts st' = conflicts st
    /\ (forall row, In row (tbl_SyncTracking st') ->
          same_change (SyncRecord.table_name record) (SyncRecord.record_id record)
            (SyncRecord.operation record) row = true ->
          SyncTracking.sync_status row = "synced").
Proof.
  intros Hi Hu Hd Hs Hm.
  assert (Hrun : _sync_record record session_id st = (inr None, st)).
  { unfold_sync_record. simpl. rewrite Hs, Hm.
    apply String.eqb_neq in Hi, Hu, Hd. rewrite Hi, Hu, Hd. reflexivity. }
  eexists. split; [apply (sync_one_synced _ _ _ _ _ Hrun)|].
  repeat split; simpl; try reflexivity.
  intros row Hin Hsame. apply (_mark_record_synced_marks _ _ _ st row Hin Hsame).
Qed.

Lemma unknown_operation_is_marked_synced_witness :
  exists st' : State,
    sync_one 200 (as_record COMPLETED lowercase_update_7) (0%nat, 0%nat)
      (st_tracked lowercase_update_7)
    = (inr (0%nat, 1%nat), st')
    /\ mysql st' = mysql st_diverged
    /\ map SyncTracking.sync_status (tbl_SyncTracking st') = ["synced"].
Proof.
  destruct (unknown_operation_is_marked_synced 200 (as_record COMPLETED lowercase_update_7)
              (0%nat, 0%nat) (st_tracked lowercase_update_7) [row_secondary] [row_primary])
    as (st' & Hrun & Hmy & _).
  - discriminate.
  - discriminate.
  - discriminate.
  - reflexivity.
  - reflexivity.
  - exists st'. split; [exact Hrun|]. split; [exact Hmy|].
    assert (E : st' = snd (sync_one 200 (as_record COMPLETED lowercase_update_7)
                             (0%nat, 0%nat) (st_tracked lowercase_update_7)))
      by (rewrite Hrun; reflexivity).
    rewrite E. vm_compute. reflexivity.
Defined.

(** X5: an [INSERT] or [UPDATE] of a row that neither store holds any
    more - it was deleted on the secondary store after the change was
    tracked - cannot be replayed: the insert is handed [None], the turn
    logs the failure and counts nothing, and the stores, the conflicts
    and the tracked changes are as before, so the change stays as it
    was. *)
Theorem vanished_row_fails_to_replay (session_id : Z) (record : SyncRecord.t)
    (counters : nat * nat) (st : State) (srows mrows : list Row) :
  SyncRecord.operation record = "INSERT" \/ SyncRecord.operation record = "UPDATE" ->
  sqlite st !! SyncRecord.table_name record = Some srows ->
  mysql st !! SyncRecord.table_name record = Some mrows ->
  List.find (pk_matches (SyncRecord.table_name record) (SyncRecord.record_id record)) srows
  = None ->
  List.find (pk_matches (SyncRecord.table_name record) (SyncRecord.record_id record)) mrows
  = None ->
  sync_one session_id record counters st
  = (inr counters,
     snd (_log_sync_message session_id
            ("Failed to sync " ++ change_label record
               ++ ": 'NoneType' object has no attribute 'keys'") "ERROR" st)).
Proof.
  intros Hop Hs Hm Hsn Hmn.
  assert (Hrun : _sync_record record session_id st = (inl NoneType_has_no_keys, st)).
  { unfold_sync_record. simpl. rewrite Hs, Hm, Hsn, Hmn.
    destruct Hop as [Hop|Hop]; rewrite Hop; reflexivity. }
  rewrite (sync_one_failed _ _ _ _ _ _ Hrun). reflexivity.
Qed.

Lemma vanished_row_fails_to_replay_witness :
  sync_one 200 (as_record COMPLETED insert_8) (0%nat, 0%nat) st_two_changes
  = (inr (0%nat, 0%nat),
     snd (_log_sync_message 200
            "Failed to sync Members:8: 'NoneType' object has no attribute 'keys'"
            "ERROR" st_two_changes)).
Proof.
  apply (vanished_row_fails_to_replay 200 (as_record COMPLETED insert_8) (0%nat, 0%nat)
           st_two_changes [row_secondary] [row_primary]).
  - left. reflexivity.
  - reflexivity.
  - reflexivity.
  - vm_compute. reflexivity.
  - vm_compute. reflexivity.
Defined.

(** ** What a session returns *)

Lemma pending_row_or_none (rows : list SyncTracking.row) :
  (exists row, In row rows /\ is_pending row = true)
  \/ (forall row, In row rows -> is_pending row = false).
Proof.
  induction rows as [|x rows IH].
  - right. intros row [].
  - destruct (is_pending x) eqn:E.
    + left. exists x. split; [left; reflexivity | exact E].
    + destruct IH as [(row & Hin & Hp) | Hnone].
      * left. exists row. split; [right; exact Hin | exact Hp].
      * right. intros row [<- | Hin]; [exact E | apply Hnone; exact Hin].
Qed.

Lemma synchronize_databases_result (st : State) :
  exists (b : bool) (st' : State),
    synchronize_databases st = (inr b, st')
    /\ (b = true
        <-> sync_status st <> SYNCING
            /\ MYSQL_AVAILABLE st = true
            /\ forall row, In row (tbl_SyncTracking st) -> is_pending row = false)
    /\ (b = true -> sync_status st' = COMPLETED)
    /\ (sync_status st <> SYNCING -> MYSQL_AVAILABLE st = true -> b = false ->
        sync_status st' = ERROR)
    /\ (sync_status st <> SYNCING -> sync_status st' <> SYNCING).
Proof.
  destruct (decide (sync_status st = SYNCING)) as [Hs|Hs].
  { exists false, st. split.
    - unfold synchronize_databases. rewrite (bool_decide_eq_true_2 _ Hs). reflexivity.
    - split; [split; [discriminate | tauto]|]. repeat split; try discriminate; tauto. }
  destruct (MYSQL_AVAILABLE st) eqn:Ha.
  2:{ exists false, st. split.
      - unfold synchronize_databases. rewrite (bool_decide_eq_false_2 _ Hs), Ha. reflexivity.
      - split; [split; [discriminate | intros (_ & H & _); discriminate]|].
        repeat split; try discriminate; tauto. }
  destruct (pending_row_or_none (tbl_SyncTracking st)) as [(row & Hin & Hp) | Hnone].
  - destruct (synchronize_databases_fetch_raises st row Hin Hp Hs Ha)
      as (st' & Hrun & Hst & _).
    exists false, st'. split; [exact Hrun|].
    split; [split; [discriminate|]|].
    + intros (_ & _ & H). rewrite (H row Hin) in Hp. discriminate.
    + repeat split; try discriminate; try tauto. rewrite Hst. discriminate.
  - destruct (synchronize_databases_nothing_pending st Hnone Hs Ha)
      as (st' & Hrun & Hst & _).
    exists true, st'. split; [exact Hrun|].
    split; [split; [intros _; tauto | reflexivity]|].
    repeat split; try discriminate; try tauto. rewrite Hst. discriminate.
Qed.

(** X6: [synchronize_databases] never raises, and it returns [True]
    exactly when no session is running, the connector module is there
    and no tracked change is pending - that is, exactly when there is
    nothing to replay.  When a change is pending and the two guards are
    passed, the session ends with the status [ERROR]; it never ends with
    the status [SYNCING] unless it found that status. *)
Theorem synchronize_databases_true_iff_nothing_pending (st : State) :
  exists (b : bool) (st' : State),
    synchronize_databases st = (inr b, st')
    /\ (b = true
        <-> sync_status st <> SYNCING
            /\ MYSQL_AVAILABLE st = true
            /\ forall row, In row (tbl_SyncTracking st) -> is_pending row = false)
    /\ (b = true -> sync_status st' = COMPLETED)
    /\ (sync_status st <> SYNCING -> MYSQL_AVAILABLE st = true -> b = false ->
        sync_status st' = ERROR)
    /\ (sync_status st <> SYNCING -> sync_status st' <> SYNCING).
Proof. apply synchronize_databases_result. Qed.

(** ** What the loop leaves alone *)

Lemma loop_changes_refl (st : State) : loop_changes 0 st st.
Proof.
  unfold loop_changes. repeat split; try reflexivity.
  - exists []. rewrite app_nil_r. reflexivity.
  - exists [], []. rewrite !app_nil_r. repeat split; try reflexivity. constructor.
  - apply Forall2_evolves_refl.
Qed.

Lemma loop_changes_trans (n1 n2 : nat) (a b c : State) :
  loop_changes n1 a b -> loop_changes n2 b c -> loop_changes (n1 + n2) a c.
Proof.
  unfold loop_changes.
  intros (A1 & A2 & A3 & A4 & A5 & (l1 & A6) & (cs1 & rows1 & A7 & A8 & A9 & A10) & A11)
         (B1 & B2 & B3 & B4 & B5 & (l2 & B6) & (cs2 & rows2 & B7 & B8 & B9 & B10) & B11).
  repeat split; try congruence.
  - exists (app l1 l2). rewrite B6, A6, app_assoc. reflexivity.
  - exists (app cs1 cs2), (app rows1 rows2).
    rewrite B7, A7, B8, A8, !app_assoc. repeat split; try reflexivity.
    + apply Forall2_app; assumption.
    + rewrite length_app. congruence.
  - eapply Forall2_evolves_trans; eassumption.
Qed.

Lemma _sync_record_log_grows (record : SyncRecord.t) (session_id : Z) (st st1 : State)
    (res : exn + option ConflictRecord.t) :
  _sync_record record session_id st = (res, st1) ->
  (exists new : list SyncLog.row, tbl_SyncLog st1 = app (tbl_SyncLog st) new)
  /\ (res = inr None -> tbl_ConflictResolution st1 = tbl_ConflictResolution st).
Proof.
  unfold_sync_record. intros H.
  repeat case_match; simplify_eq; simpl;
    (split; [first [ exists []; rewrite app_nil_r; reflexivity
                   | eexists [_]; reflexivity ]
            | first [ reflexivity | discriminate | intros _; reflexivity ] ]).
Qed.

Lemma sync_one_loop_changes (session_id : Z) (record : SyncRecord.t)
    (counters : nat * nat) (st : State) :
  exists (counters' : nat * nat) (st' : State) (n : nat),
    sync_one session_id record counters st = (inr counters', st')
    /\ loop_changes n st st'
    /\ fst counters' = (fst counters + n)%nat.
Proof.
  destruct (_sync_record record session_id st) as [[e | [c|]] st1] eqn:Hrun.
  - pose proof (_sync_record_raises_unchanged _ _ _ _ _ Hrun) as ->.
    eexists _, _, 0%nat. split; [apply (sync_one_failed _ _ _ _ _ _ Hrun)|].
    split; [|simpl; lia].
    unfold loop_changes. simpl. repeat split; try reflexivity.
    + eexists [_]. reflexivity.
    + exists [], []. rewrite !app_nil_r. repeat split; try reflexivity. constructor.
    + apply Forall2_evolves_refl.
  - destruct (_sync_record_conflict_inv _ _ _ _ _ Hrun)
      as (sd & mrow & _ & _ & Hc & Hst1 & _).
    eexists _, _, 1%nat. split; [apply (sync_one_conflict _ _ _ _ _ _ Hrun)|].
    split; [|simpl; lia].
    subst st1 c. unfold loop_changes. simpl. repeat split; try reflexivity.
    + exists []. rewrite app_nil_r. reflexivity.
    + eexists [_], [_]. repeat split; try reflexivity.
      constructor; [|constructor]. unfold stored_as. simpl. repeat split; reflexivity.
    + apply Forall2_evolves_refl.
  - destruct (_sync_record_frame _ _ _ _ _ Hrun) as (Ht & Hsq & Hcs & Hss & Hck & Hup & Hav).
    destruct (_sync_record_log_grows _ _ _ _ _ Hrun) as ((new & Hlog) & Hconf).
    specialize (Hconf eq_refl).
    eexists _, _, 0%nat. split; [apply (sync_one_synced _ _ _ _ _ Hrun)|].
    split; [|simpl; lia].
    unfold loop_changes. simpl. repeat split; try assumption.
    + exists new. exact Hlog.
    + exists [], []. rewrite !app_nil_r. repeat split; try assumption. constructor.
    + rewrite <- Ht. apply (_mark_record_synced_evolves _ _ _ st1).
Qed.

Lemma sync_loop_changes (session_id : Z) (pending_records : list SyncRecord.t) :
  forall (counters : nat * nat) (st : State),
  exists (counters' : nat * nat) (st' : State) (n : nat),
    sync_loop session_id pending_records counters st = (inr counters', st')
    /\ loop_changes n st st'
    /\ fst counters' = (fst counters + n)%nat.
Proof.
  induction pending_records as [|record rest IH]; intros counters st.
  - exists counters, st, 0%nat. split; [reflexivity|].
    split; [apply loop_changes_refl | simpl; lia].
  - destruct (sync_one_loop_changes session_id record counters st)
      as (c1 & st1 & n1 & Hone & Hch1 & Hn1).
    destruct (IH c1 st1) as (c2 & st2 & n2 & Hrest & Hch2 & Hn2).
    exists c2, st2, (n1 + n2)%nat. split.
    + simpl. unfold bind. rewrite Hone. exact Hrest.
    + split; [eapply loop_changes_trans; eassumption | lia].
Qed.

(** X7: the loop of a session, on any list of records and from any
    state, comes to its end without raising, and what it does to the
    state is bounded: the log, the conflict table and [self.conflicts]
    only grow; the conflicts it counts, the rows it adds to the conflict
    table and the records it adds to [self.conflicts] are the same
    conflicts, each stored unresolved under the strategy ['manual'];
    every tracked change is as it was or marked as synced; and the
    secondary store, the status, the clock and the server are not
    touched. *)
Theorem sync_loop_only_appends (session_id : Z) (pending_records : list SyncRecord.t) :
  forall (counters : nat * nat) (st : State),
  exists (counters' : nat * nat) (st' : State) (n : nat),
    sync_loop session_id pending_records counters st = (inr counters', st')
    /\ loop_changes n st st'
    /\ fst counters' = (fst counters + n)%nat.
Proof. apply sync_loop_changes. Qed.



(** The entry point is the session that fetches with
    [_get_pending_sync_records]. *)
Lemma synchronize_databases_is_synchronize_from :
  synchronize_databases = synchronize_from _get_pending_sync_records.
Proof. reflexivity. Qed.




(** ** Reading the status back *)

Lemma existsb_is_pending_false (rows : list SyncTracking.row) :
  existsb is_pending rows = false -> forall row, In row rows -> is_pending row = false.
Proof.
  intros H row Hin. destruct (is_pending row) eqn:E; [|reflexivity].
  rewrite <- H. symmetry. apply existsb_exists. exists row. split; assumption.
Qed.

Lemma get_sync_status_eq (st : State) :
  get_sync_status st
  = (if existsb is_pending (tbl_SyncTracking st)
     then inl (ValueError "'pending' is not a valid SyncStatus")
     else inr (SyncStatusReport.mk (SyncStatus_value (sync_status st))
                 (MYSQL_AVAILABLE st && mysql_up st) 0 (length (conflicts st))
                 (fold_right sql_max None
                    (map SyncTracking.synced_at
                       (List.filter is_synced (tbl_SyncTracking st))))),
     st).
Proof.
  unfold get_sync_status.
  unfold bind at 1. unfold gets at 1. cbv beta iota.
  unfold bind at 1.
  assert (Hav : is_mysql_available st = (inr (MYSQL_AVAILABLE st && mysql_up st), st)).
  { unfold is_mysql_available. destruct (MYSQL_AVAILABLE st), (mysql_up st); reflexivity. }
  rewrite Hav. cbv beta iota. unfold bind at 1.
  destruct (existsb is_pending (tbl_SyncTracking st)) eqn:E.
  - apply existsb_exists in E. destruct E as (row & Hin & Hp).
    rewrite (_get_pending_sync_records_raises st row Hin Hp). reflexivity.
  - unfold _get_pending_sync_records.
    rewrite (pending_scan_nil _ (existsb_is_pending_false _ E)). simpl.
    reflexivity.
Qed.

(** X9: [get_sync_status] raises the [ValueError] of the fetch whenever
    a tracked change is pending, and changes nothing.  So whenever it
    returns, the number of pending records it reports is zero; the
    number of conflicts it reports is the length of [self.conflicts],
    not the number of unresolved rows. *)
Theorem get_sync_status_raises_iff_pending (st : State) :
  get_sync_status st
  = (if existsb is_pending (tbl_SyncTracking st)
     then inl (ValueError "'pending' is not a valid SyncStatus")
     else inr (SyncStatusReport.mk (SyncStatus_value (sync_status st))
                 (MYSQL_AVAILABLE st && mysql_up st) 0 (length (conflicts st))
                 (fold_right sql_max None
                    (map SyncTracking.synced_at
                       (List.filter is_synced (tbl_SyncTracking st))))),
     st).
Proof. apply get_sync_status_eq. Qed.

Lemma sql_max_fold_bound (l : list (option Z)) (t : Z) :
  In (Some t) l ->
  exists m : Z, fold_right sql_max None l = Some m /\ t <= m.
Proof.
  induction l as [|x l IH]; [intros []|].
  intros [-> | Hin]; simpl.
  - destruct (fold_right sql_max None l) as [y|]; eexists; (split; [reflexivity|lia]).
  - destruct (IH Hin) as (m & -> & Hle).
    destruct x as [x|]; simpl; eexists; (split; [reflexivity|lia]).
Qed.

Lemma sql_max_fold_attained (l : list (option Z)) (m : Z) :
  fold_right sql_max None l = Some m -> In (Some m) l.
Proof.
  revert m. induction l as [|x l IH]; simpl; intros m H; [discriminate|].
  destruct x as [x|]; simpl in H.
  - destruct (fold_right sql_max None l) as [y|] eqn:E.
    + injection H as <-. destruct (Z.max_spec x y) as [[_ ->] | [_ ->]].
      * right. apply IH. reflexivity.
      * left. reflexivity.
    + injection H as <-. left. reflexivity.
  - right. apply IH. exact H.
Qed.

(** X10: [_get_last_sync_time] never raises and changes nothing.  The
    time it gives is the [synced_at] of a change that is ['synced'], and
    no such change has a later one; it gives [None] exactly when no
    change that is ['synced'] has a [synced_at]. *)
Theorem last_sync_time_is_latest (st : State) :
  exists last : option Z,
    _get_last_sync_time st = (inr last, st)
    /\ (forall t : Z,
          last = Some t ->
          exists row, In row (tbl_SyncTracking st)
                      /\ is_synced row = true /\ SyncTracking.synced_at row = Some t)
    /\ (forall row (t' : Z),
          In row (tbl_SyncTracking st) -> is_synced row = true ->
          SyncTracking.synced_at row = Some t' ->
          exists t : Z, last = Some t /\ t' <= t).
Proof.
  eexists. split; [reflexivity|]. split.
  - intros t Ht. apply sql_max_fold_attained in Ht.
    apply in_map_iff in Ht. destruct Ht as (row & Hat & Hin).
    apply List.filter_In in Hin. exists row. tauto.
  - intros row t' Hin Hs Hat.
    apply sql_max_fold_bound. apply in_map_iff. exists row.
    split; [exact Hat|]. apply List.filter_In. split; assumption.
Qed.

(** ** Listing the conflicts *)

Lemma insert_by_created_at_perm (row : ConflictRow.row) (l : list ConflictRow.row) :
  Permutation (insert_by_created_at row l) (row :: l).
Proof.
  induction l as [|x l IH]; simpl; [reflexivity|].
  destruct (Z.leb _ _); [reflexivity|].
  rewrite IH. apply perm_swap.
Qed.

Lemma unresolved_scan_perm (rows : list ConflictRow.row) :
  Permutation (unresolved_scan rows) (List.filter is_unresolved rows).
Proof.
  unfold unresolved_scan.
  induction (List.filter is_unresolved rows) as [|x l IH]; simpl; [reflexivity|].
  rewrite insert_by_created_at_perm, IH. reflexivity.
Qed.

Lemma insert_by_created_at_sorted (row : ConflictRow.row) (l : list ConflictRow.row) :
  Sorted (fun a b => ConflictRow.created_at a <= ConflictRow.created_at b) l ->
  Sorted (fun a b => ConflictRow.created_at a <= ConflictRow.created_at b)
         (insert_by_created_at row l).
Proof.
  induction l as [|x l IH]; simpl; intros Hs.
  - constructor; constructor.
  - destruct (Z.leb _ _) eqn:E.
    + constructor; [exact Hs|]. constructor. apply Z.leb_le. exact E.
    + apply Z.leb_gt in E. inversion Hs as [|? ? Hs' Hhd]; subst.
      constructor; [apply IH; exact Hs'|].
      destruct l as [|y l]; simpl.
      * constructor. lia.
      * destruct (Z.leb _ _); constructor; [lia|].
        inversion Hhd; subst. assumption.
Qed.

Lemma unresolved_scan_sorted (rows : list ConflictRow.row) :
  Sorted (fun a b => ConflictRow.created_at a <= ConflictRow.created_at b)
         (unresolved_scan rows).
Proof.
  unfold unresolved_scan.
  induction (List.filter is_unresolved rows) as [|x l IH]; simpl; [constructor|].
  apply insert_by_created_at_sorted. exact IH.
Qed.

(** Whether every row of a list can be read back, and as what. *)
Lemma conflicts_of_rows_inr (rows : list ConflictRow.row) (cs : list ConflictRecord.t) :
  conflicts_of_rows rows = inr cs
  <-> Forall2 (fun row c => ConflictRecord_of_row row = inr c) rows cs.
Proof.
  revert cs. induction rows as [|row rows IH]; intros cs; simpl.
  - split; [intros H; injection H as <-; constructor | intros H; inversion H; reflexivity].
  - split.
    + destruct (ConflictRecord_of_row row) as [e|c] eqn:E; [discriminate|].
      destruct (conflicts_of_rows rows) as [e|cs'] eqn:E'; [discriminate|].
      intros H. injection H as <-. constructor; [exact E|]. apply IH. reflexivity.
    + intros H. inversion H as [|? c ? cs' Hc Hrest]; subst.
      rewrite Hc. apply IH in Hrest. rewrite Hrest. reflexivity.
Qed.

Lemma conflicts_of_rows_all (rows : list ConflictRow.row) :
  (forall row, In row rows -> exists c, ConflictRecord_of_row row = inr c) ->
  exists cs, conflicts_of_rows rows = inr cs.
Proof.
  induction rows as [|row rows IH]; intros H; simpl.
  - exists []. reflexivity.
  - destruct (H row (or_introl eq_refl)) as (c & ->).
    destruct IH as (cs & ->); [intros r Hr; apply H; right; exact Hr|].
    eexists. reflexivity.
Qed.

Lemma conflict_row_ok_reads (row : ConflictRow.row) :
  conflict_row_ok row -> is_unresolved row = true ->
  ConflictRecord_of_row row
  = inr (ConflictRecord.mk (ConflictRow.table_name row) (ConflictRow.record_id row)
           (ConflictRow.sqlite_data row) (ConflictRow.mysql_data row)
           (ConflictRow.sqlite_timestamp row) (ConflictRow.mysql_timestamp row)
           MANUAL false).
Proof.
  intros [(_ & Hs & _) | (Hr & _)] Hu.
  - unfold ConflictRecord_of_row. rewrite Hs. reflexivity.
  - unfold is_unresolved in Hu. rewrite Hr in Hu. discriminate.
Qed.

(** X11: on a conflict table whose rows are as the manager writes them,
    [get_conflicts] never raises and changes nothing; it lists one
    record for each unresolved row and none for a resolved one, oldest
    first, and every record it lists has the strategy [MANUAL] and is
    not resolved. *)
Theorem get_conflicts_lists_unresolved (st : State) :
  Forall conflict_row_ok (tbl_ConflictResolution st) ->
  exists (cs : list ConflictRecord.t) (rows : list ConflictRow.row),
    get_conflicts st = (inr cs, st)
    /\ Permutation rows (List.filter is_unresolved (tbl_ConflictResolution st))
    /\ Sorted (fun a b => ConflictRow.created_at a <= ConflictRow.created_at b) rows
    /\ Forall2 (fun row c => ConflictRecord_of_row row = inr c) rows cs
    /\ Forall (fun c => ConflictRecord.resolution_strategy c = MANUAL
                        /\ ConflictRecord.resolved c = false) cs.
Proof.
  intros Hok.
  assert (Hall : forall row, In row (unresolved_scan (tbl_ConflictResolution st)) ->
                   conflict_row_ok row /\ is_unresolved row = true).
  { intros row Hin.
    apply (Permutation_in _ (unresolved_scan_perm _)) in Hin.
    apply List.filter_In in Hin. destruct Hin as (Hin & Hu).
    split; [|exact Hu]. rewrite List.Forall_forall in Hok. apply Hok. exact Hin. }
  destruct (conflicts_of_rows_all (unresolved_scan (tbl_ConflictResolution st)))
    as (cs & Hcs).
  { intros row Hin. destruct (Hall row Hin) as (H1 & H2).
    eexists. apply (conflict_row_ok_reads row H1 H2). }
  exists cs, (unresolved_scan (tbl_ConflictResolution st)).
  split; [unfold get_conflicts; rewrite Hcs; reflexivity|].
  split; [apply unresolved_scan_perm|].
  split; [apply unresolved_scan_sorted|].
  pose proof (proj1 (conflicts_of_rows_inr _ _) Hcs) as HF.
  split; [exact HF|].
  clear Hcs. induction HF as [|row c rows cs' Hc _ IH]; [constructor|].
  constructor.
  - destruct (Hall row (or_introl eq_refl)) as (H1 & H2).
    rewrite (conflict_row_ok_reads row H1 H2) in Hc. injection Hc as <-.
    split; reflexivity.
  - apply IH. intros r Hr. apply Hall. right. exact Hr.
Qed.

Lemma get_conflicts_lists_unresolved_witness :
  exists (cs : list ConflictRecord.t) (rows : list ConflictRow.row),
    get_conflicts st_one_of_two_resolved = (inr cs, st_one_of_two_resolved)
    /\ Permutation rows
         (List.filter is_unresolved (tbl_ConflictResolution st_one_of_two_resolved))
    /\ Sorted (fun a b => ConflictRow.created_at a <= ConflictRow.created_at b) rows
    /\ Forall2 (fun row c => ConflictRecord_of_row row = inr c) rows cs
    /\ Forall (fun c => ConflictRecord.resolution_strategy c = MANUAL
                        /\ ConflictRecord.resolved c = false) cs.
Proof.
  apply (get_conflicts_lists_unresolved st_one_of_two_resolved).
  constructor; [|constructor; [|constructor]].
  - right. split; [reflexivity|]. split; [exists MYSQL_WINS; reflexivity|].
    exists 150. reflexivity.
  - left. repeat split; reflexivity.
Defined.

Lemma conflicts_of_rows_perm (rows1 rows2 : list ConflictRow.row) :
  Permutation rows1 rows2 ->
  forall cs1, conflicts_of_rows rows1 = inr cs1 ->
  exists cs2, conflicts_of_rows rows2 = inr cs2 /\ Permutation cs1 cs2.
Proof.
  induction 1 as [|x l l' _ IH|x y l|l l' l'' _ IH1 _ IH2]; intros cs1; simpl.
  - intros H. injection H as <-. exists []. split; [reflexivity | constructor].
  - destruct (ConflictRecord_of_row x) as [e|c]; [discriminate|].
    destruct (conflicts_of_rows l) as [e|cs] eqn:E; [discriminate|].
    intros H. injection H as <-.
    destruct (IH cs eq_refl) as (cs2 & -> & Hp).
    eexists. split; [reflexivity | constructor; exact Hp].
  - destruct (ConflictRecord_of_row y) as [e|cy]; [discriminate|].
    destruct (ConflictRecord_of_row x) as [e|cx]; [discriminate|].
    destruct (conflicts_of_rows l) as [e|cs]; [discriminate|].
    intros H. injection H as <-.
    eexists. split; [reflexivity | apply perm_swap].
  - intros H. destruct (IH1 cs1 H) as (cs2 & H2 & Hp12).
    destruct (IH2 cs2 H2) as (cs3 & H3 & Hp23).
    exists cs3. split; [exact H3 | etransitivity; eassumption].
Qed.

(** X12: storing a conflict and listing the conflicts is a round trip.
    When [get_conflicts] can read the table, then after
    [_create_conflict_record] it still can, and it lists the conflicts
    it listed before together with the record the creation returned,
    field for field. *)
Theorem created_conflict_is_listed (table_name : string) (record_id : Z)
    (sqlite_data mysql_data : option Row) (st : State) (cs : list ConflictRecord.t) :
  get_conflicts st = (inr cs, st) ->
  exists (c : ConflictRecord.t) (st' : State) (cs' : list ConflictRecord.t),
    _create_conflict_record table_name record_id sqlite_data mysql_data st = (inr c, st')
    /\ get_conflicts st' = (inr cs', st')
    /\ Permutation cs' (c :: cs).
Proof.
  intros Hget.
  assert (Hcs : conflicts_of_rows (unresolved_scan (tbl_ConflictResolution st)) = inr cs).
  { unfold get_conflicts in Hget. injection Hget as H. exact H. }
  set (c := ConflictRecord.mk table_name record_id sqlite_data mysql_data (clock st)
              (clock st) MANUAL false).
  set (row := ConflictRow.mk (next_id (map ConflictRow.conflict_id (tbl_ConflictResolution st)))
                table_name record_id sqlite_data mysql_data (clock st) (clock st)
                "manual" 0 None (clock st)).
  assert (Hperm : Permutation (row :: unresolved_scan (tbl_ConflictResolution st))
                    (unresolved_scan (app (tbl_ConflictResolution st) [row]))).
  { rewrite !unresolved_scan_perm, List.filter_app. simpl.
    rewrite Permutation_app_comm. reflexivity. }
  destruct (conflicts_of_rows_perm _ _ Hperm (c :: cs)) as (cs' & Hcs' & Hp).
  { simpl. rewrite Hcs. reflexivity. }
  exists c, (set_ConflictResolution (app (tbl_ConflictResolution st) [row]) st), cs'.
  split; [reflexivity|]. split.
  - unfold get_conflicts. simpl. rewrite Hcs'. reflexivity.
  - symmetry. exact Hp.
Qed.

Lemma created_conflict_is_listed_witness :
  exists (c : ConflictRecord.t) (st' : State) (cs' : list ConflictRecord.t),
    _create_conflict_record "Members" 7 (Some row_secondary) (Some row_primary)
      st_one_of_two_resolved = (inr c, st')
    /\ get_conflicts st' = (inr cs', st')
    /\ Permutation cs'
         [c; ConflictRecord.mk "Members" 8 (Some row_8) (Some row_primary) 120 120
               MANUAL false].
Proof.
  apply (created_conflict_is_listed "Members" 7 (Some row_secondary) (Some row_primary)
           st_one_of_two_resolved).
  reflexivity.
Defined.

Lemma filter_unresolved_resolved (conflict_id now : Z) (resolution : ConflictResolution)
    (rows : list ConflictRow.row) :
  List.filter is_unresolved
    (map (fun row => if Z.eqb (ConflictRow.conflict_id row) conflict_id
                     then resolve_row now resolution row else row) rows)
  = List.filter is_unresolved
      (List.filter (fun row => negb (Z.eqb (ConflictRow.conflict_id row) conflict_id)) rows).
Proof.
  induction rows as [|row rows IH]; simpl; [reflexivity|].
  destruct (Z.eqb (ConflictRow.conflict_id row) conflict_id); simpl.
  - exact IH.
  - destruct (is_unresolved row); rewrite IH; reflexivity.
Qed.

(** X13: after [resolve_conflict], whatever the strategy, [get_conflicts]
    answers what it would answer on the table without the rows of that
    conflict id: the resolved conflict is no longer listed, and the
    answer for the others is as before. *)
Theorem resolved_conflict_is_not_listed (conflict_id : Z) (resolution : ConflictResolution)
    (st : State) :
  fst (get_conflicts (snd (resolve_conflict conflict_id resolution st)))
  = fst (get_conflicts
           (set_ConflictResolution
              (List.filter (fun row => negb (Z.eqb (ConflictRow.conflict_id row) conflict_id))
                 (tbl_ConflictResolution st)) st)).
Proof.
  unfold get_conflicts, resolve_conflict, unresolved_scan. simpl.
  rewrite filter_unresolved_resolved. reflexivity.
Qed.

(** ** Reading the log *)

Lemma insert_by_timestamp_desc_perm (row : SyncLog.row) (l : list SyncLog.row) :
  Permutation (insert_by_timestamp_desc row l) (row :: l).
Proof.
  induction l as [|x l IH]; simpl; [reflexivity|].
  destruct (Z.leb _ _); [reflexivity|].
  rewrite IH. apply perm_swap.
Qed.

Lemma insert_by_timestamp_desc_sorted (row : SyncLog.row) (l : list SyncLog.row) :
  Sorted (fun a b => SyncLog.timestamp b <= SyncLog.timestamp a) l ->
  Sorted (fun a b => SyncLog.timestamp b <= SyncLog.timestamp a)
         (insert_by_timestamp_desc row l).
Proof.
  induction l as [|x l IH]; simpl; intros Hs.
  - constructor; constructor.
  - destruct (Z.leb _ _) eqn:E.
    + constructor; [exact Hs|]. constructor. apply Z.leb_le. exact E.
    + apply Z.leb_gt in E. inversion Hs as [|? ? Hs' Hhd]; subst.
      constructor; [apply IH; exact Hs'|].
      destruct l as [|y l]; simpl.
      * constructor. lia.
      * destruct (Z.leb _ _); constructor; [lia|].
        inversion Hhd; subst. assumption.
Qed.

Lemma newest_first_perm (rows : list SyncLog.row) :
  Permutation (fold_right insert_by_timestamp_desc [] rows) rows.
Proof.
  induction rows as [|x l IH]; simpl; [reflexivity|].
  rewrite insert_by_timestamp_desc_perm, IH. reflexivity.
Qed.

Lemma newest_first_sorted (rows : list SyncLog.row) :
  Sorted (fun a b => SyncLog.timestamp b <= SyncLog.timestamp a)
         (fold_right insert_by_timestamp_desc [] rows).
Proof.
  induction rows as [|x l IH]; simpl; [constructor|].
  apply insert_by_timestamp_desc_sorted. exact IH.
Qed.

Lemma Sorted_firstn {A : Type} (R : A -> A -> Prop) (n : nat) (l : list A) :
  Sorted R l -> Sorted R (firstn n l).
Proof.
  revert l. induction n as [|n IH]; intros l Hs; [constructor|].
  destruct l as [|x l]; [constructor|].
  inversion Hs as [|? ? Hs' Hhd]; subst. simpl.
  constructor; [apply IH; exact Hs'|].
  destruct l as [|y l]; simpl.
  - destruct n; constructor.
  - destruct n; simpl; [constructor|]. inversion Hhd; subst. constructor. assumption.
Qed.

Lemma Sorted_sql_limit {A : Type} (R : A -> A -> Prop) (limit : Z) (l : list A) :
  Sorted R l -> Sorted R (sql_limit limit l).
Proof.
  intros Hs. unfold sql_limit. destruct (Z.ltb limit 0); [exact Hs|].
  apply Sorted_firstn. exact Hs.
Qed.

Lemma In_sql_limit {A : Type} (limit : Z) (l : list A) (x : A) :
  In x (sql_limit limit l) -> In x l.
Proof.
  unfold sql_limit. destruct (Z.ltb limit 0); [tauto|].
  revert l. induction (Z.to_nat limit) as [|n IH]; intros l; simpl; [tauto|].
  destruct l as [|y l]; simpl; [tauto|]. intros [H|H]; [left; exact H | right; apply IH; exact H].
Qed.

Lemma Sorted_map_log_entry (l : list SyncLog.row) :
  Sorted (fun a b => SyncLog.timestamp b <= SyncLog.timestamp a) l ->
  Sorted (fun a b => LogEntry.timestamp b <= LogEntry.timestamp a) (map log_entry l).
Proof.
  induction 1 as [|x l _ IH Hhd]; simpl; constructor; [exact IH|].
  destruct Hhd; simpl; constructor. assumption.
Qed.

(** What the answer of [get_sync_log] is made of, and how long it is. *)
Lemma get_sync_log_bounds (session_id : option Z) (limit : Z) (st : State) :
  let wanted :=
    match session_id with
    | Some sid => List.filter (fun row => Z.eqb (SyncLog.sync_session_id row) sid)
                    (tbl_SyncLog st)
    | None => tbl_SyncLog st
    end in
  exists entries : list LogEntry.t,
    get_sync_log session_id limit st = (inr entries, st)
    /\ Sorted (fun a b => LogEntry.timestamp b <= LogEntry.timestamp a) entries
    /\ (forall e, In e entries ->
          exists row, In row (tbl_SyncLog st) /\ e = log_entry row
                      /\ forall sid, session_id = Some sid -> LogEntry.session_id e = sid)
    /\ length entries
       = if Z.ltb limit 0 then length wanted
         else Nat.min (Z.to_nat limit) (length wanted).
Proof.
  intros wanted.
  exists (map log_entry (sql_limit limit (fold_right insert_by_timestamp_desc [] wanted))).
  split; [reflexivity|]. split; [|split].
  - apply Sorted_map_log_entry, Sorted_sql_limit, newest_first_sorted.
  - intros e He. apply in_map_iff in He. destruct He as (row & <- & Hin).
    apply In_sql_limit in Hin.
    apply (Permutation_in _ (newest_first_perm wanted)) in Hin.
    exists row. subst wanted. destruct session_id as [sid|].
    + apply List.filter_In in Hin. destruct Hin as (Hin & Hsid).
      split; [exact Hin|]. split; [reflexivity|].
      intros sid' H. injection H as <-. simpl. apply Z.eqb_eq. exact Hsid.
    + split; [exact Hin|]. split; [reflexivity|]. intros sid H. discriminate H.
  - rewrite length_map. unfold sql_limit.
    pose proof (Permutation_length (newest_first_perm wanted)) as Hlen.
    destruct (Z.ltb limit 0); [exact Hlen|].
    rewrite length_firstn, Hlen. reflexivity.
Qed.

(** X14: [get_sync_log] never raises and changes nothing.  Its answer is
    made of the rows of the log - with a session id, of the rows of that
    session - each of them once, put in an order in which no row is
    older than the one after it, and cut to the first [limit] of them;
    with a limit that is negative, or not below their number, it is all
    of them. *)
Theorem get_sync_log_newest_first (session_id : option Z) (limit : Z) (st : State) :
  let wanted :=
    match session_id with
    | Some sid => List.filter (fun row => Z.eqb (SyncLog.sync_session_id row) sid)
                    (tbl_SyncLog st)
    | None => tbl_SyncLog st
    end in
  exists ordered : list SyncLog.row,
    Permutation ordered wanted
    /\ Sorted (fun a b => SyncLog.timestamp b <= SyncLog.timestamp a) ordered
    /\ get_sync_log session_id limit st
       = (inr (map log_entry
                 (if Z.ltb limit 0 then ordered else firstn (Z.to_nat limit) ordered)),
          st)
    /\ ((length wanted <= Z.to_nat limit)%nat ->
        get_sync_log session_id limit st = (inr (map log_entry ordered), st)).
Proof.
  intros wanted.
  exists (fold_right insert_by_timestamp_desc [] wanted).
  split; [apply newest_first_perm|]. split; [apply newest_first_sorted|].
  split; [reflexivity|].
  intros Hlen. unfold get_sync_log, sql_limit. fold wanted.
  destruct (Z.ltb limit 0); [reflexivity|].
  rewrite firstn_all2; [reflexivity|].
  rewrite (Permutation_length (newest_first_perm wanted)). exact Hlen.
Qed.

(** ** What every call keeps true *)

Section Stable.

Variable P : State -> Prop.

Lemma stable_ret {A : Type} (a : A) : keeps (stable P) (ret a).
Proof. intros st H. exact H. Qed.

Lemma stable_raise {A : Type} (e : exn) : keeps (stable P) (@raise A e).
Proof. intros st H. exact H. Qed.

Lemma stable_gets {A : Type} (f : State -> A) : keeps (stable P) (gets f).
Proof. intros st H. exact H. Qed.

Lemma stable_modify (f : State -> State) :
  (forall st, P st -> P (f st)) -> keeps (stable P) (modify f).
Proof. intros Hf st H. apply Hf. exact H. Qed.

Lemma stable_bind {A B : Type} (m : M A) (k : A -> M B) :
  keeps (stable P) m -> (forall a, keeps (stable P) (k a)) -> keeps (stable P) (bind m k).
Proof.
  intros Hm Hk st H. unfold bind. specialize (Hm st H).
  destruct (m st) as [[e|a] st']; simpl in *; [exact Hm | apply Hk; exact Hm].
Qed.

Lemma stable_try_except {A : Type} (body : M A) (handler : exn -> M A) :
  keeps (stable P) body -> (forall e, keeps (stable P) (handler e)) ->
  keeps (stable P) (try_except body handler).
Proof.
  intros Hb Hh st H. unfold try_except. specialize (Hb st H).
  destruct (body st) as [[e|a] st']; simpl in *; [apply Hh; exact Hb | exact Hb].
Qed.

(** A property that does not depend on the primary store. *)
Hypothesis P_set_mysql : forall db st, P st -> P (set_mysql db st).

Lemma stable_get (conn : Conn) (table_name : string) (record_id : Z) :
  keeps (stable P) (_get_record_data conn table_name record_id).
Proof.
  intros st H. unfold _get_record_data. destruct (db_of conn st !! table_name); exact H.
Qed.

Lemma stable_insert (table_name : string) (data : option Row) :
  keeps (stable P) (_insert_record_to_mysql table_name data).
Proof.
  intros st H. unfold _insert_record_to_mysql.
  destruct data as [d|]; [|exact H].
  destruct (mysql st !! table_name) as [l|]; [|exact H].
  destruct (duplicate_key table_name d l); [exact H|]. apply P_set_mysql. exact H.
Qed.

Lemma stable_update (table_name : string) (record_id : Z) (data : option Row) :
  keeps (stable P) (_update_record_in_mysql table_name record_id data).
Proof.
  intros st H. unfold _update_record_in_mysql.
  destruct data as [d|]; [|exact H].
  destruct (bool_decide _); [exact H|].
  destruct (mysql st !! table_name) as [l|]; [|exact H]. apply P_set_mysql. exact H.
Qed.

Lemma stable_delete (table_name : string) (record_id : Z) :
  keeps (stable P) (_delete_record_from_mysql table_name record_id).
Proof.
  intros st H. unfold _delete_record_from_mysql.
  destruct (mysql st !! table_name) as [l|]; [|exact H]. apply P_set_mysql. exact H.
Qed.

(** The statements on the bookkeeping, when each of them keeps [P]. *)
Hypothesis P_log : forall session_id message level,
  keeps (stable P) (_log_sync_message session_id message level).
Hypothesis P_create : forall table_name record_id sqlite_data mysql_data,
  keeps (stable P) (_create_conflict_record table_name record_id sqlite_data mysql_data).
Hypothesis P_mark : forall table_name record_id operation,
  keeps (stable P) (_mark_record_synced table_name record_id operation).
Hypothesis P_set_conflicts : forall cs st, P st -> P (set_conflicts cs st).

Ltac stable_step :=
  match goal with
  | |- keeps (stable P) (bind _ _) => apply stable_bind; [|intros ?]
  | |- keeps (stable P) (try_except _ _) => apply stable_try_except; [|intros ?]
  | |- keeps (stable P) (if ?b then _ else _) => destruct b
  | |- keeps (stable P) (match ?x with Some _ => _ | None => _ end) => destruct x
  | |- keeps (stable P) (modify _) => apply stable_modify; intros ? ?
  | |- keeps (stable P) _ =>
      first [ apply stable_ret | apply stable_gets | apply stable_get | apply stable_insert
            | apply stable_update | apply stable_delete | apply P_log | apply P_create
            | apply P_mark ]
  end.

Lemma stable_sync_record (record : SyncRecord.t) (session_id : Z) :
  keeps (stable P) (_sync_record record session_id).
Proof.
  unfold _sync_record, _handle_insert_sync, _handle_update_sync, _handle_delete_sync.
  repeat stable_step.
Qed.

Lemma stable_sync_one (session_id : Z) (record : SyncRecord.t) (counters : nat * nat) :
  keeps (stable P) (sync_one session_id record counters).
Proof.
  unfold sync_one. apply stable_try_except; [|intros e; repeat stable_step].
  apply stable_bind; [apply stable_sync_record|]. intros [c|]; repeat stable_step.
  apply P_set_conflicts. assumption.
Qed.

Lemma stable_sync_loop (session_id : Z) (pending_records : list SyncRecord.t) :
  forall counters : nat * nat,
    keeps (stable P) (sync_loop session_id pending_records counters).
Proof.
  induction pending_records as [|record rest IH]; intros counters; simpl.
  - apply stable_ret.
  - apply stable_bind; [apply stable_sync_one | intros c; apply IH].
Qed.

(** The session, when a change of status keeps [P] wherever the session
    makes one. *)
Hypothesis P_set_sync_status : forall s st, s <> IDLE -> P st -> P (set_sync_status s st).

Lemma stable_mysql_connect : keeps (stable P) mysql_connect.
Proof. intros st H. unfold mysql_connect. destruct (mysql_up st); exact H. Qed.

Lemma stable_sync_pending_records (session_id : Z) (pending_records : list SyncRecord.t) :
  keeps (stable P) (sync_pending_records session_id pending_records).
Proof.
  unfold sync_pending_records.
  apply stable_bind; [apply stable_mysql_connect | intros _].
  apply stable_bind; [apply stable_sync_loop | intros counters].
  cbv zeta. repeat stable_step; apply P_set_sync_status; (discriminate || assumption).
Qed.

Lemma stable_synchronize_from (fetch : M (list SyncRecord.t)) :
  keeps (stable P) fetch -> keeps (stable P) (synchronize_from fetch).
Proof.
  intros Hfetch st H. unfold synchronize_from.
  destruct (bool_decide (sync_status st = SYNCING)); [exact H|].
  destruct (negb (MYSQL_AVAILABLE st)); [exact H|].
  cbv zeta.
  match goal with
  | |- P (snd (?m st)) => assert (K : keeps (stable P) m); [|exact (K st H)]
  end.
  apply stable_bind; [stable_step; apply P_set_sync_status; (discriminate || assumption)|].
  intros _. apply stable_try_except.
  - apply stable_bind; [apply P_log | intros _].
    apply stable_bind; [exact Hfetch | intros [|r rest]].
    + repeat stable_step. apply P_set_sync_status; (discriminate || assumption).
    + apply stable_sync_pending_records.
  - intros e. repeat stable_step. apply P_set_sync_status; (discriminate || assumption).
Qed.

Lemma stable_sync_monitor_loop_turn :
  (forall d st, P st -> P (advance d st)) ->
  keeps (stable P) _sync_monitor_loop_turn.
Proof.
  intros Hadv. unfold _sync_monitor_loop_turn.
  apply stable_try_except; [|intros e; apply stable_modify; apply Hadv].
  apply stable_bind.
  { intros st H. unfold is_mysql_available.
    destruct (negb (MYSQL_AVAILABLE st)); [exact H|]. destruct (mysql_up st); exact H. }
  intros available. apply stable_bind; [apply stable_gets | intros status].
  apply stable_bind; [|intros _; apply stable_modify; apply Hadv].
  destruct (available && bool_decide (status = IDLE)); [|apply stable_ret].
  apply stable_bind; [|intros _; apply stable_ret].
  change synchronize_databases with (synchronize_from _get_pending_sync_records).
  apply stable_synchronize_from. intros st H. exact H.
Qed.

End Stable.

Lemma next_id_above (ids : list Z) : Forall (fun i => i < next_id ids) ids.
Proof.
  unfold next_id. induction ids as [|a l IH]; constructor; simpl.
  - lia.
  - eapply List.Forall_impl; [|exact IH]. simpl. intros i Hi. lia.
Qed.

Lemma StronglySorted_snoc (ids : list Z) (x : Z) :
  StronglySorted Z.lt ids -> Forall (fun i => i < x) ids ->
  StronglySorted Z.lt (app ids [x]).
Proof.
  induction 1 as [|a l Hs IH Ha]; intros Hx; simpl.
  - constructor; constructor.
  - inversion Hx as [|? ? Hax Hlx]; subst.
    constructor; [apply IH; exact Hlx|].
    apply List.Forall_app. split; [exact Ha | constructor; [exact Hax | constructor]].
Qed.

Lemma next_id_sorted (ids : list Z) :
  StronglySorted Z.lt ids -> StronglySorted Z.lt (app ids [next_id ids]).
Proof. intros H. apply StronglySorted_snoc; [exact H | apply next_id_above]. Qed.

Lemma bookkeeping_ok_tables (st st' : State) :
  tbl_SyncTracking st' = tbl_SyncTracking st ->
  tbl_ConflictResolution st' = tbl_ConflictResolution st ->
  tbl_SyncLog st' = tbl_SyncLog st ->
  bookkeeping_ok st -> bookkeeping_ok st'.
Proof. unfold bookkeeping_ok. intros -> -> ->. tauto. Qed.

Lemma bookkeeping_ok_log (session_id : Z) (message level : string) :
  keeps (stable bookkeeping_ok) (_log_sync_message session_id message level).
Proof.
  intros st (H1 & H2 & H3 & H4 & H5). unfold bookkeeping_ok. simpl.
  repeat split; try assumption.
  rewrite List.map_app. simpl. apply next_id_sorted. exact H5.
Qed.

Lemma bookkeeping_ok_create (table_name : string) (record_id : Z)
    (sqlite_data mysql_data : option Row) :
  keeps (stable bookkeeping_ok)
    (_create_conflict_record table_name record_id sqlite_data mysql_data).
Proof.
  intros st (H1 & H2 & H3 & H4 & H5). unfold bookkeeping_ok. simpl.
  repeat split; try assumption.
  - apply List.Forall_app. split; [exact H2|]. constructor; [|constructor].
    left. repeat split; reflexivity.
  - rewrite List.map_app. simpl. apply next_id_sorted. exact H4.
Qed.

Lemma tracking_row_ok_mark_synced (now : Z) (row : SyncTracking.row) :
  tracking_row_ok row -> tracking_row_ok (mark_synced now row).
Proof.
  intros (Ht & Hc & _). unfold tracking_row_ok. simpl.
  split; [exact Ht|]. split; [exact Hc|]. right. split; [reflexivity|].
  exists now. reflexivity.
Qed.

Lemma bookkeeping_ok_mark (table_name : string) (record_id : Z) (operation : string) :
  keeps (stable bookkeeping_ok) (_mark_record_synced table_name record_id operation).
Proof.
  intros st (H1 & H2 & H3 & H4 & H5). unfold bookkeeping_ok. simpl.
  repeat split; try assumption.
  - clear H3. induction H1 as [|row rows Hrow _ IH]; simpl; constructor; [|exact IH].
    destruct (same_change _ _ _ row); [apply tracking_row_ok_mark_synced|]; exact Hrow.
  - rewrite List.map_map.
    erewrite List.map_ext; [exact H3|].
    intros row. simpl. destruct (same_change _ _ _ row); reflexivity.
Qed.

Lemma bookkeeping_ok_track (table_name : string) (record_id : Z) (operation : string)
    (data : option Row) :
  keeps (stable bookkeeping_ok) (track_record_change table_name record_id operation data).
Proof.
  intros st H. unfold track_record_change.
  destruct (bool_decide (table_name ∈ sync_tables)) eqn:E; simpl; [|exact H].
  apply bool_decide_eq_true_1 in E.
  destruct H as (H1 & H2 & H3 & H4 & H5). unfold bookkeeping_ok. simpl.
  repeat split; try assumption.
  - apply List.Forall_app. split; [exact H1|]. constructor; [|constructor].
    unfold tracking_row_ok. simpl. split; [|split; [reflexivity|]].
    + apply list_elem_of_In in E. exact E.
    + left. split; reflexivity.
  - rewrite List.map_app. simpl. apply next_id_sorted. exact H3.
Qed.

Lemma conflict_row_ok_resolve_row (now : Z) (resolution : ConflictResolution)
    (row : ConflictRow.row) :
  conflict_row_ok (resolve_row now resolution row).
Proof.
  right. simpl. split; [reflexivity|]. split; [exists resolution | exists now]; reflexivity.
Qed.

Lemma bookkeeping_ok_resolve (conflict_id : Z) (resolution : ConflictResolution) :
  keeps (stable bookkeeping_ok) (resolve_conflict conflict_id resolution).
Proof.
  intros st (H1 & H2 & H3 & H4 & H5). unfold bookkeeping_ok, resolve_conflict. simpl.
  repeat split; try assumption.
  - clear H4. induction H2 as [|row rows Hrow _ IH]; simpl; constructor; [|exact IH].
    destruct (Z.eqb _ _); [apply conflict_row_ok_resolve_row | exact Hrow].
  - rewrite List.map_map.
    erewrite List.map_ext; [exact H4|].
    intros row. simpl. destruct (Z.eqb _ _); reflexivity.
Qed.

Lemma bookkeeping_ok_synchronize_from (fetch : M (list SyncRecord.t)) :
  keeps (stable bookkeeping_ok) fetch ->
  keeps (stable bookkeeping_ok) (synchronize_from fetch).
Proof.
  apply (stable_synchronize_from bookkeeping_ok).
  - intros db st H. exact H.
  - apply bookkeeping_ok_log.
  - apply bookkeeping_ok_create.
  - apply bookkeeping_ok_mark.
  - intros cs st H. exact H.
  - intros s st _ H. exact H.
Qed.

Lemma bookkeeping_ok_do_call (c : call) (st : State) :
  bookkeeping_ok st -> bookkeeping_ok (do_call c st).
Proof.
  intros H. destruct c; simpl.
  - apply bookkeeping_ok_track. exact H.
  - apply bookkeeping_ok_resolve. exact H.
  - change synchronize_databases with (synchronize_from _get_pending_sync_records).
    apply bookkeeping_ok_synchronize_from; [|exact H]. intros s Hs. exact Hs.
  - apply bookkeeping_ok_synchronize_from; [|exact H]. intros s Hs. exact Hs.
  - apply (stable_sync_monitor_loop_turn bookkeeping_ok); try exact H.
    + intros db s Hs. exact Hs.
    + apply bookkeeping_ok_log.
    + apply bookkeeping_ok_create.
    + apply bookkeeping_ok_mark.
    + intros cs s Hs. exact Hs.
    + intros x s _ Hs. exact Hs.
    + intros d s Hs. exact Hs.
  - exact H.
  - exact H.
Qed.

(** X15: what the statements of the manager keep true of its three
    tables, over any run of calls - tracking, resolving, sessions on the
    fetched list or on any list, turns of the monitor - with time
    passing and the data changing in between.  Every tracked change is
    for one of the six synchronised tables, has the status ['pending']
    with no [synced_at] or ['synced'] with one, and no conflict data;
    every conflict row is unresolved under ['manual'] with no
    [resolved_at], or resolved under the value of a strategy with one;
    and the keys of each table grow with the rows, so no two rows share
    one. *)
Theorem bookkeeping_stays_well_formed (calls : list call) (st : State) :
  bookkeeping_ok st -> bookkeeping_ok (run calls st).
Proof.
  unfold run. revert st. induction calls as [|c calls IH]; intros st H; simpl; [exact H|].
  apply IH. apply bookkeeping_ok_do_call. exact H.
Qed.

Lemma bookkeeping_stays_well_formed_witness :
  bookkeeping_ok
    (run [Track "Members" 7 "UPDATE" (Some row_secondary); Synchronize;
          Replay [SyncRecord.mk "Members" 7 "UPDATE" 200 hash_secondary COMPLETED None];
          Resolve 1 SQLITE_WINS; MonitorTurn] st_diverged).
Proof.
  apply (bookkeeping_stays_well_formed
           [Track "Members" 7 "UPDATE" (Some row_secondary); Synchronize;
            Replay [SyncRecord.mk "Members" 7 "UPDATE" 200 hash_secondary COMPLETED None];
            Resolve 1 SQLITE_WINS; MonitorTurn] st_diverged).
  unfold bookkeeping_ok. simpl. repeat split; constructor.
Defined.

(** ** The status, and the monitor *)

Lemma not_idle_synchronize_from (fetch : M (list SyncRecord.t)) :
  keeps (stable (fun st => sync_status st <> IDLE)) fetch ->
  keeps (stable (fun st => sync_status st <> IDLE)) (synchronize_from fetch).
Proof.
  apply (stable_synchronize_from (fun st => sync_status st <> IDLE)).
  - intros db st H. exact H.
  - intros sid message level st H. exact H.
  - intros t i s m st H. exact H.
  - intros t i o st H. exact H.
  - intros cs st H. exact H.
  - intros s st Hs _. exact Hs.
Qed.

Lemma not_idle_do_call (c : call) (st : State) :
  sync_status st <> IDLE -> sync_status (do_call c st) <> IDLE.
Proof.
  intros H. destruct c; simpl.
  - unfold track_record_change. destruct (negb _); exact H.
  - exact H.
  - change synchronize_databases with (synchronize_from _get_pending_sync_records).
    apply not_idle_synchronize_from; [|exact H]. intros s Hs. exact Hs.
  - apply not_idle_synchronize_from; [|exact H]. intros s Hs. exact Hs.
  - apply (stable_sync_monitor_loop_turn (fun st => sync_status st <> IDLE)); try exact H.
    + intros db s Hs. exact Hs.
    + intros sid message level s Hs. exact Hs.
    + intros t i sd md s Hs. exact Hs.
    + intros t i o s Hs. exact Hs.
    + intros cs s Hs. exact Hs.
    + intros x s Hx _. exact Hx.
    + intros d s Hs. exact Hs.
  - exact H.
  - exact H.
Qed.

(** A session that passes the two guards leaves the status it found. *)
Lemma synchronize_databases_leaves_idle (st : State) :
  sync_status st = IDLE -> MYSQL_AVAILABLE st = true ->
  sync_status (snd (synchronize_databases st)) <> IDLE.
Proof.
  intros Hs Ha.
  assert (Hn : sync_status st <> SYNCING) by (rewrite Hs; discriminate).
  destruct (pending_row_or_none (tbl_SyncTracking st)) as [(row & Hin & Hp) | Hnone].
  - destruct (synchronize_databases_fetch_raises st row Hin Hp Hn Ha)
      as (st' & Hrun & Hst & _).
    rewrite Hrun. simpl. rewrite Hst. discriminate.
  - destruct (synchronize_databases_nothing_pending st Hnone Hn Ha)
      as (st' & Hrun & Hst & _).
    rewrite Hrun. simpl. rewrite Hst. discriminate.
Qed.

Lemma monitor_turn_not_idle (st : State) :
  sync_status st <> IDLE -> do_call MonitorTurn st = advance sync_interval st.
Proof.
  intros H. simpl.
  unfold _sync_monitor_loop_turn, try_except, bind, is_mysql_available, gets, ret, modify.
  destruct (negb (MYSQL_AVAILABLE st)); [|destruct (mysql_up st)]; simpl;
    rewrite ?(bool_decide_eq_false_2 _ H); reflexivity.
Qed.

Lemma monitor_turn_cases (st : State) :
  do_call MonitorTurn st = advance sync_interval st
  \/ sync_status (do_call MonitorTurn st) <> IDLE.
Proof.
  destruct (decide (sync_status st = IDLE)) as [Hs|Hs];
    [|left; apply monitor_turn_not_idle; exact Hs].
  destruct (MYSQL_AVAILABLE st) eqn:Ha.
  2:{ left. simpl.
      unfold _sync_monitor_loop_turn, try_except, bind, is_mysql_available, gets.
      rewrite Ha. reflexivity. }
  destruct (mysql_up st) eqn:Hup.
  2:{ left. simpl.
      unfold _sync_monitor_loop_turn, try_except, bind, is_mysql_available, gets.
      rewrite Ha, Hup. reflexivity. }
  right. simpl.
  unfold _sync_monitor_loop_turn, try_except. unfold bind at 1.
  unfold is_mysql_available. rewrite Ha, Hup. simpl negb. cbv iota beta.
  unfold bind at 1. unfold gets at 1. cbv iota beta.
  rewrite (bool_decide_eq_true_2 _ Hs). simpl andb. cbv iota.
  pose proof (synchronize_databases_leaves_idle st Hs Ha) as Hleft.
  unfold bind, ret, modify.
  destruct (synchronize_databases st) as [[e|b] st']; simpl in *; exact Hleft.
Qed.

Lemma monitor_sessions_not_idle (calls : list call) :
  forall st : State, sync_status st <> IDLE -> monitor_sessions calls st = 0%nat.
Proof.
  induction calls as [|c calls IH]; intros st H; [reflexivity|].
  cbn [monitor_sessions]. rewrite (IH _ (not_idle_do_call c st H)).
  destruct c; try reflexivity.
  rewrite (monitor_turn_not_idle st H).
  replace (sessions_logged (advance sync_interval st)) with (sessions_logged st)
    by reflexivity.
  rewrite Nat.ltb_irrefl. reflexivity.
Qed.

(** X16: the monitor thread starts at most one session in the life of
    a manager.  In any run of calls, from any state, at most one turn of
    the monitor adds the line to the log with which a session starts:
    the monitor asks for the status [IDLE], and once a session has
    passed its guards no statement of the manager sets that status
    again. *)
Theorem monitor_starts_at_most_one_session (calls : list call) :
  forall st : State, (monitor_sessions calls st <= 1)%nat.
Proof.
  induction calls as [|c calls IH]; intros st; [simpl; lia|].
  cbn [monitor_sessions].
  destruct c; try (simpl; apply IH).
  destruct (monitor_turn_cases st) as [Hsame | Hleft].
  - rewrite Hsame at 1.
    replace (sessions_logged (advance sync_interval st)) with (sessions_logged st)
      by reflexivity.
    rewrite Nat.ltb_irrefl. simpl. apply IH.
  - rewrite (monitor_sessions_not_idle calls _ Hleft).
    destruct (Nat.ltb _ _); simpl; lia.
Qed.

(** X17: no statement of the manager sets the status [IDLE].  Once the
    status has left [IDLE] - a session that passes its guards leaves it -
    it is never [IDLE] again, whatever is called. *)
Theorem status_never_returns_to_idle (calls : list call) (st : State) :
  sync_status st <> IDLE -> sync_status (run calls st) <> IDLE.
Proof.
  unfold run. revert st. induction calls as [|c calls IH]; intros st H; simpl; [exact H|].
  apply IH. apply not_idle_do_call. exact H.
Qed.

Lemma status_never_returns_to_idle_witness :
  sync_status st_diverged = IDLE
  /\ sync_status (snd (synchronize_databases st_diverged)) = COMPLETED
  /\ sync_status (run [Track "Members" 7 "UPDATE" (Some row_secondary); MonitorTurn;
                       Resolve 1 MANUAL; Synchronize]
                    (snd (synchronize_databases st_diverged))) <> IDLE.
Proof.
  split; [reflexivity|]. split; [vm_compute; reflexivity|].
  apply (status_never_returns_to_idle
           [Track "Members" 7 "UPDATE" (Some row_secondary); MonitorTurn;
            Resolve 1 MANUAL; Synchronize]
           (snd (synchronize_databases st_diverged))).
  vm_compute. discriminate.
Defined.

(** ** What the entry points never do *)

Lemma no_replay_do_call (c : call) (st : State) :
  is_replay c = false ->
  (exists new : list SyncTracking.row,
     tbl_SyncTracking (do_call c st) = app (tbl_SyncTracking st) new
     /\ Forall (fun row => is_pending row = true) new)
  /\ conflicts (do_call c st) = conflicts st
  /\ (is_outside c = false -> mysql (do_call c st) = mysql st).
Proof.
  intros Hc. destruct c; try discriminate Hc; simpl.
  - unfold track_record_change. destruct (negb _); simpl.
    + split; [exists []; rewrite app_nil_r; split; [reflexivity | constructor]|].
      split; reflexivity.
    + split; [eexists [_]; split; [reflexivity | repeat constructor]|].
      split; reflexivity.
  - split; [exists []; rewrite app_nil_r; split; [reflexivity | constructor]|].
    split; reflexivity.
  - destruct (synchronize_databases_replays_nothing st) as (Ht & _ & Hcs & Hmy & _).
    split; [exists []; rewrite app_nil_r; split; [exact Ht | constructor]|].
    split; [exact Hcs | intros _; exact Hmy].
  - destruct (synchronize_databases_replays_nothing st) as (Ht & _ & Hcs & Hmy & _).
    assert (E : do_call MonitorTurn st = advance sync_interval st
                \/ do_call MonitorTurn st
                   = advance sync_interval (snd (synchronize_databases st))).
    { simpl. unfold _sync_monitor_loop_turn, try_except, bind, gets, ret, modify.
      destruct (is_mysql_available st) as [[e|available] st0] eqn:Eav.
      - unfold is_mysql_available in Eav.
        destruct (negb (MYSQL_AVAILABLE st)); [discriminate|].
        destruct (mysql_up st); discriminate.
      - assert (st0 = st) as ->.
        { unfold is_mysql_available in Eav.
          destruct (negb (MYSQL_AVAILABLE st)); [congruence|].
          destruct (mysql_up st); congruence. }
        destruct (available && bool_decide (sync_status st = IDLE)); [|left; reflexivity].
        right. destruct (synchronize_databases st) as [[e|b] st']; reflexivity. }
    simpl in E.
    destruct E as [-> | ->]; simpl.
    + split; [exists []; rewrite app_nil_r; split; [reflexivity | constructor]|].
      split; reflexivity.
    + split; [exists []; rewrite app_nil_r; split; [exact Ht | constructor]|].
      split; [exact Hcs | intros _; exact Hmy].
  - split; [exists []; rewrite app_nil_r; split; [reflexivity | constructor]|].
    split; reflexivity.
  - split; [exists []; rewrite app_nil_r; split; [reflexivity | constructor]|].
    split; [reflexivity | discriminate].
Qed.

(** X18: what the manager never does through the ways in: tracking,
    resolving, [synchronize_databases] and the monitor, in any order and
    any number, with time passing and the data changing in between.
    The tracked changes only grow, by pending rows: no row is ever
    rewritten, so a change that was pending stays pending and none is
    ever marked as synced.  [self.conflicts] stays as it was.  And the
    primary store is left as the rest of the program leaves it: without
    changes from outside it is the same at the end of the run. *)
Theorem entry_points_never_replay (calls : list call) (st : State) :
  forallb (fun c => negb (is_replay c)) calls = true ->
  (exists new : list SyncTracking.row,
     tbl_SyncTracking (run calls st) = app (tbl_SyncTracking st) new
     /\ Forall (fun row => is_pending row = true) new)
  /\ conflicts (run calls st) = conflicts st
  /\ (forallb (fun c => negb (is_outside c)) calls = true ->
      mysql (run calls st) = mysql st).
Proof.
  unfold run. revert st. induction calls as [|c calls IH]; intros st Hall; simpl.
  - split; [exists []; rewrite app_nil_r; split; [reflexivity | constructor]|].
    split; [reflexivity | intros _; reflexivity].
  - simpl in Hall. apply andb_true_iff in Hall. destruct Hall as (Hc & Hall).
    apply negb_true_iff in Hc.
    destruct (no_replay_do_call c st Hc) as ((new1 & Ht1 & Hp1) & Hcs1 & Hmy1).
    destruct (IH (do_call c st) Hall) as ((new2 & Ht2 & Hp2) & Hcs2 & Hmy2).
    split; [|split].
    + exists (app new1 new2). rewrite Ht2, Ht1, app_assoc. split; [reflexivity|].
      apply List.Forall_app. split; assumption.
    + rewrite Hcs2. exact Hcs1.
    + intros Hout. apply andb_true_iff in Hout. destruct Hout as (Ho & Hout).
      apply negb_true_iff in Ho. rewrite (Hmy2 Hout). apply Hmy1. exact Ho.
Qed.

Lemma entry_points_never_replay_witness :
  (exists new : list SyncTracking.row,
     tbl_SyncTracking
       (run [Track "Members" 7 "UPDATE" (Some row_secondary); Synchronize; MonitorTurn;
             Elapse 60; Synchronize] st_diverged)
     = app (tbl_SyncTracking st_diverged) new
     /\ Forall (fun row => is_pending row = true) new)
  /\ mysql (run [Track "Members" 7 "UPDATE" (Some row_secondary); Synchronize; MonitorTurn;
                 Elapse 60; Synchronize] st_diverged)
     = mysql st_diverged.
Proof.
  destruct (entry_points_never_replay
              [Track "Members" 7 "UPDATE" (Some row_secondary); Synchronize; MonitorTurn;
               Elapse 60; Synchronize] st_diverged) as (Ht & _ & Hmy).
  - reflexivity.
  - split; [exact Ht | apply Hmy; reflexivity].
Defined.

(** ** Handing out connections *)

Section Connections.

Import DatabaseManager.
Import Connection.

Lemma _check_mysql_availability_keeps (connector : bool) (current_time : Z)
    (connects : bool) (self : t) :
  let r := _check_mysql_availability connector current_time connects self in
  current_db_type (snd r) = current_db_type self
  /\ sync_manager (snd r) = sync_manager self
  /\ mysql_check_interval (snd r) = mysql_check_interval self
  /\ last_mysql_check (snd r)
     = (if probed (fst r) then current_time else last_mysql_check self)
  /\ probed (fst r)
     = negb (Z.ltb (current_time - last_mysql_check self) (mysql_check_interval self)).
Proof.
  unfold _check_mysql_availability.
  destruct (Z.ltb _ _); [repeat split|].
  destruct connector; [destruct connects|]; repeat split.
Qed.

Lemma _get_sqlite_connection_cases (connector opens : bool) (self : t) :
  let r := _get_sqlite_connection connector opens self in
  (opens = true
   /\ fst r = inr SQLiteConnection
   /\ current_db_type (snd r) = Some "sqlite"
   /\ (connector = true -> sqlite_fallback_active (snd r) = true)
   /\ sync_manager (snd r) = sync_manager self
   /\ mysql_available (snd r) = mysql_available self)
  \/ (opens = false /\ (exists e, fst r = inl e) /\ snd r = self).
Proof.
  unfold _get_sqlite_connection. destruct opens.
  - left. cbn [fst snd]. split; [reflexivity|]. split; [reflexivity|].
    destruct connector; cbn; [|repeat split; try reflexivity; discriminate].
    destruct (sqlite_fallback_active self) eqn:E; cbn; repeat split;
      try reflexivity; try (intros _; assumption).
  - right. repeat split. eexists. reflexivity.
Qed.

Lemma _get_mysql_connection_cases (connector : bool) (server : mysql_server) (self : t) :
  let r := _get_mysql_connection connector server self in
  (fst r = inr MySQLConnection
   /\ connector = true
   /\ current_db_type (snd r) = Some "mysql"
   /\ sqlite_fallback_active (snd r) = false
   /\ sync_manager (snd r) = sync_manager self
   /\ mysql_available (snd r) = mysql_available self)
  \/ ((exists e, fst r = inl e) /\ snd r = self).
Proof.
  unfold _get_mysql_connection. destruct connector; cbn [negb].
  - destruct server as [|[] []|]; cbn;
      first [ left; repeat split; reflexivity
            | right; split; [eexists; reflexivity | reflexivity] ].
  - right. split; [eexists; reflexivity | reflexivity].
Qed.

Lemma get_connection_outcome (connector : bool) (current_time : Z)
    (connects : bool) (server : mysql_server) (opens1 opens2 : bool) (self : t) :
  let r := get_connection connector current_time connects server opens1 opens2 self in
  match snd (fst r) with
  | inr MySQLConnection =>
      current_db_type (snd r) = Some "mysql"
      /\ sqlite_fallback_active (snd r) = false
      /\ mysql_available (snd r) = true
      /\ connector = true
  | inr SQLiteConnection =>
      current_db_type (snd r) = Some "sqlite"
      /\ (connector = true -> sqlite_fallback_active (snd r) = true)
  | inl _ =>
      opens2 = false /\ current_db_type (snd r) = current_db_type self
  end
  /\ sync_manager (snd r) = sync_manager self.
Proof.
  unfold get_connection. cbv zeta.
  destruct (_check_mysql_availability_keeps connector current_time connects self)
    as (Hdb & Hsm & _).
  set (checked := _check_mysql_availability connector current_time connects self) in *.
  destruct (mysql_available (snd checked)) eqn:Hav.
  - destruct (_get_mysql_connection_cases connector server (snd checked))
      as [(Hres & Hc & Hdb1 & Hfb1 & Hsm1 & Hav1) | ((e & Hres) & Hself)].
    + destruct (_get_mysql_connection connector server (snd checked)) as [res self2].
      cbn [fst snd] in *. subst res. cbn [fst snd].
      repeat split; congruence.
    + destruct (_get_mysql_connection connector server (snd checked)) as [res self2].
      cbn [fst snd] in *. subst res self2. cbn [fst snd].
      destruct (_get_sqlite_connection_cases connector opens2
                  (set_sqlite_fallback_active true (snd checked)))
        as [(Ho & Hres & Hdb2 & Hfb2 & Hsm2 & _) | (Ho & (e2 & Hres) & Hself)];
        rewrite Hres.
      * repeat split; try assumption. rewrite Hsm2. exact Hsm.
      * rewrite Hself. repeat split; assumption.
  - destruct (_get_sqlite_connection_cases connector opens1 (snd checked))
      as [(Ho & Hres & Hdb1 & Hfb1 & Hsm1 & _) | (Ho & (e & Hres) & Hself)].
    + destruct (_get_sqlite_connection connector opens1 (snd checked)) as [res self2].
      cbn [fst snd] in *. subst res. cbn [fst snd].
      repeat split; try assumption. congruence.
    + destruct (_get_sqlite_connection connector opens1 (snd checked)) as [res self2].
      cbn [fst snd] in *. subst res self2. cbn [fst snd].
      destruct (_get_sqlite_connection_cases connector opens2
                  (set_sqlite_fallback_active true (snd checked)))
        as [(Ho2 & Hres & Hdb2 & Hfb2 & Hsm2 & _) | (Ho2 & (e2 & Hres) & Hself)];
        rewrite Hres.
      * repeat split; try assumption. rewrite Hsm2. exact Hsm.
      * rewrite Hself. repeat split; assumption.
Qed.

(** X19: what [get_connection] hands out and what it leaves in the
    manager.  A MySQL connection comes with [current_db_type = 'mysql'],
    the fallback flag cleared and [mysql_available] set; a SQLite
    connection comes with [current_db_type = 'sqlite'] and, when the
    connector module is there, with the fallback flag set.  The call
    raises only when the SQLite file cannot be opened at the last
    attempt, and then [current_db_type] is as it was. *)
Theorem get_connection_sets_the_store (connector : bool) (current_time : Z)
    (connects : bool) (server : mysql_server) (opens1 opens2 : bool) (self : t) :
  let r := get_connection connector current_time connects server opens1 opens2 self in
  match snd (fst r) with
  | inr MySQLConnection =>
      current_db_type (snd r) = Some "mysql"
      /\ sqlite_fallback_active (snd r) = false
      /\ mysql_available (snd r) = true
      /\ connector = true
  | inr SQLiteConnection =>
      current_db_type (snd r) = Some "sqlite"
      /\ (connector = true -> sqlite_fallback_active (snd r) = true)
  | inl _ =>
      opens2 = false /\ current_db_type (snd r) = current_db_type self
  end
  /\ sync_manager (snd r) = sync_manager self.
Proof. apply get_connection_outcome. Qed.

(** X20: a change is tracked exactly when the connection that was
    handed out last is on SQLite.  After [get_connection] has returned,
    [track_change] appends one pending row when the connection is a
    SQLite one, the sync manager was built and the table is one of the
    six; in every other case - a MySQL connection above all - it leaves
    the state as it is. *)
Theorem track_change_follows_connection (connector : bool) (current_time : Z)
    (connects : bool) (server : mysql_server) (opens1 opens2 : bool) (self : t)
    (conn : connection) (table_name : string) (record_id : Z) (operation : string)
    (data : option Row) (st : State) :
  let r := get_connection connector current_time connects server opens1 opens2 self in
  snd (fst r) = inr conn ->
  track_change (snd r) table_name record_id operation data st
  = if (match conn with SQLiteConnection => true | MySQLConnection => false end)
       && sync_manager self && bool_decide (table_name ∈ sync_tables)
    then set_SyncTracking
           (app (tbl_SyncTracking st)
              [SyncTracking.mk (next_id (map SyncTracking.sync_id (tbl_SyncTracking st)))
                 table_name record_id operation (clock st) (_calculate_data_hash data)
                 "pending" None (clock st) None]) st
    else st.
Proof.
  intros r Hres.
  pose proof (get_connection_outcome connector current_time connects server opens1 opens2
                self) as Hout.
  fold r in Hout. cbv zeta in Hout. rewrite Hres in Hout. destruct Hout as (Hout & Hsm).
  unfold track_change. rewrite Hsm.
  destruct conn.
  - destruct Hout as (Hdb & _). rewrite Hdb.
    rewrite andb_false_r. reflexivity.
  - destruct Hout as (Hdb & _). rewrite Hdb.
    rewrite (bool_decide_eq_true_2 _ eq_refl), andb_true_r. simpl.
    destruct (sync_manager self); [|reflexivity]. simpl.
    destruct (decide (table_name ∈ sync_tables)) as [Hin|Hin].
    + rewrite (bool_decide_eq_true_2 _ Hin).
      unfold try_except. rewrite (track_record_change_enrolled _ _ _ _ _ Hin). reflexivity.
    + rewrite (bool_decide_eq_false_2 _ Hin).
      unfold try_except. rewrite (track_record_change_not_enrolled _ _ _ _ _ Hin).
      reflexivity.
Qed.

Lemma track_change_follows_connection_witness :
  tbl_SyncTracking
    (track_change
       (snd (get_connection true 100 false Accepts true true (fresh true)))
       "Members" 7 "UPDATE" (Some row_secondary) st_diverged)
  = [SyncTracking.mk 1 "Members" 7 "UPDATE" 200 hash_secondary "pending" None 200 None].
Proof.
  rewrite (track_change_follows_connection true 100 false Accepts true true (fresh true)
             SQLiteConnection "Members" 7 "UPDATE" (Some row_secondary) st_diverged).
  - vm_compute. reflexivity.
  - reflexivity.
Defined.

(** X21: a connection that the server refuses between two probes puts
    the manager on SQLite and sets the fallback flag, but leaves
    [mysql_available] set: that flag is only cleared by a probe.  So when
    the next probe finds the server, the check sees no recovery and
    starts no synchronisation, although changes may have been tracked in
    between. *)
Theorem refused_connection_starts_no_sync (t1 : Z) (connects1 opens1 : bool) (self : t)
    (t2 : Z) :
  mysql_available self = true ->
  Z.ltb (t1 - last_mysql_check self) (mysql_check_interval self) = true ->
  let r := get_connection true t1 connects1 Refuses opens1 true self in
  snd (fst r) = inr SQLiteConnection
  /\ probed (fst (fst r)) = false
  /\ current_db_type (snd r) = Some "sqlite"
  /\ sqlite_fallback_active (snd r) = true
  /\ mysql_available (snd r) = true
  /\ sync_triggered (fst (_check_mysql_availability true t2 true (snd r))) = false.
Proof.
  intros Hav Hlimit.
  assert (Hcheck : _check_mysql_availability true t1 connects1 self
                   = (mkOutcome false (mysql_available self) false, self)).
  { unfold _check_mysql_availability. rewrite Hlimit. reflexivity. }
  unfold get_connection. rewrite Hcheck. cbn [fst snd]. rewrite Hav.
  cbn. repeat split; [exact Hav|].
  unfold _check_mysql_availability. cbn. rewrite Hav.
  destruct (Z.ltb (t2 - _) _); cbn; reflexivity.
Qed.

Lemma refused_connection_starts_no_sync_witness :
  snd (fst (get_connection true 110 true Refuses true true (init true true 100 true)))
  = inr SQLiteConnection
  /\ sync_triggered
       (fst (_check_mysql_availability true 130 true
               (snd (get_connection true 110 true Refuses true true
                       (init true true 100 true))))) = false.
Proof.
  destruct (refused_connection_starts_no_sync 110 true true (init true true 100 true) 130)
    as (Hconn & _ & _ & _ & _ & Hsync).
  - reflexivity.
  - reflexivity.
  - split; [exact Hconn | exact Hsync].
Defined.

(** ** The rate of the probes *)

(** X22: the health check probes the server at most once per
    [mysql_check_interval].  In any run of checks, whatever the times of
    the calls and the answers of the server, each probe comes at least
    one interval after the probe before it, and the first at least one
    interval after [last_mysql_check]. *)
Theorem probes_are_one_interval_apart (connector : bool) (calls : list (Z * bool))
    (self : t) :
  Sorted (fun a b => mysql_check_interval self <= b - a)
         (last_mysql_check self :: probe_times connector calls self).
Proof.
  revert self. induction calls as [|c calls IH]; intros self; simpl.
  - constructor; constructor.
  - destruct (_check_mysql_availability_keeps connector (fst c) (snd c) self)
      as (_ & _ & Hiv & Hlast & Hprobed).
    specialize (IH (snd (_check_mysql_availability connector (fst c) (snd c) self))).
    rewrite Hiv, Hlast in IH.
    destruct (probed (fst (_check_mysql_availability connector (fst c) (snd c) self))).
    + constructor; [exact IH|]. constructor.
      symmetry in Hprobed. apply negb_true_iff in Hprobed. apply Z.ltb_ge in Hprobed. lia.
    + exact IH.
Qed.

(** [force_mysql_reconnect] goes round the rate limit.  Whatever
    [last_mysql_check] was, a call at a time not before one interval
    probes the server; it returns what the server answers, and
    [mysql_available] is that answer afterwards. *)
Lemma force_mysql_reconnect_probes (connector : bool) (current_time : Z)
    (connects : bool) (self : t) :
  mysql_check_interval self <= current_time ->
  let r := force_mysql_reconnect connector current_time connects self in
  probed (fst r) = true
  /\ returned (fst r) = connector && connects
  /\ mysql_available (snd r) = connector && connects
  /\ last_mysql_check (snd r) = current_time
  /\ connection_retry_count (snd r) = 0.
Proof.
  intros Hle. unfold force_mysql_reconnect, _check_mysql_availability.
  cbn [set_connection_retry_count set_last_mysql_check last_mysql_check
       mysql_check_interval mysql_available sqlite_fallback_active sync_manager
       connection_retry_count max_retry_attempts current_db_type].
  replace (Z.ltb (current_time - 0) (mysql_check_interval self)) with false
    by (symmetry; apply Z.ltb_ge; lia).
  destruct connector; [destruct connects|]; cbn; repeat split.
Qed.

Example force_mysql_reconnect_within_interval :
  probed (fst (force_mysql_reconnect true 105 false (init true true 100 true))) = true
  /\ probed (fst (_check_mysql_availability true 105 false (init true true 100 true)))
     = false.
Proof.
  destruct (force_mysql_reconnect_probes true 105 false (init true true 100 true))
    as (Hp & _).
  - vm_compute. discriminate.
  - split; [exact Hp | reflexivity].
Qed.

Lemma checks_sync_manager (connector : bool) (calls : list (Z * bool)) :
  forall self : t, sync_manager (checks connector calls self) = sync_manager self.
Proof.
  unfold checks. induction calls as [|c calls IH]; intros self; simpl; [reflexivity|].
  rewrite IH.
  destruct (_check_mysql_availability_keeps connector (fst c) (snd c) self)
    as (_ & Hsm & _). exact Hsm.
Qed.

(** X23: when the health check starts a synchronisation.  In a manager
    that has only run health checks since it was built, a check starts
    one exactly when it probes, the probe succeeds, the sync manager was
    built, and the probes before it are a success followed by one or
    more failures.  So a manager that was started while the server was
    down, and has not seen it up yet, starts none when the server
    appears. *)
Theorem sync_triggered_iff_recovery (connector built : bool) (calls : list (Z * bool))
    (current_time : Z) (connects : bool) :
  let self := checks connector calls (fresh built) in
  let h := probes connector calls (fresh built) in
  let o := fst (_check_mysql_availability connector current_time connects self) in
  sync_triggered o = true
  <-> probed o = true /\ connector = true /\ connects = true /\ built = true
      /\ exists before n, h = (before ++ true :: repeat false (S n))%list.
Proof.
  intros self h o.
  pose proof (arbiter_inv_run connector calls (fresh built) []
                (arbiter_inv_fresh connector built)) as Hinv.
  simpl in Hinv. fold self h in Hinv.
  destruct Hinv as (Hfb & Hav & _ & _).
  pose proof (checks_sync_manager connector calls (fresh built)) as Hsm.
  fold self in Hsm. simpl in Hsm.
  subst o. unfold _check_mysql_availability.
  destruct (Z.ltb _ _); cbn; [split; [discriminate | intros (H & _); discriminate]|].
  destruct connector; cbn; [|split; [discriminate | intros (_ & H & _); discriminate]].
  destruct connects; cbn; [|split; [discriminate | intros (_ & _ & H & _); discriminate]].
  rewrite Hsm. split.
  - intros H. apply andb_true_iff in H. destruct H as (H & Hb).
    apply andb_true_iff in H. destruct H as (Hf & _).
    repeat split; try assumption. apply Hfb. exact Hf.
  - intros (_ & _ & _ & Hb & Hh). rewrite Hb, andb_true_r.
    rewrite (proj2 Hfb Hh). simpl.
    destruct (mysql_available self) eqn:E; [|reflexivity].
    exfalso. destruct (proj1 Hav eq_refl) as (before' & E').
    destruct Hh as (before & n & Hh). rewrite E' in Hh.
    apply (not_ends_with_lost before'). exists before, n. exact Hh.
Qed.

(** ** Asking for a synchronisation, and for the status *)

(** X24: [manual_sync] never raises, and it returns [True] exactly
    when the sync manager was built, the last probe found the server, no
    session is running, the connector module is there, and no tracked
    change is pending - so never when there is something to replay. *)
Theorem manual_sync_true_iff_nothing_pending (self : t) (st : State) :
  exists (b : bool) (st' : State),
    manual_sync self st = (inr b, st')
    /\ (b = true
        <-> sync_manager self = true
            /\ mysql_available self = true
            /\ sync_status st <> SYNCING
            /\ MYSQL_AVAILABLE st = true
            /\ forall row, In row (tbl_SyncTracking st) -> is_pending row = false).
Proof.
  unfold manual_sync.
  destruct (sync_manager self); cbn;
    [|exists false, st; split; [reflexivity|];
      split; [discriminate | intros (H & _); discriminate]].
  destruct (mysql_available self); cbn;
    [|exists false, st; split; [reflexivity|];
      split; [discriminate | intros (_ & H & _); discriminate]].
  destruct (synchronize_databases_result st) as (b & st' & Hrun & Hiff & _).
  exists b, st'. split; [unfold try_except; rewrite Hrun; reflexivity|].
  rewrite Hiff. tauto.
Qed.

(** X25: the status report of the manager fails while a change is
    pending.  With the sync manager built, [get_db_status] raises the
    [ValueError] of the fetch whenever a tracked change is pending;
    otherwise it returns the fields of the manager, with the report of
    the sync manager if there is one. *)
Theorem get_db_status_raises_iff_pending (self : t) (st : State) :
  get_db_status self st
  = (if sync_manager self && existsb is_pending (tbl_SyncTracking st)
     then inl (ValueError "'pending' is not a valid SyncStatus")
     else inr (DbStatus.mk (current_db_type self) (mysql_available self)
                 (sqlite_fallback_active self)
                 (if sync_manager self
                  then Some (SyncStatusReport.mk (SyncStatus_value (sync_status st))
                               (MYSQL_AVAILABLE st && mysql_up st) 0
                               (length (conflicts st))
                               (fold_right sql_max None
                                  (map SyncTracking.synced_at
                                     (List.filter is_synced (tbl_SyncTracking st)))))
                  else None)
                 (last_mysql_check self) (connection_retry_count self)),
     st).
Proof.
  unfold get_db_status. destruct (sync_manager self); cbn; [|reflexivity].
  unfold bind at 1. unfold bind at 1. rewrite get_sync_status_eq.
  destruct (existsb is_pending (tbl_SyncTracking st)); reflexivity.
Qed.

End Connections.

(** ** Resolving by key *)

Lemma resolve_none (conflict_id now : Z) (resolution : ConflictResolution)
    (rows : list ConflictRow.row) :
  Forall (fun row => ConflictRow.conflict_id row <> conflict_id) rows ->
  map (fun row => if Z.eqb (ConflictRow.conflict_id row) conflict_id
                  then resolve_row now resolution row else row) rows = rows
  /\ List.filter (fun row => Z.eqb (ConflictRow.conflict_id row) conflict_id) rows = [].
Proof.
  induction 1 as [|row rows Hrow _ (IH1 & IH2)]; simpl; [split; reflexivity|].
  apply Z.eqb_neq in Hrow. rewrite Hrow, IH1, IH2. split; reflexivity.
Qed.

Lemma set_ConflictResolution_same (st : State) :
  set_ConflictResolution (tbl_ConflictResolution st) st = st.
Proof. destruct st. reflexivity. Qed.

(** X26: [resolve_conflict] with a conflict id that no row has returns
    [False] and leaves the state as it is. *)
Theorem resolve_conflict_unknown_id (conflict_id : Z) (resolution : ConflictResolution)
    (st : State) :
  Forall (fun row => ConflictRow.conflict_id row <> conflict_id)
         (tbl_ConflictResolution st) ->
  resolve_conflict conflict_id resolution st = (inr false, st).
Proof.
  intros H. unfold resolve_conflict.
  destruct (resolve_none conflict_id (clock st) resolution _ H) as (-> & ->).
  rewrite set_ConflictResolution_same. reflexivity.
Qed.

Lemma resolve_conflict_unknown_id_witness :
  resolve_conflict 3 SQLITE_WINS st_one_of_two_resolved
  = (inr false, st_one_of_two_resolved).
Proof.
  apply (resolve_conflict_unknown_id 3 SQLITE_WINS st_one_of_two_resolved).
  repeat constructor; discriminate.
Defined.

Lemma sorted_ids_apart (l1 l2 : list ConflictRow.row) (row : ConflictRow.row) :
  StronglySorted Z.lt (map ConflictRow.conflict_id (app l1 (row :: l2))) ->
  Forall (fun r => ConflictRow.conflict_id r <> ConflictRow.conflict_id row) l1
  /\ Forall (fun r => ConflictRow.conflict_id r <> ConflictRow.conflict_id row) l2.
Proof.
  induction l1 as [|a l1 IH]; simpl; intros Hs.
  - split; [constructor|].
    apply StronglySorted_inv in Hs. destruct Hs as (_ & Hall).
    rewrite List.Forall_map in Hall.
    eapply List.Forall_impl; [|exact Hall]. simpl. intros r Hr. lia.
  - apply StronglySorted_inv in Hs. destruct Hs as (Hs & Hall).
    destruct (IH Hs) as (H1 & H2). split; [|exact H2].
    constructor; [|exact H1].
    rewrite List.map_app, List.Forall_app in Hall. destruct Hall as (_ & Hall).
    simpl in Hall. inversion Hall; subst. lia.
Qed.

(** X27: in a conflict table whose keys grow with the rows - as the
    manager keeps it - [resolve_conflict] with the id of a row returns
    [True] and rewrites that row alone: it is marked resolved at the
    time of the call under the strategy given, and every other row, and
    the order of the rows, are as before. *)
Theorem resolve_conflict_changes_one_row (resolution : ConflictResolution) (st : State)
    (l1 l2 : list ConflictRow.row) (row : ConflictRow.row) :
  StronglySorted Z.lt (map ConflictRow.conflict_id (tbl_ConflictResolution st)) ->
  tbl_ConflictResolution st = app l1 (row :: l2) ->
  resolve_conflict (ConflictRow.conflict_id row) resolution st
  = (inr true,
     set_ConflictResolution (app l1 (resolve_row (clock st) resolution row :: l2)) st).
Proof.
  intros Hs Htbl. rewrite Htbl in Hs.
  destruct (sorted_ids_apart l1 l2 row Hs) as (H1 & H2).
  unfold resolve_conflict. rewrite Htbl.
  rewrite List.map_app, List.filter_app. simpl. rewrite Z.eqb_refl.
  destruct (resolve_none (ConflictRow.conflict_id row) (clock st) resolution l1 H1)
    as (-> & ->).
  destruct (resolve_none (ConflictRow.conflict_id row) (clock st) resolution l2 H2)
    as (-> & ->).
  reflexivity.
Qed.

Lemma resolve_conflict_changes_one_row_witness :
  resolve_conflict 2 SQLITE_WINS st_one_of_two_resolved
  = (inr true,
     set_ConflictResolution
       [closed_conflict; resolve_row 200 SQLITE_WINS second_conflict]
       st_one_of_two_resolved).
Proof.
  apply (resolve_conflict_changes_one_row SQLITE_WINS st_one_of_two_resolved
           [closed_conflict] [] second_conflict).
  - simpl. repeat constructor.
  - reflexivity.
Defined.

(** ** Rewriting a statement for MySQL *)

Example convert_create_table :
  _convert_query_to_mysql
    "CREATE TABLE T (id INTEGER PRIMARY KEY AUTOINCREMENT, name TEXT NOT NULL, amount REAL)"
  = "CREATE TABLE T (id INT AUTO_INCREMENT PRIMARY KEY, name VARCHAR(255) NOT NULL, amount DECIMAL(15,2))".
Proof. vm_compute. reflexivity. Qed.

Example convert_insert_or_replace :
  _convert_query_to_mysql "INSERT OR REPLACE INTO S VALUES (1, strftime('%Y', d))"
  = "REPLACE INTO S VALUES (1, YEAR(d))".
Proof. vm_compute. reflexivity. Qed.

Lemma replace_skip_absent (old new s : string) :
  occurs old s = false -> replace_skip 0 old new s = s.
Proof.
  induction s as [|c rest IH]; [reflexivity|].
  cbn [occurs replace_skip]. intros H. apply orb_false_iff in H. destruct H as (Hp & Ho).
  rewrite Hp, (IH Ho). reflexivity.
Qed.

Lemma str_replace_absent (old new s : string) :
  occurs old s = false -> str_replace old new s = s.
Proof.
  intros H. destruct old as [|a old]; [destruct s; discriminate H|].
  apply replace_skip_absent. exact H.
Qed.

Lemma prefix_split (old s : string) :
  String.prefix old s = true -> exists t, s = old ++ t.
Proof.
  revert s. induction old as [|a old IH]; intros s H.
  - exists s. reflexivity.
  - destruct s as [|b s]; [discriminate H|]. simpl in H.
    destruct (ascii_dec a b) as [<-|]; [|discriminate H].
    destruct (IH s H) as (t & ->). exists t. reflexivity.
Qed.

Lemma replace_skip_pass (old new p t : string) :
  replace_skip (String.length p) old new (p ++ t) = replace_skip 0 old new t.
Proof.
  induction p as [|c p IH]; [destruct t; reflexivity|]. simpl. exact IH.
Qed.

Lemma append_length (s t : string) :
  String.length (s ++ t) = (String.length s + String.length t)%nat.
Proof. induction s as [|c s IH]; simpl; [reflexivity | rewrite IH; reflexivity]. Qed.

Lemma replace_skip_same (a : ascii) (old : string) (n : nat) :
  forall s : string, (String.length s <= n)%nat ->
    replace_skip 0 (String a old) (String a old) s = s.
Proof.
  induction n as [|n IH]; intros s Hlen.
  - destruct s; [reflexivity | simpl in Hlen; lia].
  - destruct s as [|c rest]; [reflexivity|].
    cbn [replace_skip]. destruct (String.prefix (String a old) (String c rest)) eqn:Hp.
    + destruct (prefix_split _ _ Hp) as (t & Hs).
      simpl in Hs. injection Hs as -> ->.
      cbn [String.length]. rewrite Nat.sub_succ, Nat.sub_0_r.
      rewrite replace_skip_pass. rewrite IH; [reflexivity|].
      simpl in Hlen. rewrite append_length in Hlen. lia.
    + rewrite IH; [reflexivity | simpl in Hlen; lia].
Qed.

Lemma str_replace_same (a : ascii) (old s : string) :
  str_replace (String a old) (String a old) s = s.
Proof. apply (replace_skip_same a old (String.length s)). lia. Qed.

Lemma replace_empty_nil (s : string) : replace_empty EmptyString s = s.
Proof. induction s as [|c s IH]; simpl; [reflexivity | rewrite IH; reflexivity]. Qed.

Lemma convert_absent (query : string) :
  Forall (fun r => fst r = snd r \/ occurs (fst r) query = false) mysql_replacements ->
  _convert_query_to_mysql query = query.
Proof.
  unfold _convert_query_to_mysql.
  induction mysql_replacements as [|r rs IH]; intros H; [reflexivity|].
  inversion H as [|? ? Hr Hrs]; subst. simpl.
  assert (E : str_replace (fst r) (snd r) query = query).
  { destruct Hr as [Hsame | Habs]; [|apply str_replace_absent; exact Habs].
    rewrite <- Hsame. destruct (fst r) as [|a old].
    - apply replace_empty_nil.
    - apply str_replace_same. }
  rewrite E. apply IH. exact Hrs.
Qed.

(** X28: [_convert_query_to_mysql] leaves a statement alone that has
    none of the SQLite spellings it rewrites.  The replacements of
    ['TEXT,'] and ['TEXT)'] put back what they take out, so a statement
    may hold these two and still come back as it was. *)
Theorem convert_leaves_plain_statement (query : string) :
  (forall old new : string,
     In (old, new) mysql_replacements -> old <> new -> occurs old query = false) ->
  _convert_query_to_mysql query = query.
Proof.
  intros H. apply convert_absent. apply List.Forall_forall. intros [old new] Hin.
  simpl. destruct (string_dec old new) as [E|E]; [left; exact E | right].
  apply (H old new Hin E).
Qed.

Lemma convert_leaves_plain_statement_witness :
  _convert_query_to_mysql "SELECT name FROM Members WHERE kind IN (TEXT, REAL_ID)"
  = "SELECT name FROM Members WHERE kind IN (TEXT, REAL_ID)".
Proof.
  apply (convert_leaves_plain_statement
           "SELECT name FROM Members WHERE kind IN (TEXT, REAL_ID)").
  intros old new Hin Hne. unfold mysql_replacements in Hin. simpl in Hin.
  repeat (destruct Hin as [Hin|Hin];
          [injection Hin as <- <-; first [vm_compute; reflexivity | contradiction Hne; reflexivity]|]).
  contradiction Hin.
Defined.

(** Converting twice is not converting once. *)
Example convert_twice_differs :
  _convert_query_to_mysql "INSERT OR INSERT OR REPLACE" = "INSERT OR REPLACE"
  /\ _convert_query_to_mysql "INSERT OR REPLACE" = "REPLACE".
Proof. split; vm_compute; reflexivity. Qed.

(** ** Health checks and tracking *)

Section Tracking.

Import DatabaseManager.

Lemma checks_keep_store (connector : bool) (calls : list (Z * bool)) :
  forall self : t,
    current_db_type (checks connector calls self) = current_db_type self
    /\ sync_manager (checks connector calls self) = sync_manager self.
Proof.
  unfold checks. induction calls as [|c calls IH]; intros self; simpl; [split; reflexivity|].
  destruct (IH (snd (_check_mysql_availability connector (fst c) (snd c) self)))
    as (Hdb & Hsm).
  destruct (_check_mysql_availability_keeps connector (fst c) (snd c) self)
    as (Hdb1 & Hsm1 & _).
  split; congruence.
Qed.

(** X29: whether a change is tracked does not depend on what the health
    checks find.  [track_change] looks at [current_db_type], which only
    handing out a connection sets: after any run of checks it does what
    it did before them, whether the server was lost or found in between.
    A manager that has handed out no connection yet tracks nothing. *)
Theorem health_checks_do_not_switch_tracking (connector : bool)
    (calls : list (Z * bool)) (self : t) (built : bool) (table_name : string)
    (record_id : Z) (operation : string) (data : option Row) (st : State) :
  track_change (checks connector calls self) table_name record_id operation data st
  = track_change self table_name record_id operation data st
  /\ track_change (checks connector calls (fresh built)) table_name record_id operation
       data st = st.
Proof.
  destruct (checks_keep_store connector calls self) as (Hdb & Hsm).
  destruct (checks_keep_store connector calls (fresh built)) as (Hdb0 & Hsm0).
  unfold track_change. rewrite Hdb, Hsm, Hdb0, Hsm0. split; [reflexivity|].
  simpl. rewrite andb_false_r. reflexivity.
Qed.

End Tracking.

(** ** The session, through its entry point *)




(** C2, at the entry point: a pending [UPDATE] of member 7, whose row
    the primary store holds, is not replayed.  With a recorded hash that
    differs from the hash of the primary row the session stores no
    conflict; with the hash of the primary row it does not send the
    secondary row, and the change stays ['pending'].  Either way the
    session returns [False] with the status [ERROR]: the fetch raises
    before the loop. *)
Theorem pending_update_is_not_replayed :
  (_calculate_data_hash (Some row_primary) <> SyncTracking.data_hash update_7
   /\ fst (synchronize_databases (st_tracked update_7)) = inr false
   /\ sync_status (snd (synchronize_databases (st_tracked update_7))) = ERROR
   /\ tbl_ConflictResolution (snd (synchronize_databases (st_tracked update_7))) = []
   /\ conflicts (snd (synchronize_databases (st_tracked update_7))) = [])
  /\ (_calculate_data_hash (Some row_primary) = SyncTracking.data_hash update_7_in_step
      /\ fst (_get_record_data sqlite_conn "Members" 7 (st_tracked update_7_in_step))
         = inr (Some row_secondary)
      /\ fst (synchronize_databases (st_tracked update_7_in_step)) = inr false
      /\ sync_status (snd (synchronize_databases (st_tracked update_7_in_step))) = ERROR
      /\ fst (_get_record_data mysql_conn "Members" 7
                (snd (synchronize_databases (st_tracked update_7_in_step))))
         = inr (Some row_primary)
      /\ map SyncTracking.sync_status
           (tbl_SyncTracking (snd (synchronize_databases (st_tracked update_7_in_step))))
         = ["pending"]).
Proof.
  split.
  - destruct (synchronize_databases_fetch_raises (st_tracked update_7) update_7)
      as (st' & Hrun & Hst & _ & _ & Hc & Hcs & _).
    + left. reflexivity.
    + reflexivity.
    + discriminate.
    + reflexivity.
    + rewrite Hrun. simpl. rewrite Hst, Hc, Hcs.
      split; [vm_compute; discriminate|]. repeat split.
  - destruct (synchronize_databases_fetch_raises (st_tracked update_7_in_step)
                update_7_in_step)
      as (st' & Hrun & Hst & _ & Ht & _ & _ & Hmy & _).
    + left. reflexivity.
    + reflexivity.
    + discriminate.
    + reflexivity.
    + rewrite Hrun. simpl. rewrite Hst, Ht.
      split; [vm_compute; reflexivity|]. split; [vm_compute; reflexivity|].
      split; [reflexivity|]. split; [reflexivity|]. split; [|reflexivity].
      unfold _get_record_data. simpl. rewrite Hmy. vm_compute. reflexivity.
Qed.

(** C7, at the entry point: two changes are pending, an update of
    member 7 that the loop would apply and an insert of member 8 that
    the loop would fail on.  The exception comes earlier, when the fetch
    builds the first record, outside the [try] of the loop: it ends the
    session.  The session returns [False] with the status [ERROR], logs
    one failure of the whole synchronisation and none of a record, and
    processes neither change: both are still ['pending'] and the primary
    store holds the row it held. *)
Theorem pending_record_aborts_session :
  fst (synchronize_databases st_two_changes) = inr false
  /\ sync_status (snd (synchronize_databases st_two_changes)) = ERROR
  /\ map SyncLog.message (tbl_SyncLog (snd (synchronize_databases st_two_changes)))
     = ["Starting database synchronization";
        "Synchronization failed: 'pending' is not a valid SyncStatus"]
  /\ map SyncTracking.sync_status
       (tbl_SyncTracking (snd (synchronize_databases st_two_changes)))
     = ["pending"; "pending"]
  /\ fst (_get_record_data mysql_conn "Members" 7
            (snd (synchronize_databases st_two_changes)))
     = inr (Some row_primary)
  /\ fst (sync_loop 200 (map (as_record IDLE) [update_7_in_step; insert_8])
            (0%nat, 0%nat) st_two_changes)
     = inr (0%nat, 1%nat).
Proof.
  destruct (synchronize_databases_fetch_raises st_two_changes update_7_in_step)
    as (st' & Hrun & Hst & Hlog & Ht & _ & _ & Hmy & _).
  - left. reflexivity.
  - reflexivity.
  - discriminate.
  - reflexivity.
  - rewrite Hrun. simpl. rewrite Hst, Hlog, Ht.
    split; [reflexivity|]. split; [reflexivity|]. split; [reflexivity|].
    split; [reflexivity|]. split; [|vm_compute; reflexivity].
    unfold _get_record_data. simpl. rewrite Hmy. vm_compute. reflexivity.
Qed.
